(** * LLM Council front end: stream consumer, stage state and session

    A shallow embedding of the JavaScript front end of the LLM Council
    client: the API client ([api.sendMessageStream], [api.login],
    [api.register], [api.getCurrentUser] and the calls on conversations
    and uploads), the [App] component's state handlers and the parts of
    its rendering that compute, the [AuthProvider] session handlers and
    the login form.

    Conventions of the embedding.
    - JavaScript strings and the bytes of the response body are both
      [string] (sequences of 8-bit characters); text is kept in its UTF-8
      form, which is what the server sends and what [TextDecoder] accepts.
    - JavaScript values are the inductive [value]; property reads follow
      the language ([undefined] for a missing property, a [TypeError] when
      the receiver is [null] or [undefined]).
    - A function that can throw returns a [completion]; callbacks, alerts
      and console output are recorded as an ordered list of [effect]s.
    - React state is a record; a handler receives the state its closure
      captured at render time and the state it updates. *)

From Stdlib Require Import String Ascii List ZArith NArith Bool Lia.
From Stdlib Require Import Numbers.DecimalString.
Import ListNotations.
Set Warnings "-register-all".
Open Scope list_scope.
Open Scope string_scope.

(** ** Strings: the [String.prototype] methods the code calls *)

Module Str.

Definition newline : ascii := "010"%char.

(** [s.startsWith(p)] *)
Definition startsWith (s p : string) : bool := String.prefix p s.

(** [s.slice(n)] for [0 <= n] *)
Fixpoint slice (n : nat) (s : string) : string :=
  match n, s with
  | O, _ => s
  | S _, EmptyString => EmptyString
  | S n', String _ rest => slice n' rest
  end.

(** [s.includes(p)] *)
Fixpoint includes (s p : string) : bool :=
  String.prefix p s ||
  match s with
  | EmptyString => false
  | String _ rest => includes rest p
  end.

(** [s.split(sep)] for a one-character separator: never empty, and
    [''.split(sep)] is [['']]. *)
Fixpoint split (sep : ascii) (s : string) : list string :=
  match s with
  | EmptyString => [EmptyString]
  | String c rest =>
      if Ascii.eqb c sep then EmptyString :: split sep rest
      else match split sep rest with
           | (l :: ls)%list => (String c l :: ls)%list
           | []%list => [String c EmptyString]
           end
  end.

(** The white space and line terminators that [trim] removes, in UTF-8:
    TAB, LF, VT, FF, CR, SP, U+00A0, U+1680, U+2000..U+200A, U+2028,
    U+2029, U+202F, U+205F, U+3000 and U+FEFF. *)
Definition ascii_space (c : ascii) : bool :=
  let n := nat_of_ascii c in
  (((9 <=? n) && (n <=? 13)) || (n =? 32))%nat.

Definition white_space_width (s : string) : nat :=
  match s with
  | String c rest =>
      if ascii_space c then 1
      else
        match nat_of_ascii c, rest with
        | 194, String d _ => if (nat_of_ascii d =? 160)%nat then 2 else 0
        | 225, String d (String e _) =>
            if ((nat_of_ascii d =? 154) && (nat_of_ascii e =? 128))%nat then 3 else 0
        | 226, String d (String e _) =>
            let d := nat_of_ascii d in
            let e := nat_of_ascii e in
            if ((d =? 128) &&
                (((128 <=? e) && (e <=? 138)) || (e =? 168) || (e =? 169) || (e =? 175)))%nat
            then 3
            else if ((d =? 129) && (e =? 159))%nat then 3 else 0
        | 227, String d (String e _) =>
            if ((nat_of_ascii d =? 128) && (nat_of_ascii e =? 128))%nat then 3 else 0
        | 239, String d (String e _) =>
            if ((nat_of_ascii d =? 187) && (nat_of_ascii e =? 191))%nat then 3 else 0
        | _, _ => 0
        end
  | EmptyString => 0
  end.

Fixpoint trimStart_fuel (fuel : nat) (s : string) : string :=
  match fuel with
  | O => s
  | S fuel' =>
      match white_space_width s with
      | O => s
      | w => trimStart_fuel fuel' (slice w s)
      end
  end.

(** [s.trimStart()]: each round removes at least one byte, so
    [length s] rounds are enough. *)
Definition trimStart (s : string) : string := trimStart_fuel (String.length s) s.

Fixpoint rev_onto (s acc : string) : string :=
  match s with
  | EmptyString => acc
  | String c rest => rev_onto rest (String c acc)
  end.

Definition rev (s : string) : string := rev_onto s EmptyString.

(** White space seen from the end of the string: the same code points
    with their bytes in reverse order. *)
Definition white_space_width_rev (r : string) : nat :=
  match r with
  | String c rest =>
      if ascii_space c then 1
      else
        match rest with
        | String d rest' =>
            if (white_space_width (String d (String c EmptyString)) =? 2)%nat then 2
            else
              match rest' with
              | String e _ =>
                  if (white_space_width (String e (String d (String c EmptyString))) =? 3)%nat
                  then 3 else 0
              | EmptyString => 0
              end
        | EmptyString => 0
        end
  | EmptyString => 0
  end.

Fixpoint trimEnd_fuel (fuel : nat) (r : string) : string :=
  match fuel with
  | O => r
  | S fuel' =>
      match white_space_width_rev r with
      | O => r
      | w => trimEnd_fuel fuel' (slice w r)
      end
  end.

Definition trimEnd (s : string) : string :=
  rev (trimEnd_fuel (String.length s) (rev s)).

(** [s.trim()] *)
Definition trim (s : string) : string := trimEnd (trimStart s).

Definition is_empty (s : string) : bool :=
  match s with EmptyString => true | _ => false end.

Fixpoint repeat (c : ascii) (n : nat) : string :=
  match n with O => EmptyString | S n' => String c (repeat c n') end.

Fixpoint concat_map {A} (f : A -> string) (l : list A) : string :=
  match l with
  | [] => EmptyString
  | (x :: rest)%list => f x ++ concat_map f rest
  end.

(** [s.endsWith(p)] *)
Definition endsWith (s p : string) : bool := String.prefix (rev p) (rev s).

(** [s.toLowerCase()] on the letters A to Z; no other character has a
    lower-case form that contains one of the letters [p], [d], [f] or a
    full stop, which is all the one caller looks for. *)
Definition lower (c : ascii) : ascii :=
  let n := nat_of_ascii c in
  if ((65 <=? n) && (n <=? 90))%nat then ascii_of_nat (n + 32) else c.

Fixpoint toLowerCase (s : string) : string :=
  match s with
  | EmptyString => EmptyString
  | String c rest => String (lower c) (toLowerCase rest)
  end.

Definition byte (n : N) : ascii := ascii_of_N n.

(** The UTF-8 form of a code point (a lone surrogate is written with
    three bytes like any other code point of its range). *)
Definition utf8 (cp : N) : string :=
  if (cp <? 128)%N then String (byte cp) ""
  else if (cp <? 2048)%N then
    String (byte (192 + cp / 64)) (String (byte (128 + cp mod 64)) "")
  else if (cp <? 65536)%N then
    String (byte (224 + cp / 4096))
      (String (byte (128 + (cp / 64) mod 64)) (String (byte (128 + cp mod 64)) ""))
  else
    String (byte (240 + cp / 262144))
      (String (byte (128 + (cp / 4096) mod 64))
         (String (byte (128 + (cp / 64) mod 64)) (String (byte (128 + cp mod 64)) ""))).

Definition is_continuation (c : ascii) : bool :=
  let n := nat_of_ascii c in ((128 <=? n) && (n <=? 191))%nat.

(** The code points of a text, each as its own string: what iterating
    over a string yields. *)
Fixpoint code_points (s : string) : list string :=
  match s with
  | EmptyString => []
  | String c rest =>
      let starts_inside :=
        match rest with
        | String d _ => is_continuation d
        | EmptyString => false
        end in
      match code_points rest with
      | (seg :: segs)%list =>
          if starts_inside then (String c seg :: segs)%list
          else (String c EmptyString :: seg :: segs)%list
      | []%list => [String c EmptyString]
      end
  end.

(** The UTF-16 code units of a code point given in UTF-8, each as its
    own string: a code point above U+FFFF is a pair of surrogates. *)
Definition code_units_of (seg : string) : list string :=
  match seg with
  | String a (String b (String c (String d EmptyString))) =>
      let cp := ((N_of_ascii a - 240) * 262144 + (N_of_ascii b - 128) * 4096
                 + (N_of_ascii c - 128) * 64 + (N_of_ascii d - 128))%N in
      [utf8 (55296 + (cp - 65536) / 1024)%N; utf8 (56320 + (cp - 65536) mod 1024)%N]
  | _ => [seg]
  end.

Definition code_units (s : string) : list string :=
  List.concat (List.map code_units_of (code_points s)).

End Str.

(** ** JavaScript values *)

Module JS.

(** A number written in a JSON text, kept as the exact decimal
    [(-1)^neg * mant * 10^exp10]; the language reads it as the double
    nearest to it. The tests below for the values that a double rounds to
    zero or to infinity, the rounding to a double and the digits that
    [Number_toString] prints are computed exactly, on integers. *)
Record number := Number { num_neg : bool; num_mant : N; num_exp10 : Z }.

Inductive value :=
| VUndefined
| VNull
| VBool (b : bool)
| VNumber (n : number)
| VString (s : string)
| VArray (items : list value)
| VObject (fields : list (string * value)).

(** A thrown [Error] object: its constructor name and its [message]. *)
Record error := Err { err_name : string; err_message : string }.

(** The outcome of a call that may throw. *)
Inductive completion (A : Type) :=
| Normal (a : A)
| Throw (e : error).
Arguments Normal {A} a.
Arguments Throw {A} e.

Definition bind {A B} (c : completion A) (k : A -> completion B) : completion B :=
  match c with
  | Normal a => k a
  | Throw e => Throw e
  end.

(** [|x| <= 2^-1075]: the decimal rounds to [+0] or [-0]. *)
Definition rounds_to_zero (n : number) : bool :=
  match num_mant n with
  | N0 => true
  | m =>
      (if num_exp10 n <? 0
       then Z.of_N m * 2 ^ 1075 <=? 10 ^ (- num_exp10 n)
       else false)%Z
  end.

(** [|x| >= 2^1024 - 2^970]: the decimal rounds to an infinity. *)
Definition rounds_to_infinity (n : number) : bool :=
  (if 0 <=? num_exp10 n
   then 2 ^ 1024 - 2 ^ 970 <=? Z.of_N (num_mant n) * 10 ^ num_exp10 n
   else 2 ^ 1024 - 2 ^ 970 <=? Z.of_N (num_mant n) / 10 ^ (- num_exp10 n))%Z.

(** [ToBoolean] *)
Definition truthy (v : value) : bool :=
  match v with
  | VUndefined | VNull => false
  | VBool b => b
  | VNumber n => negb (rounds_to_zero n)
  | VString s => negb (Str.is_empty s)
  | VArray _ | VObject _ => true
  end.

(** [a || b] *)
Definition or_else (a b : value) : value := if truthy a then a else b.

(** ** Numbers as doubles

    A number of a JSON text is read as the double nearest to it, ties
    going to the even significand. [fraction_of] is the magnitude of the
    decimal as a fraction; [double_of] is the magnitude of its double,
    [m * 2^e] with [e >= -1074], for a decimal that rounds neither to
    zero nor to an infinity. *)
Definition fraction_of (n : number) : Z * Z :=
  (if 0 <=? num_exp10 n
   then (Z.of_N (num_mant n) * 10 ^ num_exp10 n, 1)
   else (Z.of_N (num_mant n), 10 ^ (- num_exp10 n)))%Z.

(** [floor (log2 (p / q))] for positive [p] and [q]. *)
Definition log2_fraction (p q : Z) : Z :=
  (let l := Z.log2 p - Z.log2 q in
   if 0 <=? l
   then (if q * 2 ^ l <=? p then l else l - 1)
   else (if q <=? p * 2 ^ (- l) then l else l - 1))%Z.

(** The integer nearest to [num / den], the even one of two that are
    equally near. *)
Definition round_half_even (num den : Z) : Z :=
  (let q := num / den in
   let r := num mod den in
   if 2 * r <? den then q
   else if den <? 2 * r then q + 1
   else if Z.even q then q else q + 1)%Z.

Definition double_of (n : number) : Z * Z :=
  (let (p, q) := fraction_of n in
   let e := Z.max (log2_fraction p q - 52) (- 1074) in
   let m := if 0 <=? e then round_half_even p (q * 2 ^ e)
            else round_half_even (p * 2 ^ (- e)) q in
   (m, e))%Z.

(** Numbers and [===]: [x === y] for two numbers when they are read as
    the same double, the two zeros being equal. *)
Definition same_double (x y : number) : bool :=
  if rounds_to_zero x then rounds_to_zero y
  else if rounds_to_zero y then false
  else
    Bool.eqb (num_neg x) (num_neg y)
    && (if rounds_to_infinity x then rounds_to_infinity y
        else if rounds_to_infinity y then false
        else
          let (m1, e1) := double_of x in
          let (m2, e2) := double_of y in
          (m1 * 2 ^ (e1 + 1074) =? m2 * 2 ^ (e2 + 1074))%Z).

Definition digits_of_N (m : N) : string := NilEmpty.string_of_uint (N.to_uint m).

Definition digits_of_nat (m : nat) : string := NilEmpty.string_of_uint (Nat.to_uint m).

(** The digits of [r] (a reversed digit string) without the zeros it
    starts with, and how many were dropped. *)
Fixpoint strip_zeros (r : string) : string * nat :=
  match r with
  | String "0"%char rest => let (d, k) := strip_zeros rest in (d, S k)
  | _ => (r, O)
  end.

(** Whether [10^l <= p / q], for positive [p] and [q]. *)
Definition reaches_power_of_ten (p q l : Z) : bool :=
  (if 0 <=? l then q * 10 ^ l <=? p else q <=? p * 10 ^ (- l))%Z.

(** [floor (log10 (p / q))] for positive [p] and [q]: the estimate from
    the binary logarithm is off by one at most. *)
Definition log10_fraction (p q : Z) : Z :=
  (let l := (Z.log2 p - Z.log2 q) * 1233 / 4096 in
   if reaches_power_of_ten p q (l + 2) then l + 2
   else if reaches_power_of_ten p q (l + 1) then l + 1
   else if reaches_power_of_ten p q l then l
   else if reaches_power_of_ten p q (l - 1) then l - 1
   else l - 2)%Z.

(** Whether the decimal [s * 10^t] is read as the double [m * 2^e]. *)
Definition reads_as (s t m e : Z) : bool :=
  (let n := Number false (Z.to_N s) t in
   negb (rounds_to_zero n) && negb (rounds_to_infinity n)
   && (let (m', e') := double_of n in m' * 2 ^ (e' + 1074) =? m * 2 ^ (e + 1074)))%Z.

(** The decimals with [k] significant digits next to the double
    [m * 2^e = p / q], whose first digit stands at [10^l]: the one below
    and the one above, and which of them is nearer (the even one when
    they are equally near). *)
Definition neighbours (p q l : Z) (k : nat) : Z * Z * bool :=
  (let t := l + 1 - Z.of_nat k in
   let below := if 0 <=? t then p / (q * 10 ^ t) else p * 10 ^ (- t) / q in
   let twice_rest :=
     if 0 <=? t then 2 * (p - below * q * 10 ^ t) - q * 10 ^ t
     else 2 * (p * 10 ^ (- t) - below * q) - q in
   (below, t, if twice_rest <? 0 then true
              else if 0 <? twice_rest then false
              else Z.even below))%Z.

(** The shortest decimal that is read as the double [m * 2^e], the
    nearest to it among the shortest: its digits as a number and its
    exponent, tried with [k], [k + 1], ... digits ([fuel] of them;
    seventeen always do). *)
Fixpoint shortest_from (fuel k : nat) (p q l m e : Z) : Z * Z :=
  let '(below, t, below_is_nearer) := neighbours p q l k in
  let above := (below + 1)%Z in
  let below_ok := reads_as below t m e in
  let above_ok := reads_as above t m e in
  if below_ok && (below_is_nearer || negb above_ok) then (below, t)
  else if above_ok then (above, t)
  else
    match fuel with
    | O => (below, t)
    | S fuel' => shortest_from fuel' (S k) p q l m e
    end.

(** The digits without the zeros they end with. *)
Definition shortest (n : number) : string * Z :=
  (let (m, e) := double_of n in
   let (p, q) := if 0 <=? e then (m * 2 ^ e, 1) else (m, 2 ^ (- e)) in
   let l := log10_fraction p q in
   let (s, t) := shortest_from 17 1 p q l m e in
   let (rdigits, dropped) := strip_zeros (Str.rev (digits_of_N (Z.to_N s))) in
   (Str.rev rdigits, t + Z.of_nat dropped))%Z.

(** [Number::toString(x, 10)]: the shortest digits that are read back as
    the double, laid out with a point or an exponent. *)
Definition Number_toString (n : number) : string :=
  if rounds_to_zero n then "0"
  else
    let sign := if num_neg n then "-" else "" in
    if rounds_to_infinity n then sign ++ "Infinity"
    else
      let (s, e) := shortest n in
      let k := Z.of_nat (String.length s) in
      let pt := (k + e)%Z in
      let body :=
        if ((-5 <=? pt) && (pt <=? 21))%Z then
          if (k <=? pt)%Z then s ++ Str.repeat "0"%char (Z.to_nat (pt - k))
          else if (0 <? pt)%Z then
            String.substring 0 (Z.to_nat pt) s ++ "." ++ Str.slice (Z.to_nat pt) s
          else "0." ++ Str.repeat "0"%char (Z.to_nat (- pt)) ++ s
        else
          let c := (pt - 1)%Z in
          let exponent :=
            (if (c <? 0)%Z then "-" else "+") ++ digits_of_N (Z.to_N (Z.abs c)) in
          match s with
          | String d EmptyString => String d EmptyString ++ "e" ++ exponent
          | String d rest => String d EmptyString ++ "." ++ rest ++ "e" ++ exponent
          | EmptyString => "0"
          end
      in sign ++ body.

(** The elements of an array joined by commas. *)
Fixpoint join_with (sep : string) (parts : list string) : string :=
  match parts with
  | []%list => ""
  | [p]%list => p
  | (p :: rest)%list => p ++ sep ++ join_with sep rest
  end.

(** [ToString], as [String(v)], a template literal and [new Error(v)]
    apply it. In [Array.prototype.join] an element that is [null] or
    [undefined] prints as the empty string. An object prints as
    [Object.prototype.toString] has it, which is what the code gets for
    every object without a property [toString] of its own. For an object
    that has one (in parsed JSON it is never a function) the conversion
    throws a [TypeError], which a string cannot tell: what is proved
    about a text that is shown or thrown is proved for values that are
    not objects. *)
Fixpoint ToString (v : value) : string :=
  match v with
  | VUndefined => "undefined"
  | VNull => "null"
  | VBool true => "true"
  | VBool false => "false"
  | VNumber n => Number_toString n
  | VString s => s
  | VArray items =>
      join_with ","
        (List.map (fun x => match x with
                            | VUndefined | VNull => ""
                            | _ => ToString x
                            end) items)
  | VObject _ => "[object Object]"
  end.

(** The value of the property [key], if there is one. *)
Fixpoint lookup (key : string) (fields : list (string * value)) : option value :=
  match fields with
  | []%list => None
  | ((k, v) :: rest)%list =>
      match lookup key rest with
      | Some v' => Some v'
      | None => if String.eqb k key then Some v else None
      end
  end.

(** [o[key] = v] on the properties of an object: an existing property
    keeps its place. (Properties are listed in the order they were
    created; nothing embedded here enumerates them.) *)
Fixpoint set_field (key : string) (v : value) (fields : list (string * value))
  : list (string * value) :=
  match fields with
  | []%list => [(key, v)]
  | ((k, x) :: rest)%list =>
      if String.eqb k key then ((k, v) :: rest)%list
      else ((k, x) :: set_field key v rest)%list
  end.

(** [v[key]] where [v] is neither [null] nor [undefined], for a [key]
    that no prototype defines (every property name that the code reads
    is of that kind). *)
Definition prop (v : value) (key : string) : value :=
  match v with
  | VObject fields =>
      match lookup key fields with
      | Some x => x
      | None => VUndefined
      end
  | _ => VUndefined
  end.

(** The message of the [TypeError] for a property read on [null] or
    [undefined] (V8's wording; the other engines word it differently and
    none mentions JSON). *)
Definition cannot_read (v : value) (key : string) : error :=
  Err "TypeError"
      ("Cannot read properties of " ++ ToString v ++ " (reading '" ++ key ++ "')").

(** [v.key] *)
Definition get (v : value) (key : string) : completion value :=
  match v with
  | VUndefined | VNull => Throw (cannot_read v key)
  | _ => Normal (prop v key)
  end.

(** [v?.key] *)
Definition get_opt (v : value) (key : string) : value :=
  match v with
  | VUndefined | VNull => VUndefined
  | _ => prop v key
  end.

(** [new Error(v)] *)
Definition new_Error (v : value) : error := Err "Error" (ToString v).

(** [Array.isArray(v)] *)
Definition isArray (v : value) : bool :=
  match v with VArray _ => true | _ => false end.

(** [v[v.length - 1]] for an array [v] *)
Definition last_item (items : list value) : value := List.last items VUndefined.

(** The elements that [[...v]] spreads: those of an array, the code
    points of a string; any other value is not iterable. *)
Definition iterate (v : value) : completion (list value) :=
  match v with
  | VArray items => Normal items
  | VString s => Normal (List.map VString (Str.code_points s))
  | _ => Throw (Err "TypeError" (ToString v ++ " is not iterable"))
  end.

Fixpoint indexed (i : nat) (items : list value) : list (string * value) :=
  match items with
  | []%list => []
  | (x :: rest)%list => ((digits_of_nat i, x) :: indexed (S i) rest)%list
  end.

(** The own enumerable properties that [{...v}] copies. *)
Definition own_entries (v : value) : list (string * value) :=
  match v with
  | VObject fields => fields
  | VArray items => indexed 0 items
  | VString s => indexed 0 (List.map VString (Str.code_units s))
  | _ => []
  end.

(** Whether [v] is an object (an array is one). *)
Definition is_object (v : value) : bool :=
  match v with
  | VObject _ | VArray _ => true
  | _ => false
  end.

(** [a === b] where one side at least is not an object. Two objects are
    equal when they are one and the same object, which a value does not
    record: no object equals a primitive, and the callers below set the
    case of two objects apart. *)
Definition strict_equal (a b : value) : bool :=
  match a, b with
  | VUndefined, VUndefined => true
  | VNull, VNull => true
  | VBool x, VBool y => Bool.eqb x y
  | VNumber x, VNumber y => same_double x y
  | VString x, VString y => String.eqb x y
  | _, _ => false
  end.

(** A parameter declared with the default [null]: [undefined] takes the
    default. *)
Definition or_null (v : value) : value :=
  match v with
  | VUndefined => VNull
  | _ => v
  end.

(** [items[i]] for an array *)
Definition item (i : nat) (items : list value) : value := List.nth i items VUndefined.

End JS.

(** ** [JSON.parse] *)

Module JSON.
Import JS.

(** The double quote. *)
Definition quote : ascii := ascii_of_nat 34.

Definition is_ws (c : ascii) : bool :=
  let n := nat_of_ascii c in
  ((n =? 32) || (n =? 9) || (n =? 10) || (n =? 13))%nat.

Fixpoint skip_ws (s : string) : string :=
  match s with
  | String c rest => if is_ws c then skip_ws rest else s
  | EmptyString => s
  end.

(** What follows the first character of [s], when that is [c]. *)
Definition skip_char (c : ascii) (s : string) : option string :=
  match s with
  | String d rest => if Ascii.eqb d c then Some rest else None
  | EmptyString => None
  end.

Definition digit_val (c : ascii) : option N :=
  let n := N_of_ascii c in
  if ((48 <=? n) && (n <=? 57))%N then Some (n - 48)%N else None.

Definition hex_val (c : ascii) : option N :=
  let n := N_of_ascii c in
  if ((48 <=? n) && (n <=? 57))%N then Some (n - 48)%N
  else if ((65 <=? n) && (n <=? 70))%N then Some (n - 55)%N
  else if ((97 <=? n) && (n <=? 102))%N then Some (n - 87)%N
  else None.

Definition hex4 (a b c d : ascii) : option N :=
  match hex_val a, hex_val b, hex_val c, hex_val d with
  | Some x, Some y, Some z, Some w => Some (((x * 16 + y) * 16 + z) * 16 + w)%N
  | _, _, _, _ => None
  end.

(** The digits at the start of [s]: their value, how many there are,
    and what follows them. *)
Fixpoint take_digits (acc : N) (count : nat) (s : string) : N * nat * string :=
  match s with
  | String c rest =>
      match digit_val c with
      | Some d => take_digits (acc * 10 + d)%N (S count) rest
      | None => (acc, count, s)
      end
  | EmptyString => (acc, count, s)
  end.

(** One digit or more. *)
Definition some_digits (acc : N) (s : string) : option (N * nat * string) :=
  match take_digits acc 0 s with
  | (_, O, _) => None
  | found => Some found
  end.

Definition is_high_surrogate (u : N) : bool := ((55296 <=? u) && (u <=? 56319))%N.
Definition is_low_surrogate (u : N) : bool := ((56320 <=? u) && (u <=? 57343))%N.

(** The character that a one-letter escape stands for. *)
Definition escaped (e : ascii) : option ascii :=
  if Ascii.eqb e quote then Some quote
  else if Ascii.eqb e "\"%char then Some "\"%char
  else if Ascii.eqb e "/"%char then Some "/"%char
  else if Ascii.eqb e "b"%char then Some "008"%char
  else if Ascii.eqb e "f"%char then Some "012"%char
  else if Ascii.eqb e "n"%char then Some "010"%char
  else if Ascii.eqb e "r"%char then Some "013"%char
  else if Ascii.eqb e "t"%char then Some "009"%char
  else None.

(** The characters of a string literal after its opening quote: the
    decoded content and what follows the closing quote. A high surrogate
    followed by the escape of a low surrogate is one code point. *)
Fixpoint lex_string (s : string) : option (string * string) :=
  let continue (prefix : string) (found : option (string * string)) :=
    match found with
    | Some (content, rest) => Some (prefix ++ content, rest)
    | None => None
    end in
  match s with
  | EmptyString => None
  | String c rest =>
      if Ascii.eqb c quote then Some ("", rest)
      else if Ascii.eqb c "\"%char then
        match rest with
        | EmptyString => None
        | String e rest0 =>
            match escaped e with
            | Some x => continue (String x "") (lex_string rest0)
            | None =>
                if negb (Ascii.eqb e "u"%char) then None
                else
                  match rest0 with
                  | String a (String b (String c' (String d rest1))) =>
                      match hex4 a b c' d with
                      | None => None
                      | Some hi =>
                          let lone := continue (Str.utf8 hi) (lex_string rest1) in
                          match rest1 with
                          | String b1 (String b2
                              (String a' (String b' (String c'' (String d' rest2))))) =>
                              match hex4 a' b' c'' d' with
                              | Some lo =>
                                  if Ascii.eqb b1 "\"%char && Ascii.eqb b2 "u"%char
                                     && is_high_surrogate hi && is_low_surrogate lo
                                  then
                                    continue
                                      (Str.utf8 (65536 + (hi - 55296) * 1024 + (lo - 56320))%N)
                                      (lex_string rest2)
                                  else lone
                              | None => lone
                              end
                          | _ => lone
                          end
                      end
                  | _ => None
                  end
            end
        end
      else if (nat_of_ascii c <? 32)%nat then None
      else continue (String c "") (lex_string rest)
  end.

(** The integer part of a number: a zero, or a non-zero digit and more
    digits. *)
Definition lex_int (s : string) : option (N * string) :=
  match skip_char "0"%char s with
  | Some rest => Some (0%N, rest)
  | None =>
      match some_digits 0 s with
      | Some (m, _, rest) => Some (m, rest)
      | None => None
      end
  end.

(** The fraction, if there is one: a point and one or more digits, which
    extend the digits [m] read so far; with how many they are. *)
Definition lex_fraction (m : N) (s : string) : option (N * nat * string) :=
  match skip_char "."%char s with
  | Some rest => some_digits m rest
  | None => Some (m, O, s)
  end.

(** The digits of an exponent, one or more, with the sign read before. *)
Definition exponent_digits (negative : bool) (s : string) : option (Z * string) :=
  match some_digits 0 s with
  | Some (e, _, rest) => Some (if negative then (- Z.of_N e)%Z else Z.of_N e, rest)
  | None => None
  end.

(** The exponent after its letter: a sign or none, and the digits. *)
Definition exponent_signed (s : string) : option (Z * string) :=
  match skip_char "+"%char s with
  | Some rest => exponent_digits false rest
  | None =>
      match skip_char "-"%char s with
      | Some rest => exponent_digits true rest
      | None => exponent_digits false s
      end
  end.

(** The exponent, if there is one: an [e] or [E] and what follows it. *)
Definition lex_exponent (s : string) : option (Z * string) :=
  match skip_char "e"%char s with
  | Some rest => exponent_signed rest
  | None =>
      match skip_char "E"%char s with
      | Some rest => exponent_signed rest
      | None => Some (0%Z, s)
      end
  end.

(** A number: an optional minus sign, the integer part, the fraction and
    the exponent. *)
Definition lex_number (s : string) : option (number * string) :=
  let (neg, s1) :=
    match skip_char "-"%char s with
    | Some rest => (true, rest)
    | None => (false, s)
    end in
  match lex_int s1 with
  | None => None
  | Some (m, s2) =>
      match lex_fraction m s2 with
      | None => None
      | Some (m', k, s3) =>
          match lex_exponent s3 with
          | None => None
          | Some (e, s4) => Some (Number neg m' (e - Z.of_nat k), s4)
          end
      end
  end.

(** The object of a list of members: of two members with the same key
    the later one gives the value. *)
Definition members (l : list (string * value)) : list (string * value) :=
  List.fold_left (fun fields kv => set_field (fst kv) (snd kv) fields) l [].

Definition expect_word (w : string) (v : value) (s : string) : option (value * string) :=
  if String.prefix w s then Some (v, Str.slice (String.length w) s) else None.

(** A value that opens neither an object nor an array, from its first
    character [c]: a string, one of the three words, or a number. *)
Definition parse_scalar (c : ascii) (rest : string) : option (value * string) :=
  if Ascii.eqb c quote then
    match lex_string rest with
    | Some (content, rest') => Some (VString content, rest')
    | None => None
    end
  else if Ascii.eqb c "t"%char then expect_word "true" (VBool true) (String c rest)
  else if Ascii.eqb c "f"%char then expect_word "false" (VBool false) (String c rest)
  else if Ascii.eqb c "n"%char then expect_word "null" VNull (String c rest)
  else
    match lex_number (String c rest) with
    | Some (n, rest') => Some (VNumber n, rest')
    | None => None
    end.

(** A value at the start of [s] (after white space) and what follows it.
    Every call uses one unit of [fuel]; [enough_fuel] says how much is
    enough. *)
Fixpoint parse_value (fuel : nat) (s : string) : option (value * string) :=
  match fuel with
  | O => None
  | S fuel' =>
      match skip_ws s with
      | EmptyString => None
      | String c rest =>
          if Ascii.eqb c "{"%char then
            match skip_char "}"%char (skip_ws rest) with
            | Some rest' => Some (VObject [], rest')
            | None => parse_members fuel' [] rest
            end
          else if Ascii.eqb c "["%char then
            match skip_char "]"%char (skip_ws rest) with
            | Some rest' => Some (VArray [], rest')
            | None => parse_elements fuel' [] rest
            end
          else parse_scalar c rest
      end
  end
with parse_elements (fuel : nat) (acc : list value) (s : string)
  : option (value * string) :=
  match fuel with
  | O => None
  | S fuel' =>
      match parse_value fuel' s with
      | Some (v, rest) =>
          match skip_char ","%char (skip_ws rest) with
          | Some rest' => parse_elements fuel' (v :: acc)%list rest'
          | None =>
              match skip_char "]"%char (skip_ws rest) with
              | Some rest' => Some (VArray (List.rev (v :: acc)), rest')
              | None => None
              end
          end
      | None => None
      end
  end
with parse_members (fuel : nat) (acc : list (string * value)) (s : string)
  : option (value * string) :=
  match fuel with
  | O => None
  | S fuel' =>
      match skip_char quote (skip_ws s) with
      | None => None
      | Some rest =>
          match lex_string rest with
          | None => None
          | Some (key, rest1) =>
              match skip_char ":"%char (skip_ws rest1) with
              | None => None
              | Some rest2 =>
                  match parse_value fuel' rest2 with
                  | None => None
                  | Some (v, rest3) =>
                      match skip_char ","%char (skip_ws rest3) with
                      | Some rest4 => parse_members fuel' ((key, v) :: acc)%list rest4
                      | None =>
                          match skip_char "}"%char (skip_ws rest3) with
                          | Some rest4 =>
                              Some (VObject (members (List.rev ((key, v) :: acc))), rest4)
                          | None => None
                          end
                      end
                  end
              end
          end
      end
  end.

(** The fuel given to the parse of a text. *)
Definition enough_fuel (text : string) : nat := 2 * String.length text + 2.

(** The [SyntaxError] of a failed [JSON.parse]. Engines word the message
    differently ("Unexpected token ... is not valid JSON", "JSON.parse:
    unexpected character ...", "JSON Parse error: ..."); every wording
    contains "JSON", which is all the callers look at. *)
Definition syntax_error : error := Err "SyntaxError" "Unexpected token in JSON".

(** [JSON.parse(text)] *)
Definition parse (text : string) : completion value :=
  match parse_value (enough_fuel text) text with
  | Some (v, rest) =>
      match skip_ws rest with
      | EmptyString => Normal v
      | _ => Throw syntax_error
      end
  | None => Throw syntax_error
  end.

End JSON.

(** ** [TextDecoder]: UTF-8 bytes to text

    [new TextDecoder().decode(bytes)] without the [stream] option: every
    call starts afresh, replaces each malformed sequence by U+FFFD, and
    drops a byte order mark at the start of its input. The decoded text is
    kept in UTF-8, so a well-formed sequence is copied and a malformed one
    becomes the three bytes of U+FFFD. *)

Module TextDecoder.

(** The range allowed for the next continuation byte. *)
Inductive bounds := Any | AfterE0 | AfterED | AfterF0 | AfterF4.

Definition in_bounds (b : bounds) (c : ascii) : bool :=
  let n := nat_of_ascii c in
  match b with
  | Any => (128 <=? n) && (n <=? 191)
  | AfterE0 => (160 <=? n) && (n <=? 191)
  | AfterED => (128 <=? n) && (n <=? 159)
  | AfterF0 => (144 <=? n) && (n <=? 191)
  | AfterF4 => (128 <=? n) && (n <=? 143)
  end%nat.

(** The decoder between two bytes: nothing pending, or the bytes of an
    unfinished sequence with the number of bytes it still needs. *)
Inductive state :=
| Idle
| Pending (seen : string) (needed : nat) (b : bounds).

Inductive lead_class :=
| Single
| Lead (needed : nat) (b : bounds)
| Invalid.

Definition classify (c : ascii) : lead_class :=
  let n := nat_of_ascii c in
  if (n <=? 127)%nat then Single
  else if ((194 <=? n) && (n <=? 223))%nat then Lead 1 Any
  else if (n =? 224)%nat then Lead 2 AfterE0
  else if (n =? 237)%nat then Lead 2 AfterED
  else if ((225 <=? n) && (n <=? 239))%nat then Lead 2 Any
  else if (n =? 240)%nat then Lead 3 AfterF0
  else if (n =? 244)%nat then Lead 3 AfterF4
  else if ((241 <=? n) && (n <=? 243))%nat then Lead 3 Any
  else Invalid.

(** U+FFFD in UTF-8 *)
Definition replacement : string :=
  String (ascii_of_nat 239) (String (ascii_of_nat 191) (String (ascii_of_nat 189) "")).

Fixpoint decode_from (st : state) (bytes : string) : string :=
  match bytes with
  | EmptyString =>
      match st with
      | Idle => ""
      | Pending _ _ _ => replacement
      end
  | String c rest =>
      let fresh :=
        match classify c with
        | Single => String c (decode_from Idle rest)
        | Lead needed b => decode_from (Pending (String c "") needed b) rest
        | Invalid => replacement ++ decode_from Idle rest
        end in
      match st with
      | Idle => fresh
      | Pending seen needed b =>
          if in_bounds b c then
            match needed with
            | S (S _ as needed') =>
                decode_from (Pending (seen ++ String c "") needed' Any) rest
            | _ => seen ++ String c (decode_from Idle rest)
            end
          else replacement ++ fresh
      end
  end.

Definition strip_bom (bytes : string) : string :=
  match bytes with
  | String a (String b (String c rest)) =>
      if ((nat_of_ascii a =? 239) && (nat_of_ascii b =? 187) && (nat_of_ascii c =? 191))%nat
      then rest else bytes
  | _ => bytes
  end.

(** [decoder.decode(value)] *)
Definition decode (bytes : string) : string := decode_from Idle (strip_bom bytes).

End TextDecoder.

(** ** [fetch]: requests and responses *)

Module Http.
Import JS.

(** A request as [fetch] receives it; [req_body] is the payload before
    it is serialised (the argument of [JSON.stringify], or the file of a
    form). *)
Record request := Request {
  url : string;
  method : string;
  headers : list (string * string);
  req_body : option value
}.

(** A response: its status line, and the body as the reader delivers
    it, chunk by chunk, ending either normally or with a failed read. *)
Record response := Response {
  status : nat;
  statusText : string;
  chunks : list string;
  read_failure : option error
}.

(** [response.ok] *)
Definition ok (r : response) : bool := ((200 <=? status r) && (status r <=? 299))%nat.

(** [response.body === null]: a response whose status is one of the null
    body statuses has no body to read. *)
Definition null_body (r : response) : bool :=
  ((status r =? 101) || (status r =? 103) || (status r =? 204) || (status r =? 205)
   || (status r =? 304))%nat.

(** What awaiting [fetch(...)] gives: a rejection (the network failed)
    or a response. *)
Inductive outcome :=
| Rejected (e : error)
| Responded (r : response).

Fixpoint concat (l : list string) : string :=
  match l with
  | []%list => ""
  | (c :: rest)%list => c ++ concat rest
  end.

(** [await response.json()]: the whole body, decoded and parsed. *)
Definition json (r : response) : completion value :=
  match read_failure r with
  | Some e => Throw e
  | None => JSON.parse (TextDecoder.decode (concat (chunks r)))
  end.

End Http.

(** ** What a run leaves behind *)

Module Trace.
Import JS.

(** The calls a run makes to its environment, in order: the four stream
    callbacks, [console.error] and [alert]. *)
Inductive effect :=
| OnStage1 (data : value)
| OnStage2 (data metadata : value)
| OnStage3 (data : value)
| OnTitleUpdate (title : value)
| ConsoleError (label : string) (e : error)
| Alert (text : string).

Definition is_callback (e : effect) : bool :=
  match e with
  | OnStage1 _ | OnStage2 _ _ | OnStage3 _ | OnTitleUpdate _ => true
  | ConsoleError _ _ | Alert _ => false
  end.

Definition callbacks (t : list effect) : list effect := List.filter is_callback t.

(** How the body of a loop iteration ends: it falls through to the next
    iteration, returns from the function, or throws. *)
Inductive control :=
| Next
| Return
| Raise (e : error).

End Trace.

(** ** The two loops of the stream reader

    [sendMessageStream] is written twice (with and without
    authentication); the loops around the handling of one line are the
    same text in both, so they are embedded once, over the body of the
    inner loop. *)

Module Reader.
Import JS Trace.

Section Loops.

(** The body of [for (const line of lines)]. *)
Variable process_line : string -> list effect * control.

(** [for (const line of lines) { ... }] *)
Fixpoint process_lines (lines : list string) : list effect * control :=
  match lines with
  | []%list => ([], Next)
  | (line :: rest)%list =>
      match process_line line with
      | (effects, Next) =>
          let (effects', c) := process_lines rest in ((effects ++ effects')%list, c)
      | stopped => stopped
      end
  end.

(** One iteration of [while (true)] after a read that delivered
    [value]: decode it, split it on newlines, handle every line. *)
Definition process_chunk (value : string) : list effect * control :=
  let chunk := TextDecoder.decode value in
  let lines := Str.split Str.newline chunk in
  process_lines lines.

(** [while (true) { const { done, value } = await reader.read();
    if (done) break; ... }] over the reads the body delivers; a read
    that fails throws to the caller. *)
Fixpoint read_loop (reads : list string) (failure : option error)
  : list effect * completion unit :=
  match reads with
  | []%list =>
      match failure with
      | Some e => ([], Throw e)
      | None => ([], Normal tt)
      end
  | (value :: rest)%list =>
      match process_chunk value with
      | (effects, Next) =>
          let (effects', r) := read_loop rest failure in ((effects ++ effects')%list, r)
      | (effects, Return) => (effects, Normal tt)
      | (effects, Raise e) => (effects, Throw e)
      end
  end.

End Loops.

End Reader.

(** ** The API client (api.js) *)

Module Api.
Import JS Http Trace.

Section Client.

(** [import.meta.env.VITE_API_BASE || 'http://localhost:8001'] *)
Variable API_BASE : string.

(** The module variable [authToken], read at each call. *)
Variable authToken : value.

(** The network, as the answer [fetch] gives to a request. *)
Variable fetch : request -> outcome.

Definition json_headers : list (string * string) :=
  [("Content-Type", "application/json")].

(** [getAuthHeaders()] *)
Definition getAuthHeaders : list (string * string) :=
  if truthy authToken
  then List.app json_headers [("Authorization", "Bearer " ++ ToString authToken)]
  else json_headers.

Definition cannot_connect : error :=
  new_Error (VString ("Cannot connect to server. Please check if the backend is running at "
                      ++ API_BASE)).

(** The outer [catch] of [register] and [login]. *)
Definition credentials_catch (error : error) : completion value :=
  if negb (Str.is_empty (err_message error))
     && negb (Str.includes (err_message error) "Server error")
  then Throw error
  else Throw cannot_connect.

(** The message for a response that is not [ok]: the [detail] of its
    JSON body, the default when there is none, or the status line when
    the body cannot be read. *)
Definition rejection_message (response : response) (default : string) : value :=
  match bind (json response) (fun error => get error "detail") with
  | Normal detail => or_else detail (VString default)
  | Throw _ =>
      VString ("Server error: " ++ digits_of_nat (status response)
               ++ " " ++ statusText response)
  end.

(** The body shared by [register] and [login]; they differ in the
    path, the fields sent and the default message. The promise of
    [return response.json()] is not awaited inside the [try], so its
    rejection reaches the caller without passing the [catch]. *)
Definition credentials_call (path : string) (body : value) (default : string)
  : completion value :=
  match fetch (Request (API_BASE ++ path) "POST" json_headers (Some body)) with
  | Rejected e => credentials_catch e
  | Responded response =>
      if negb (ok response)
      then credentials_catch (new_Error (rejection_message response default))
      else json response
  end.

(** [api.register(username, email, password)] *)
Definition register (username email password : value) : completion value :=
  credentials_call "/api/auth/register"
    (VObject [("username", username); ("email", email); ("password", password)])
    "Failed to register".

(** [api.login(username, password)] *)
Definition login (username password : value) : completion value :=
  credentials_call "/api/auth/login"
    (VObject [("username", username); ("password", password)])
    "Failed to login".

(** [api.getCurrentUser()] *)
Definition getCurrentUser : completion value :=
  match fetch (Request (API_BASE ++ "/api/auth/me") "GET" getAuthHeaders None) with
  | Rejected e => Throw e
  | Responded response =>
      if negb (ok response) then Throw (new_Error (VString "Failed to fetch user info"))
      else json response
  end.

(** [parsed.type === name] *)
Definition type_is (t : value) (name : string) : bool :=
  match t with
  | VString s => String.eqb s name
  | _ => false
  end.

(** The [switch] on [parsed.type]: the callback it calls and how it
    ends ([Next] for [break] and for a type with no [case]). The
    callbacks are those of [App.sendMessage], which only call state
    setters: a call to one of them does not throw. *)
Definition dispatch (parsed : value) : list effect * control :=
  match get parsed "type" with
  | Throw e => ([], Raise e)
  | Normal t =>
      if type_is t "stage1_complete" then
        ([OnStage1 (prop parsed "data")], Next)
      else if type_is t "stage2_complete" then
        ([OnStage2 (prop parsed "data") (prop parsed "metadata")], Next)
      else if type_is t "stage3_complete" then
        ([OnStage3 (prop parsed "data")], Next)
      else if type_is t "title_complete" then
        ([OnTitleUpdate (get_opt (prop parsed "data") "title")], Next)
      else if type_is t "complete" then
        ([], Return)
      else if type_is t "error" then
        ([], Raise (new_Error (or_else (prop parsed "message") (VString "Unknown error"))))
      else ([], Next)
  end.

(** The [try] block of one frame. *)
Definition try_frame (data : string) : list effect * control :=
  match JSON.parse data with
  | Throw e => ([], Raise e)
  | Normal parsed => dispatch parsed
  end.

(** The [catch] clause: an error whose message does not mention JSON
    is thrown again, any other is logged. *)
Definition catch_frame (e : error) : list effect * control :=
  if negb (Str.is_empty (err_message e)) && negb (Str.includes (err_message e) "JSON")
  then ([], Raise e)
  else ([ConsoleError "Failed to parse SSE data:" e], Next).

(** The body of [for (const line of lines)]. *)
Definition process_line (line : string) : list effect * control :=
  if Str.startsWith line "data: " then
    let data := Str.slice 6 line in
    if String.eqb data "[DONE]" then ([], Return)
    else
      match try_frame data with
      | (effects, Raise e) =>
          let (logged, c) := catch_frame e in ((effects ++ logged)%list, c)
      | done => done
      end
  else ([], Next).

Definition process_lines := Reader.process_lines process_line.
Definition process_chunk := Reader.process_chunk process_line.
Definition read_loop := Reader.read_loop process_line.

(** [api.sendMessageStream(conversationId, content, onStage1, onStage2,
    onStage3, onTitleUpdate, pdfData, pdfFilename)]. The last two
    parameters have the default [null]. [response.body.getReader()]
    throws when the response has no body. *)
Definition sendMessageStream (conversationId content pdfData pdfFilename : value)
  : list effect * completion unit :=
  match fetch (Request
                 (API_BASE ++ "/api/conversations/" ++ ToString conversationId
                  ++ "/message/stream")
                 "POST" getAuthHeaders
                 (Some (VObject [("content", content); ("pdf_data", or_null pdfData);
                                 ("pdf_filename", or_null pdfFilename)]))) with
  | Rejected e => ([], Throw e)
  | Responded response =>
      if negb (ok response) then ([], Throw (new_Error (VString "Failed to send message")))
      else if null_body response then ([], Throw (cannot_read VNull "getReader"))
      else read_loop (chunks response) (read_failure response)
  end.

(** The calls that differ only in their path, method, payload and
    failure message. *)
Definition plain_call (path method failure : string) (body : option value)
  : completion value :=
  match fetch (Request (API_BASE ++ path) method getAuthHeaders body) with
  | Rejected e => Throw e
  | Responded response =>
      if negb (ok response) then Throw (new_Error (VString failure))
      else json response
  end.

(** [api.listConversations()] *)
Definition listConversations : completion value :=
  plain_call "/api/conversations" "GET" "Failed to fetch conversations" None.

(** [api.createConversation()] *)
Definition createConversation : completion value :=
  plain_call "/api/conversations" "POST" "Failed to create conversation"
    (Some (VObject [])).

(** [api.getConversation(conversationId)] *)
Definition getConversation (conversationId : value) : completion value :=
  plain_call ("/api/conversations/" ++ ToString conversationId) "GET"
    "Failed to fetch conversation" None.

(** [api.uploadPdf(file)]; the form data is the request's payload. *)
Definition uploadPdf (file : value) : completion value :=
  let headers :=
    if truthy authToken then [("Authorization", "Bearer " ++ ToString authToken)]
    else [] in
  match fetch (Request (API_BASE ++ "/api/upload-pdf") "POST" headers (Some file)) with
  | Rejected e => Throw e
  | Responded response =>
      if negb (ok response) then
        bind (json response) (fun error =>
        bind (get error "detail") (fun detail =>
        Throw (new_Error (or_else detail (VString "Failed to upload PDF")))))
      else json response
  end.

(** [api.sendMessage(conversationId, content, pdfData, pdfFilename)], the
    call that does not stream. *)
Definition sendMessage (conversationId content pdfData pdfFilename : value)
  : completion value :=
  plain_call ("/api/conversations/" ++ ToString conversationId ++ "/message") "POST"
    "Failed to send message"
    (Some (VObject [("content", content); ("pdf_data", or_null pdfData);
                    ("pdf_filename", or_null pdfFilename)])).

(** [api.deleteConversation(conversationId)] *)
Definition deleteConversation (conversationId : value) : completion value :=
  plain_call ("/api/conversations/" ++ ToString conversationId) "DELETE"
    "Failed to delete conversation" None.

End Client.

End Api.

(** ** The API client before authentication was added

    The earlier api.js: no token, [title_update] instead of
    [title_complete], no [complete] and no [error] case, and a [catch]
    that logs whatever is thrown. *)

Module Api0.
Import JS Http Trace.

Section Client.

Variable API_BASE : string.
Variable fetch : request -> outcome.

Definition dispatch (parsed : value) : list effect * control :=
  match get parsed "type" with
  | Throw e => ([], Raise e)
  | Normal t =>
      if Api.type_is t "stage1_complete" then
        ([OnStage1 (prop parsed "data")], Next)
      else if Api.type_is t "stage2_complete" then
        ([OnStage2 (prop parsed "data") (prop parsed "metadata")], Next)
      else if Api.type_is t "stage3_complete" then
        ([OnStage3 (prop parsed "data")], Next)
      else if Api.type_is t "title_update" then
        ([OnTitleUpdate (prop parsed "title")], Next)
      else ([], Next)
  end.

Definition try_frame (data : string) : list effect * control :=
  match JSON.parse data with
  | Throw e => ([], Raise e)
  | Normal parsed => dispatch parsed
  end.

Definition catch_frame (e : error) : list effect * control :=
  ([ConsoleError "Failed to parse SSE data:" e], Next).

Definition process_line (line : string) : list effect * control :=
  if Str.startsWith line "data: " then
    let data := Str.slice 6 line in
    if String.eqb data "[DONE]" then ([], Return)
    else
      match try_frame data with
      | (effects, Raise e) =>
          let (logged, c) := catch_frame e in ((effects ++ logged)%list, c)
      | done => done
      end
  else ([], Next).

Definition process_lines := Reader.process_lines process_line.
Definition process_chunk := Reader.process_chunk process_line.
Definition read_loop := Reader.read_loop process_line.

Definition sendMessageStream (conversationId content pdfData pdfFilename : value)
  : list effect * completion unit :=
  match fetch (Request
                 (API_BASE ++ "/api/conversations/" ++ ToString conversationId
                  ++ "/message/stream")
                 "POST" [("Content-Type", "application/json")]
                 (Some (VObject [("content", content); ("pdf_data", or_null pdfData);
                                 ("pdf_filename", or_null pdfFilename)]))) with
  | Rejected e => ([], Throw e)
  | Responded response =>
      if negb (ok response) then ([], Throw (new_Error (VString "Failed to send message")))
      else if null_body response then ([], Throw (cannot_read VNull "getReader"))
      else read_loop (chunks response) (read_failure response)
  end.

End Client.

End Api0.

(** ** The [App] component (App.jsx) *)

Module App.
Import JS Http Trace.

(** The component's state: one field per [useState], the value of the
    file input behind [fileInputRef] ([None] while it is not mounted),
    and the alerts and console lines written so far, oldest first.
    [currentStage] is [None] for [null]. *)
Record state := State {
  conversations : value;
  currentConversation : value;
  messages : value;
  input : string;
  loading : bool;
  stage1Results : value;
  stage2Results : value;
  stage3Result : value;
  metadata : value;
  activeTab : nat;
  currentStage : option nat;
  uploadingPdf : bool;
  pdfData : value;
  pdfFilename : value;
  fileInput : option string;
  journal : list effect
}.

(** The state of the first render. *)
Definition initial : state :=
  State (VArray []) VNull (VArray []) "" false
        VNull VNull VNull VNull 0
        None false VNull VNull None [].

(** The setters: each replaces one field. *)
Definition setConversations (x : value) (s : state) : state :=
  State
    x (currentConversation s) (messages s) (input s)
    (loading s) (stage1Results s) (stage2Results s) (stage3Result s)
    (metadata s) (activeTab s) (currentStage s) (uploadingPdf s)
    (pdfData s) (pdfFilename s) (fileInput s) (journal s).

Definition setCurrentConversation (x : value) (s : state) : state :=
  State
    (conversations s) x (messages s) (input s)
    (loading s) (stage1Results s) (stage2Results s) (stage3Result s)
    (metadata s) (activeTab s) (currentStage s) (uploadingPdf s)
    (pdfData s) (pdfFilename s) (fileInput s) (journal s).

Definition setMessages (x : value) (s : state) : state :=
  State
    (conversations s) (currentConversation s) x (input s)
    (loading s) (stage1Results s) (stage2Results s) (stage3Result s)
    (metadata s) (activeTab s) (currentStage s) (uploadingPdf s)
    (pdfData s) (pdfFilename s) (fileInput s) (journal s).

Definition setInput (x : string) (s : state) : state :=
  State
    (conversations s) (currentConversation s) (messages s) x
    (loading s) (stage1Results s) (stage2Results s) (stage3Result s)
    (metadata s) (activeTab s) (currentStage s) (uploadingPdf s)
    (pdfData s) (pdfFilename s) (fileInput s) (journal s).

Definition setLoading (x : bool) (s : state) : state :=
  State
    (conversations s) (currentConversation s) (messages s) (input s)
    x (stage1Results s) (stage2Results s) (stage3Result s)
    (metadata s) (activeTab s) (currentStage s) (uploadingPdf s)
    (pdfData s) (pdfFilename s) (fileInput s) (journal s).

Definition setStage1Results (x : value) (s : state) : state :=
  State
    (conversations s) (currentConversation s) (messages s) (input s)
    (loading s) x (stage2Results s) (stage3Result s)
    (metadata s) (activeTab s) (currentStage s) (uploadingPdf s)
    (pdfData s) (pdfFilename s) (fileInput s) (journal s).

Definition setStage2Results (x : value) (s : state) : state :=
  State
    (conversations s) (currentConversation s) (messages s) (input s)
    (loading s) (stage1Results s) x (stage3Result s)
    (metadata s) (activeTab s) (currentStage s) (uploadingPdf s)
    (pdfData s) (pdfFilename s) (fileInput s) (journal s).

Definition setStage3Result (x : value) (s : state) : state :=
  State
    (conversations s) (currentConversation s) (messages s) (input s)
    (loading s) (stage1Results s) (stage2Results s) x
    (metadata s) (activeTab s) (currentStage s) (uploadingPdf s)
    (pdfData s) (pdfFilename s) (fileInput s) (journal s).

Definition setMetadata (x : value) (s : state) : state :=
  State
    (conversations s) (currentConversation s) (messages s) (input s)
    (loading s) (stage1Results s) (stage2Results s) (stage3Result s)
    x (activeTab s) (currentStage s) (uploadingPdf s)
    (pdfData s) (pdfFilename s) (fileInput s) (journal s).

Definition setActiveTab (x : nat) (s : state) : state :=
  State
    (conversations s) (currentConversation s) (messages s) (input s)
    (loading s) (stage1Results s) (stage2Results s) (stage3Result s)
    (metadata s) x (currentStage s) (uploadingPdf s)
    (pdfData s) (pdfFilename s) (fileInput s) (journal s).

Definition setCurrentStage (x : option nat) (s : state) : state :=
  State
    (conversations s) (currentConversation s) (messages s) (input s)
    (loading s) (stage1Results s) (stage2Results s) (stage3Result s)
    (metadata s) (activeTab s) x (uploadingPdf s)
    (pdfData s) (pdfFilename s) (fileInput s) (journal s).

Definition setUploadingPdf (x : bool) (s : state) : state :=
  State
    (conversations s) (currentConversation s) (messages s) (input s)
    (loading s) (stage1Results s) (stage2Results s) (stage3Result s)
    (metadata s) (activeTab s) (currentStage s) x
    (pdfData s) (pdfFilename s) (fileInput s) (journal s).

Definition setPdfData (x : value) (s : state) : state :=
  State
    (conversations s) (currentConversation s) (messages s) (input s)
    (loading s) (stage1Results s) (stage2Results s) (stage3Result s)
    (metadata s) (activeTab s) (currentStage s) (uploadingPdf s)
    x (pdfFilename s) (fileInput s) (journal s).

Definition setPdfFilename (x : value) (s : state) : state :=
  State
    (conversations s) (currentConversation s) (messages s) (input s)
    (loading s) (stage1Results s) (stage2Results s) (stage3Result s)
    (metadata s) (activeTab s) (currentStage s) (uploadingPdf s)
    (pdfData s) x (fileInput s) (journal s).

Definition setFileInput (x : option string) (s : state) : state :=
  State
    (conversations s) (currentConversation s) (messages s) (input s)
    (loading s) (stage1Results s) (stage2Results s) (stage3Result s)
    (metadata s) (activeTab s) (currentStage s) (uploadingPdf s)
    (pdfData s) (pdfFilename s) x (journal s).

Definition setJournal (x : list effect) (s : state) : state :=
  State
    (conversations s) (currentConversation s) (messages s) (input s)
    (loading s) (stage1Results s) (stage2Results s) (stage3Result s)
    (metadata s) (activeTab s) (currentStage s) (uploadingPdf s)
    (pdfData s) (pdfFilename s) (fileInput s) x.

(** [console.error(label, e)] and [alert(text)] *)
Definition log (e : effect) (s : state) : state := setJournal (journal s ++ [e])%list s.

(** [resetCouncilState()] *)
Definition resetCouncilState (s : state) : state :=
  setActiveTab 0
    (setCurrentStage None
       (setMetadata VNull
          (setStage3Result VNull
             (setStage2Results VNull
                (setStage1Results VNull s))))).

(** [clearPdfState()] *)
Definition clearPdfState (s : state) : state :=
  let s' := setPdfFilename VNull (setPdfData VNull s) in
  match fileInput s' with
  | Some _ => setFileInput (Some "") s'
  | None => s'
  end.

(** [loadConversations()] once [api.listConversations()] has settled
    with [listing]. *)
Definition loadConversations (listing : completion value) (s : state) : state :=
  match listing with
  | Normal convs => setConversations convs s
  | Throw error => log (ConsoleError "Failed to load conversations:" error) s
  end.

(** [createNewConversation()] from the point where
    [api.createConversation()] has settled with [created]. [r] is the
    state of the render whose closure runs, [s] the state it updates. *)
Definition createNewConversation_then (created : completion value) (r s : state) : state :=
  match bind created (fun conv =>
        bind (iterate (conversations r)) (fun rest => Normal (conv, rest))) with
  | Normal (conv, rest) =>
      clearPdfState
        (resetCouncilState
           (setMessages (VArray [])
              (setCurrentConversation conv
                 (setConversations (VArray (conv :: rest)) s))))
  | Throw error => log (ConsoleError "Failed to create conversation:" error) s
  end.

(** [selectConversation(conv)] from the point where
    [api.getConversation(conv.id)] has settled with [fetched]. *)
Definition selectConversation_then (fetched : completion value) (s : state) : state :=
  match fetched with
  | Normal fullConv =>
      let s1 := setCurrentConversation fullConv s in
      match get fullConv "messages" with
      | Normal msgs => clearPdfState (resetCouncilState (setMessages msgs s1))
      | Throw error => log (ConsoleError "Failed to load conversation:" error) s1
      end
  | Throw error => log (ConsoleError "Failed to load conversation:" error) s
  end.

(** [handlePdfUpload(event)] for the file chosen ([None] when
    [event.target.files?.[0]] is undefined; a file is known by its name);
    [upload] is the call [api.uploadPdf(file)]. *)
Definition handlePdfUpload_with (upload : value -> completion value)
  (file : option string) (s : state) : state :=
  match file with
  | None => s
  | Some name =>
      if negb (Str.endsWith (Str.toLowerCase name) ".pdf")
      then log (Alert "Please select a PDF file") s
      else
        let s1 := setUploadingPdf true s in
        let s2 :=
          match bind (upload (VString name)) (fun result =>
                bind (get result "base64") (fun base64 =>
                bind (get result "filename") (fun filename =>
                Normal (base64, filename)))) with
          | Normal (base64, filename) => setPdfFilename filename (setPdfData base64 s1)
          | Throw error => log (Alert ("Failed to upload PDF: " ++ err_message error)) s1
          end in
        setUploadingPdf false s2
  end.


(** The guard of [sendMessage]: [true] when it returns at once. *)
Definition sendMessage_refused (r : state) : bool :=
  Str.is_empty (Str.trim (input r))
  || negb (truthy (currentConversation r))
  || loading r.

(** The page emoji U+1F4C4 in UTF-8. *)
Definition page_emoji : string := Str.utf8 128196.

(** [{ ...userMessage, content: displayContent }] *)
Definition displayed_message (r : state) : value :=
  let displayContent :=
    if truthy (pdfFilename r)
    then Str.trim (input r) ++ String Str.newline (String Str.newline "")
         ++ page_emoji ++ " Attached: " ++ ToString (pdfFilename r)
    else Str.trim (input r) in
  VObject [("role", VString "user"); ("content", VString displayContent)].

(** [sendMessage] from the guard to the [await]: the user's message is
    shown, the input, the stage state and the attachment are cleared,
    [loading] is set and the stage marker is 1. The spread of [messages]
    stands before the [try]: if it throws, [sendMessage] rejects. *)
Definition sendMessage_begin (r s : state) : completion state :=
  bind (iterate (messages r)) (fun shown =>
  Normal
    (setCurrentStage (Some 1)
       (clearPdfState
          (resetCouncilState
             (setLoading true
                (setInput ""
                   (setMessages (VArray (shown ++ [displayed_message r])) s))))))).

(** The four callbacks handed to [api.sendMessageStream]. *)
Definition onStage1 (data : value) (s : state) : state :=
  setCurrentStage (Some 2) (setStage1Results data s).

Definition onStage2 (data meta : value) (s : state) : state :=
  setCurrentStage (Some 3) (setMetadata meta (setStage2Results data s)).

Definition onStage3 (data : value) (s : state) : state :=
  setCurrentStage None (setStage3Result data s).

(** The title callback: its closure holds the conversation of the render
    that sent the message. [loadConversations()] is then called and not
    awaited; [listing] is what its request settles with, and its update
    is applied here, together with the callback. In the browser it lands
    later, when other updates may have been made in between; it writes
    [conversations], or one line on the console, and nothing else. *)
Definition onTitleUpdate (r : state) (listing : completion value) (title : value)
  (s : state) : state :=
  loadConversations listing
    (setCurrentConversation
       (VObject (set_field "title" title (own_entries (currentConversation r)))) s).

(** What one effect of the stream does to the component. *)
Definition apply_effect (r : state) (listing : completion value) (e : effect)
  (s : state) : state :=
  match e with
  | OnStage1 data => onStage1 data s
  | OnStage2 data meta => onStage2 data meta s
  | OnStage3 data => onStage3 data s
  | OnTitleUpdate title => onTitleUpdate r listing title s
  | ConsoleError _ _ | Alert _ => log e s
  end.

Definition apply_effects (r : state) (listing : completion value) (t : list effect)
  (s : state) : state :=
  List.fold_left (fun acc e => apply_effect r listing e acc) t s.

(** [sendMessage] after the [await]: the [catch] and the [finally]. *)
Definition sendMessage_end (result : completion unit) (s : state) : state :=
  setLoading false
    match result with
    | Normal _ => s
    | Throw error =>
        log (Alert ("Error: " ++ err_message error))
          (log (ConsoleError "Failed to send message:" error) s)
    end.

(** [conversations.filter(c => c.id !== convId)] over the elements of the
    array, for a [convId] that is not an object: reading the [id] of an
    element that is [null] throws. *)
Fixpoint without_id (convId : value) (items : list value) : completion (list value) :=
  match items with
  | []%list => Normal []%list
  | (c :: rest)%list =>
      bind (get c "id") (fun id =>
      bind (without_id convId rest) (fun kept =>
      Normal (if strict_equal id convId then kept else (c :: kept)%list)))
  end.

(** [conversations.filter(...)]: only an array has the method. *)
Definition filter_conversations (convId : value) (conversations : value)
  : completion (list value) :=
  match conversations with
  | VArray items => without_id convId items
  | VUndefined | VNull => Throw (cannot_read conversations "filter")
  | _ => Throw (Err "TypeError" "conversations.filter is not a function")
  end.

(** [deleteConversation(e, convId)] once the dialog has been answered
    ([confirmed]) and, when it was accepted, [api.deleteConversation(convId)]
    has settled with [deleted]. The list and the current conversation are
    those of the render [r] whose closure runs. The result is [None] where
    the outcome hangs on the identity of objects: when the dialog was
    accepted and [convId] is an object. *)
Definition deleteConversation_then (confirmed : bool) (deleted : completion value)
  (convId : value) (r s : state) : option state :=
  if negb confirmed then Some s
  else if is_object convId then None
  else
    Some
      match bind deleted (fun _ => filter_conversations convId (conversations r)) with
      | Normal kept =>
          let s1 := setConversations (VArray kept) s in
          if strict_equal (get_opt (currentConversation r) "id") convId
          then resetCouncilState (setMessages (VArray []) (setCurrentConversation VNull s1))
          else s1
      | Throw error =>
          log (Alert "Failed to delete conversation")
            (log (ConsoleError "Failed to delete conversation:" error) s)
      end.

(** [getModelDisplayName(modelId)]: the part after the last slash. Only a
    string has [split]; a split on a separator that is not empty gives at
    least one part. *)
Definition getModelDisplayName (modelId : value) : completion string :=
  if negb (truthy modelId) then Normal "Unknown"
  else
    match modelId with
    | VString id => Normal (List.last (Str.split "/"%char id) "")
    | _ => Throw (Err "TypeError" "modelId.split is not a function")
    end.

(** [safeActiveTab] of [renderLoadedAssistantMessage(msg)]: the tab index
    kept within the answers of the message. *)
Definition safeActiveTab (activeTab : nat) (msg : value) : completion nat :=
  bind (get msg "stage1") (fun stage1 =>
  Normal
    match stage1 with
    | VArray ((_ :: _)%list as answers) => Nat.min activeTab (List.length answers - 1)
    | _ => O
    end).

(** The row of tabs, [answers.map((result, idx) => <button ...>)] from
    the index [idx] on: for each answer the label
    [getModelDisplayName(result.model)] and whether the tab is the active
    one ([tab === idx]). Reading [result.model] throws for an answer that
    is [null] or [undefined], and so does the label of a model that is
    neither falsy nor a string. (The [key], [result.model || idx], is then
    a string or the index.) *)
Fixpoint tabs_from (idx tab : nat) (answers : list value)
  : completion (list (string * bool)) :=
  match answers with
  | []%list => Normal []%list
  | (result :: rest)%list =>
      bind (get result "model") (fun model =>
      bind (getModelDisplayName model) (fun label =>
      bind (tabs_from (S idx) tab rest) (fun row =>
      Normal ((label, Nat.eqb tab idx) :: row)%list)))
  end.

(** The stage-1 section of [renderLoadedAssistantMessage(msg)], the first
    that is evaluated: the row of tabs and the text of the open tab,
    [msg.stage1[safeActiveTab]?.response || 'No response']; [None] when
    [msg.stage1] is not an array with an element. *)
Definition loaded_stage1 (activeTab : nat) (msg : value)
  : completion (option (list (string * bool) * value)) :=
  bind (safeActiveTab activeTab msg) (fun tab =>
  bind (get msg "stage1") (fun stage1 =>
  match stage1 with
  | VArray ((_ :: _)%list as answers) =>
      bind (tabs_from 0 tab answers) (fun row =>
      Normal (Some (row, or_else (get_opt (item tab answers) "response")
                           (VString "No response"))))
  | _ => Normal None
  end)).

(** [renderStage1()], for the turn under way: the row of tabs and
    [stage1Results[activeTab]?.response || 'No response']; [None] where
    the function returns [null]. *)
Definition renderStage1 (s : state) : completion (option (list (string * bool) * value)) :=
  match stage1Results s with
  | VArray ((_ :: _)%list as answers) =>
      bind (tabs_from 0 (activeTab s) answers) (fun row =>
      Normal (Some (row, or_else (get_opt (item (activeTab s) answers) "response")
                           (VString "No response"))))
  | _ => Normal None
  end.

(** [renderLoadingStage()]: the text under the spinner,
    [stageMessages[currentStage]], or [None] where the function returns
    [null]. *)
Definition renderLoadingStage (s : state) : option value :=
  match currentStage s with
  | None | Some O => None
  | Some 1 =>
      Some (VString
              (if truthy (pdfFilename s)
               then "Analyzing PDF " ++ String JSON.quote (ToString (pdfFilename s))
                    ++ String JSON.quote " and gathering opinions..."
               else "Gathering individual opinions from council members..."))
  | Some 2 => Some (VString "Council members are reviewing each other's responses...")
  | Some 3 => Some (VString "Chairman is synthesizing the final response...")
  | Some _ => Some VUndefined
  end.

(** Whether the panel of the turn under way is rendered:
    [stage1Results || stage2Results || stage3Result || currentStage]. *)
Definition council_shown (s : state) : bool :=
  truthy (stage1Results s) || truthy (stage2Results s) || truthy (stage3Result s)
  || match currentStage s with
     | None | Some O => false
     | Some _ => true
     end.

Section Handlers.

Variable API_BASE : string.
Variable authToken : value.
Variable fetch : request -> outcome.

(** [createNewConversation()] *)
Definition createNewConversation (r s : state) : state :=
  createNewConversation_then (Api.createConversation API_BASE authToken fetch) r s.

(** [selectConversation(conv)] *)
Definition selectConversation (conv : value) (s : state) : state :=
  selectConversation_then
    (bind (get conv "id") (Api.getConversation API_BASE authToken fetch)) s.

(** [handlePdfUpload(event)] *)
Definition handlePdfUpload (file : option string) (s : state) : state :=
  handlePdfUpload_with (Api.uploadPdf API_BASE authToken fetch) file s.

(** [deleteConversation(e, convId)] *)
Definition deleteConversation (confirmed : bool) (convId : value) (r s : state)
  : option state :=
  deleteConversation_then confirmed
    (Api.deleteConversation API_BASE authToken fetch convId) convId r s.

(** The call [api.sendMessageStream(currentConversation.id,
    messageContent, ..., currentPdfData, currentPdfFilename)] of the
    render [r]. *)
Definition stream_of (r : state) : list effect * completion unit :=
  Api.sendMessageStream API_BASE authToken fetch
    (prop (currentConversation r) "id") (VString (Str.trim (input r)))
    (pdfData r) (pdfFilename r).

(** [sendMessage()] run to its end with nothing else happening in
    between: the first step, the events of the stream in their order,
    then the [catch] and the [finally]. Other handlers can run while the
    stream is open; what holds then is stated on the steps,
    [sendMessage_begin], [apply_effect] and [sendMessage_end]. *)
Definition sendMessage (r s : state) : completion state :=
  if sendMessage_refused r then Normal s
  else
    bind (sendMessage_begin r s) (fun s1 =>
    let (effects, result) := stream_of r in
    let listing := Api.listConversations API_BASE authToken fetch in
    Normal (sendMessage_end result (apply_effects r listing effects s1))).

End Handlers.

(** [getAssistantResponseText(content)] *)
Definition getAssistantResponseText (content : value) : completion value :=
  if negb (truthy content) then Normal (VString "No response")
  else
    match content with
    | VString _ => Normal content
    | _ =>
        bind (get content "stage3") (fun stage3 =>
        if truthy (get_opt stage3 "response")
        then bind (get content "stage3") (fun stage3' => get stage3' "response")
        else
          bind (get content "response") (fun response =>
          if truthy response then get content "response"
          else
            match content with
            | VArray items =>
                let lastItem := last_item items in
                if truthy (get_opt lastItem "response")
                then get lastItem "response"
                else Normal (VString "Response format not recognized")
            | _ => Normal (VString "Response format not recognized")
            end))
    end.

End App.

(** ** The session (auth.jsx) *)

Module Auth.
Import JS Http Trace.

(** What the provider and the modules around it hold: the [token] item of
    [localStorage] ([None] when there is none), the API client's
    [authToken], and the [user] and [loading] states. *)
Record session := Session {
  stored_token : option string;
  api_token : value;
  user : value;
  loading : bool
}.

(** The first render, over whatever an earlier visit left in storage. *)
Definition mount (stored : option string) : session := Session stored VNull VNull true.

(** [localStorage.setItem('token', v)]: the item is [String(v)]. *)
Definition setItem (v : value) (s : session) : session :=
  Session (Some (ToString v)) (api_token s) (user s) (loading s).

(** [localStorage.removeItem('token')] *)
Definition removeItem (s : session) : session :=
  Session None (api_token s) (user s) (loading s).

(** [api.setToken(token)] *)
Definition setToken (token : value) (s : session) : session :=
  Session (stored_token s) token (user s) (loading s).

Definition setUser (u : value) (s : session) : session :=
  Session (stored_token s) (api_token s) u (loading s).

Definition setLoading (b : bool) (s : session) : session :=
  Session (stored_token s) (api_token s) (user s) b.

Section Provider.

Variable API_BASE : string.
Variable fetch : request -> outcome.

(** The effect run on mount, to the end of its promise chain. *)
Definition restore (s : session) : session :=
  match stored_token s with
  | Some token =>
      if negb (Str.is_empty token) then
        let s1 := setToken (VString token) s in
        match Api.getCurrentUser API_BASE (api_token s1) fetch with
        | Normal userData => setLoading false (setUser userData s1)
        | Throw _ => setLoading false (setToken VNull (removeItem s1))
        end
      else setLoading false s
  | None => setLoading false s
  end.

(** What [login] and [register] do with the answer of the API client. *)
Definition open_session (answer : completion value) (s : session)
  : session * completion value :=
  match bind answer (fun response =>
        bind (get response "access_token") (fun access_token =>
        Normal (response, access_token))) with
  | Normal (response, access_token) =>
      (setUser (prop response "user") (setToken access_token (setItem access_token s)),
       Normal response)
  | Throw error => (s, Throw error)
  end.

(** [login(username, password)] *)
Definition login (username password : value) (s : session)
  : session * completion value :=
  open_session (Api.login API_BASE fetch username password) s.

(** [register(username, email, password)] *)
Definition register (username email password : value) (s : session)
  : session * completion value :=
  open_session (Api.register API_BASE fetch username email password) s.

End Provider.

(** [logout()] *)
Definition logout (s : session) : session :=
  setUser VNull (setToken VNull (removeItem s)).

End Auth.

(** ** The [App] component before authentication was added

    The earlier App.jsx has the handlers of the later one, but for
    [deleteConversation]; its [getModelDisplayName] has no guard. *)

Module App0.
Import JS.

(** [getModelDisplayName(modelId)] *)
Definition getModelDisplayName (modelId : value) : completion string :=
  match modelId with
  | VUndefined | VNull => Throw (cannot_read modelId "split")
  | VString id => Normal (List.last (Str.split "/"%char id) "")
  | _ => Throw (Err "TypeError" "modelId.split is not a function")
  end.

End App0.

(** ** The login form (Login.jsx) *)

Module Login.
Import JS Http.

(** The state of the form: one field per [useState]. *)
Record form := Form {
  isLogin : bool;
  username : string;
  email : string;
  password : string;
  error : string;
  loading : bool
}.

(** The state of the first render. *)
Definition initial : form := Form true "" "" "" "" false.

Definition setIsLogin (x : bool) (f : form) : form :=
  Form x (username f) (email f) (password f) (error f) (loading f).

Definition setUsername (x : string) (f : form) : form :=
  Form (isLogin f) x (email f) (password f) (error f) (loading f).

Definition setEmail (x : string) (f : form) : form :=
  Form (isLogin f) (username f) x (password f) (error f) (loading f).

Definition setPassword (x : string) (f : form) : form :=
  Form (isLogin f) (username f) (email f) x (error f) (loading f).

Definition setError (x : string) (f : form) : form :=
  Form (isLogin f) (username f) (email f) (password f) x (loading f).

Definition setLoading (x : bool) (f : form) : form :=
  Form (isLogin f) (username f) (email f) (password f) (error f) x.

(** The two tab buttons. *)
Definition showLogin (f : form) : form := setError "" (setIsLogin true f).
Definition showRegister (f : form) : form := setError "" (setIsLogin false f).

(** The [catch] and the [finally] of [handleSubmit]:
    [setError(err.message || 'An error occurred')], then
    [setLoading(false)]. *)
Definition settle (answer : completion value) (f : form) : form :=
  setLoading false
    match answer with
    | Normal _ => f
    | Throw err =>
        setError (if Str.is_empty (err_message err) then "An error occurred"
                  else err_message err) f
    end.

Section Submit.

Variable API_BASE : string.
Variable fetch : request -> outcome.

(** [handleSubmit(e)], run to its end: [r] is the form of the render whose
    closure runs, [f] the form it updates, [s] the session. *)
Definition handleSubmit (r f : form) (s : Auth.session) : form * Auth.session :=
  let f1 := setLoading true (setError "" f) in
  if isLogin r then
    let (s', answer) :=
      Auth.login API_BASE fetch (VString (username r)) (VString (password r)) s in
    (settle answer f1, s')
  else if Str.is_empty (email r) then
    (setLoading false (setLoading false (setError "Email is required" f1)), s)
  else
    let (s', answer) :=
      Auth.register API_BASE fetch (VString (username r)) (VString (email r))
        (VString (password r)) s in
    (settle answer f1, s').

End Submit.

End Login.

(** * Properties *)

(** ** Sample streams

    JSON texts are written with an apostrophe where the text has a double
    quote; [Sample.json] puts the double quotes in. *)

Module Sample.
Import JS Http Trace.

Definition requote (c : ascii) : ascii :=
  if Ascii.eqb c "'"%char then JSON.quote else c.

Fixpoint json (s : string) : string :=
  match s with
  | EmptyString => EmptyString
  | String c rest => String (requote c) (json rest)
  end.

Definition nl : string := String Str.newline "".

(** One frame of the stream: the marker, the payload, a newline. *)
Definition frame (payload : string) : string := "data: " ++ payload ++ nl.

(** The bytes of a sequence of frames. *)
Definition encode (payloads : list string) : string := Http.concat (List.map frame payloads).

(** A network that answers every request with status 200 and the given
    body. *)
Definition serving (reads : list string) (failure : option error) : request -> outcome :=
  fun _ => Responded (Response 200 "OK" reads failure).

(** A network that answers every request with the given status and a body
    delivered in one read. *)
Definition answering (code : nat) (reason body : string) : request -> outcome :=
  fun _ => Responded (Response code reason [body] None).

Definition stage1_payload : string := json "{'type':'stage1_complete','data':[]}".
Definition stage3_payload : string :=
  json "{'type':'stage3_complete','data':{'model':'chair','response':'final'}}".
Definition rate_limited_payload : string := json "{'type':'error','message':'rate limited'}".
Definition invalid_json_payload : string :=
  json "{'type':'error','message':'Invalid JSON body'}".
Definition complete_payload : string := json "{'type':'complete'}".

End Sample.

(** ** The vocabulary of the properties *)

Module Notions.
Import JS Http Trace Sample.

(** What an observer of a run sees: the callbacks and the outcome. *)
Definition observed {A : Type} (r : list effect * A) : list effect * A :=
  (callbacks (fst r), snd r).

(** The lines of a read: what [chunk.split] gives for it. *)
Definition lines (value : string) : list string :=
  Str.split Str.newline (TextDecoder.decode value).

(** The rest of a run from a point inside a read: the lines that are
    left of the read, then the reads that follow. *)
Definition run_from (process_line : string -> list effect * control)
  (after later : list string) (failure : option error) : list effect * completion unit :=
  match Reader.process_lines process_line after with
  | (effects, Next) =>
      let (effects', r) := Reader.read_loop process_line later failure in
      ((effects ++ effects')%list, r)
  | (effects, Return) => (effects, Normal tt)
  | (effects, Raise e) => (effects, Throw e)
  end.

(** A line that ends the stream: the sentinel, or a frame whose [type]
    is [complete]. *)
Definition terminator (line : string) : Prop :=
  line = "data: [DONE]"
  \/ exists data parsed,
       line = ("data: " ++ data)%string
       /\ JSON.parse data = Normal parsed
       /\ prop parsed "type" = VString "complete".

(** The stream of one stage-1 frame, and the same bytes cut after the
    twentieth. *)
Definition one_frame : string := encode [stage1_payload].
Definition cut_frame : list string :=
  [String.substring 0 20 one_frame; Str.slice 20 one_frame].

(** The comparisons of the [switch], evaluated. *)
Ltac eval_types :=
  repeat match goal with
  | |- context [Api.type_is (VString ?t) ?n] =>
      let b := eval vm_compute in (Api.type_is (VString t) n) in
      change (Api.type_is (VString t) n) with b
  end.

(** The payload of the last stage-1 event of a trace, or [default] when
    it has none; likewise for the other stage events, and for the stage
    marker each of them leaves. *)
Fixpoint last_stage1 (t : list effect) (default : value) : value :=
  match t with
  | []%list => default
  | (OnStage1 data :: rest)%list => last_stage1 rest data
  | (_ :: rest)%list => last_stage1 rest default
  end.

Fixpoint last_stage2 (t : list effect) (default : value * value) : value * value :=
  match t with
  | []%list => default
  | (OnStage2 data meta :: rest)%list => last_stage2 rest (data, meta)
  | (_ :: rest)%list => last_stage2 rest default
  end.

Fixpoint last_stage3 (t : list effect) (default : value) : value :=
  match t with
  | []%list => default
  | (OnStage3 data :: rest)%list => last_stage3 rest data
  | (_ :: rest)%list => last_stage3 rest default
  end.

Fixpoint last_marker (t : list effect) (default : option nat) : option nat :=
  match t with
  | []%list => default
  | (OnStage1 _ :: rest)%list => last_marker rest (Some 2)
  | (OnStage2 _ _ :: rest)%list => last_marker rest (Some 3)
  | (OnStage3 _ :: rest)%list => last_marker rest None
  | (_ :: rest)%list => last_marker rest default
  end.

(** Two conversations as the backend returns them, and the component
    with the first one open and a question typed. *)
Definition conversation_a : value :=
  VObject [("id", VString "a"); ("title", VString "A"); ("messages", VArray [])].

Definition conversation_b : value :=
  VObject [("id", VString "b"); ("title", VString "B"); ("messages", VArray [])].

Definition ready : App.state :=
  App.setInput "hi" (App.setCurrentConversation conversation_a App.initial).

(** The component once the turn of [ready] has been sent and its stream
    is open. *)
Definition turn_begun : App.state :=
  match App.sendMessage_begin ready ready with
  | Normal s => s
  | Throw _ => ready
  end.

(** The stage fields of the component. *)
Definition stage_state (s : App.state) : value * value * value * value * option nat :=
  (App.stage1Results s, App.stage2Results s, App.metadata s, App.stage3Result s,
   App.currentStage s).

(** The staged attachment: payload and file name. *)
Definition attachment (s : App.state) : value * value := (App.pdfData s, App.pdfFilename s).

Definition first_answers : string := json "{'type':'stage1_complete','data':['first']}".
Definition second_answers : string := json "{'type':'stage1_complete','data':['second']}".
Definition reviews : string :=
  json "{'type':'stage2_complete','data':['review'],'metadata':{'n':1}}".
Definition synthesis : string := json "{'type':'stage3_complete','data':{'response':'final'}}".

(** A backend that turns every call down with status 401 and a reason,
    as FastAPI words it. *)
Definition turning_down (detail : string) : request -> outcome :=
  answering 401 "Unauthorized" (json ("{'detail':'" ++ detail ++ "'}")).

(** A backend that fails to answer: [fetch] rejects. *)
Definition unreachable : request -> outcome :=
  fun _ => Rejected (Err "TypeError" "Failed to fetch").

Definition localhost : string := "http://localhost:8001".

(** A backend that routes by path: a stream of three stages for a
    message, the staged notes for an upload, conversation B for a new or
    an opened conversation, and an empty list of conversations. *)
Definition backend (req : request) : outcome :=
  if Str.endsWith (url req) "/message/stream" then
    serving [encode [first_answers; reviews; synthesis; complete_payload]] None req
  else if Str.endsWith (url req) "/api/upload-pdf" then
    answering 200 "OK" (json "{'base64':'Tm90ZXM=','filename':'notes.pdf'}") req
  else if Str.endsWith (url req) "/api/conversations" && String.eqb (method req) "GET" then
    answering 200 "OK" "[]" req
  else
    answering 200 "OK" (json "{'id':'b','title':'B','messages':[]}") req.

(** The component with a file staged. *)
Definition staged : App.state :=
  App.setPdfFilename (VString "paper.pdf") (App.setPdfData (VString "JVBERi0=") ready).


(** The component after the whole turn of [staged], over a stream that
    ends well. *)
Definition turn_done : App.state :=
  match App.sendMessage localhost VNull backend staged staged with
  | Normal s => s
  | Throw _ => staged
  end.

(** A backend whose stream carries stage 1, stage 2 and stage 1 again,
    and the component after the whole turn of [ready] over it. *)
Definition repeated_backend : request -> outcome :=
  serving [encode [first_answers; reviews; second_answers]] None.

Definition repeated_turn_done : App.state :=
  match App.sendMessage localhost VNull repeated_backend ready ready with
  | Normal s => s
  | Throw _ => ready
  end.

(** The fields of a state are read through the setters by computation. *)
Ltac fields s := solve [destruct s; cbn; reflexivity].

Definition retitled : string := json "{'type':'title_complete','data':{'title':'Renamed'}}".

End Notions.

(** ** More vocabulary: the cases of the further properties *)

Module Cases.
Import JS Http Trace Sample Notions.

(** The event types that the current client has a [case] for, and those
    of the earlier client. *)
Definition known_types : list string :=
  ["stage1_complete"; "stage2_complete"; "stage3_complete"; "title_complete";
   "complete"; "error"].

Definition earlier_types : list string :=
  ["stage1_complete"; "stage2_complete"; "stage3_complete"; "title_update"].

(** Whether [t] is one of the [names]. *)
Definition one_of (names : list string) (t : value) : bool :=
  List.existsb (Api.type_is t) names.

(** An event the backend sends when a stage begins. *)
Definition stage1_start : string := json "{'type':'stage1_start'}".

(** A network that answers like [backend] for the stream of conversation
    A and for the list of conversations, and fails for everything else. *)
Definition narrow_backend (req : request) : outcome :=
  if String.eqb (url req) (localhost ++ "/api/conversations/a/message/stream")
     || String.eqb (url req) (localhost ++ "/api/conversations")
  then backend req
  else unreachable req.

(** An error frame without a message. *)
Definition bare_error : string := json "{'type':'error'}".

(** The event types that one client has a [case] for and the other has
    not. *)
Definition parting_types : list string :=
  ["title_complete"; "complete"; "error"; "title_update"].

(** A line of the kinds that both clients know: no frame, the sentinel, a
    payload that is not JSON, or an event that is not of a parting type. *)
Definition shared_line (line : string) : bool :=
  if Str.startsWith line "data: " then
    let data := Str.slice 6 line in
    String.eqb data "[DONE]"
    || match JSON.parse data with
       | Throw _ => true
       | Normal parsed =>
           match get parsed "type" with
           | Normal t => negb (one_of parting_types t)
           | Throw _ => false
           end
       end
  else true.

(** A body made of such lines. *)
Definition shared_body (reads : list string) : bool :=
  List.forallb (fun value => List.forallb shared_line (lines value)) reads.

(** An error that the [catch] of the frame loop throws again. *)
Definition rethrown (e : error) : Prop :=
  err_message e <> "" /\ Str.includes (err_message e) "JSON" = false.

(** Text made of the white space of ASCII only. *)
Fixpoint only_spaces (s : string) : bool :=
  match s with
  | EmptyString => true
  | String c rest => Str.ascii_space c && only_spaces rest
  end.

(** Whether the character [c] occurs in [s]. *)
Fixpoint mentions (c : ascii) (s : string) : bool :=
  match s with
  | EmptyString => false
  | String d rest => Ascii.eqb d c || mentions c rest
  end.

(** A value that has properties to read: neither [null] nor [undefined]. *)
Definition defined (v : value) : bool :=
  match v with
  | VUndefined | VNull => false
  | _ => true
  end.

(** Whether a conversation stays in the list when [convId] is deleted. *)
Definition kept (convId : value) (c : value) : bool :=
  negb (strict_equal (prop c "id") convId).

(** The component with conversations A and B listed, A open, and a
    question typed. *)
Definition listed : App.state :=
  App.setConversations (VArray [conversation_a; conversation_b]) ready.

(** A loaded message of the council with two answers. *)
Definition first_answer : value :=
  VObject [("model", VString "openai/gpt"); ("response", VString "one")].
Definition second_answer : value :=
  VObject [("model", VString "x/llama"); ("response", VString "two")].
Definition two_answers : value :=
  VObject [("role", VString "assistant"); ("stage1", VArray [first_answer; second_answer])].

(** An answer whose tab can be labelled: it has properties to read and
    its [model] is a string or falsy. *)
Definition labelled (result : value) : bool :=
  defined result
  && match prop result "model" with
     | VString _ => true
     | model => negb (truthy model)
     end.

(** The request of [uploadPdf] for a file. *)
Definition upload_request (API_BASE : string) (authToken : value) (name : string) : request :=
  Request (API_BASE ++ "/api/upload-pdf") "POST"
    (if truthy authToken then [("Authorization", "Bearer " ++ ToString authToken)]
     else []%list)
    (Some (VString name)).

(** The request of [sendMessageStream] for a message. *)
Definition stream_request (API_BASE : string)
  (authToken conversationId content pdfData pdfFilename : value) : request :=
  Request
    (API_BASE ++ "/api/conversations/" ++ ToString conversationId ++ "/message/stream")
    "POST"
    (Api.getAuthHeaders authToken)
    (Some (VObject [("content", content); ("pdf_data", or_null pdfData);
                    ("pdf_filename", or_null pdfFilename)])).

(** A network that answers no request with success. *)
Definition refusing (fetch : request -> outcome) : Prop :=
  forall req response, fetch req = Responded response -> ok response = false.

(** The form filled in for a login, and for a registration without an
    e-mail address. *)
Definition login_form : Login.form :=
  Login.setPassword "secret" (Login.setUsername "ada" Login.initial).
Definition register_form : Login.form := Login.showRegister login_form.

(** A backend that accepts every login and knows the user of every
    token. *)
Definition welcoming : request -> outcome :=
  answering 200 "OK" (json "{'access_token':'t0k','user':{'username':'ada'}}").

(** The session after a login at [welcoming]. *)
Definition signed_in : Auth.session :=
  fst (Auth.login localhost welcoming (VString "ada") (VString "secret") (Auth.mount None)).


(** The texts under the spinner. *)
Definition gathering : value :=
  VString "Gathering individual opinions from council members...".
Definition reviewing : value :=
  VString "Council members are reviewing each other's responses...".
Definition synthesizing : value :=
  VString "Chairman is synthesizing the final response...".

End Cases.

(** ** Strings *)

Module StrFacts.

Lemma append_assoc (a b c : string) : ((a ++ b) ++ c = a ++ (b ++ c))%string.
Proof. induction a as [|x a IH]; simpl; [reflexivity | now rewrite IH]. Qed.

Lemma append_nil_r (a : string) : (a ++ "")%string = a.
Proof. induction a as [|x a IH]; simpl; [reflexivity | now rewrite IH]. Qed.

Lemma split_not_nil (sep : ascii) (s : string) : Str.split sep s <> []%list.
Proof.
  destruct s as [|c rest]; simpl; [discriminate|].
  destruct (Ascii.eqb c sep); [discriminate|].
  destruct (Str.split sep rest); discriminate.
Qed.

(** Splitting a text that has a separator at a known place: the lines
    before it, then the lines after it. *)
Lemma split_at_separator (sep : ascii) (a b : string) :
  Str.split sep (a ++ String sep b) = (Str.split sep a ++ Str.split sep b)%list.
Proof.
  induction a as [|c a IH]; simpl.
  - now rewrite Ascii.eqb_refl.
  - destruct (Ascii.eqb c sep); [now rewrite IH|].
    rewrite IH. pose proof (split_not_nil sep a) as Hne.
    destruct (Str.split sep a); [contradiction | reflexivity].
Qed.

Lemma split_ends_with_separator (sep : ascii) (a : string) :
  Str.split sep (a ++ String sep "") = (Str.split sep a ++ [""%string])%list.
Proof. apply split_at_separator. Qed.

(** [trimStart] and [trimEnd] go on to the end: the rounds they are given
    leave no white space at the start, or at the end, of what they return. *)
Lemma slice_length (n : nat) (s : string) :
  String.length (Str.slice n s) <= String.length s.
Proof.
  revert s. induction n as [|n IH]; intros [|c s]; cbn [Str.slice String.length];
    try lia.
  specialize (IH s). lia.
Qed.

Lemma trimStart_fuel_trims (fuel : nat) (s : string) :
  String.length s <= fuel ->
  Str.white_space_width (Str.trimStart_fuel fuel s) = O.
Proof.
  revert s. induction fuel as [|fuel IH]; intros s Hfuel.
  - destruct s; [reflexivity | cbn [String.length] in Hfuel; lia].
  - cbn [Str.trimStart_fuel].
    destruct (Str.white_space_width s) as [|w] eqn:Hwidth; [exact Hwidth|].
    destruct s as [|c s]; [discriminate|].
    apply IH. cbn [Str.slice]. pose proof (slice_length w s).
    cbn [String.length] in Hfuel. lia.
Qed.

Lemma trimStart_trims (s : string) : Str.white_space_width (Str.trimStart s) = O.
Proof. apply trimStart_fuel_trims. lia. Qed.

Lemma trimEnd_fuel_trims (fuel : nat) (r : string) :
  String.length r <= fuel ->
  Str.white_space_width_rev (Str.trimEnd_fuel fuel r) = O.
Proof.
  revert r. induction fuel as [|fuel IH]; intros r Hfuel.
  - destruct r; [reflexivity | cbn [String.length] in Hfuel; lia].
  - cbn [Str.trimEnd_fuel].
    destruct (Str.white_space_width_rev r) as [|w] eqn:Hwidth; [exact Hwidth|].
    destruct r as [|c r]; [discriminate|].
    apply IH. cbn [Str.slice]. pose proof (slice_length w r).
    cbn [String.length] in Hfuel. lia.
Qed.

Lemma rev_onto_length (s acc : string) :
  String.length (Str.rev_onto s acc) = String.length s + String.length acc.
Proof.
  revert acc. induction s as [|c s IH]; intros acc; cbn [Str.rev_onto String.length];
    [reflexivity|].
  rewrite IH. cbn [String.length]. lia.
Qed.

Lemma rev_rev_onto (s acc : string) :
  Str.rev_onto (Str.rev_onto s acc) EmptyString = Str.rev_onto acc s.
Proof.
  revert acc. induction s as [|c s IH]; intros acc; cbn [Str.rev_onto].
  - reflexivity.
  - rewrite IH. reflexivity.
Qed.

Lemma rev_involutive (s : string) : Str.rev (Str.rev s) = s.
Proof. unfold Str.rev. rewrite rev_rev_onto. reflexivity. Qed.

Lemma trimEnd_trims (s : string) :
  Str.white_space_width_rev (Str.rev (Str.trimEnd s)) = O.
Proof.
  unfold Str.trimEnd. rewrite rev_involutive. apply trimEnd_fuel_trims.
  unfold Str.rev. rewrite rev_onto_length. cbn [String.length]. lia.
Qed.

End StrFacts.

(** ** [JSON.parse] does not run out of fuel

    Each of the lexers consumes what it reads, so the three mutually
    recursive functions of the parser are called on shorter and shorter
    texts, and twice the length of the text bounds the depth of the
    calls. *)

Module JSONFacts.
Import JS JSON.

Lemma skip_ws_length (s : string) : String.length (skip_ws s) <= String.length s.
Proof.
  induction s as [|c s IH]; cbn [skip_ws String.length]; [lia|].
  destruct (is_ws c); cbn [String.length]; lia.
Qed.

Lemma skip_char_length (c : ascii) (s r : string) :
  skip_char c s = Some r -> String.length s = S (String.length r).
Proof.
  destruct s as [|d s]; cbn [skip_char]; [discriminate|].
  destruct (Ascii.eqb d c); [|discriminate]. intros H. injection H as <-. reflexivity.
Qed.

Lemma take_digits_length (acc : N) (count : nat) (s : string) (m : N) (k : nat) (r : string) :
  take_digits acc count s = (m, k, r) ->
  String.length r + k = String.length s + count.
Proof.
  revert acc count. induction s as [|c s IH]; intros acc count; cbn [take_digits].
  - intros H. injection H as _ <- <-. reflexivity.
  - destruct (digit_val c).
    + intros H. apply IH in H. cbn [String.length]. lia.
    + intros H. injection H as _ <- <-. reflexivity.
Qed.

Lemma some_digits_length (acc : N) (s : string) (m : N) (k : nat) (r : string) :
  some_digits acc s = Some (m, k, r) -> String.length r < String.length s.
Proof.
  unfold some_digits. destruct (take_digits acc 0 s) as [[m' k'] r'] eqn:H.
  apply take_digits_length in H.
  destruct k'; [discriminate|]. intros E. injection E as <- <- <-. lia.
Qed.

Lemma lex_string_length_within (n : nat) (s content r : string) :
  String.length s <= n ->
  lex_string s = Some (content, r) -> String.length r < String.length s.
Proof.
  revert s content r. induction n as [|n IH]; intros s content r Hle.
  - destruct s; [discriminate | cbn [String.length] in Hle; lia].
  - destruct s as [|c rest]; [discriminate|]. cbn [String.length] in Hle.
    cbn [lex_string].
    destruct (Ascii.eqb c quote).
    { intros H. injection H as _ <-. cbn [String.length]. lia. }
    destruct (Ascii.eqb c "\"%char).
    + destruct rest as [|e rest0]; [discriminate|]. cbn [String.length] in *.
      destruct (escaped e).
      { destruct (lex_string rest0) as [[c0 r0]|] eqn:H0; [|discriminate].
        intros H. injection H as _ <-. apply IH in H0; lia. }
      destruct (negb (Ascii.eqb e "u"%char)); [discriminate|].
      destruct rest0 as [|a [|b [|c' [|d rest1]]]]; try discriminate.
      cbn [String.length] in *.
      destruct (hex4 a b c' d) as [hi|]; [|discriminate].
      assert (Hlone : forall found,
                 match lex_string rest1 with
                 | Some (content0, rest2) => Some ((Str.utf8 hi ++ content0)%string, rest2)
                 | None => None
                 end = Some found ->
                 String.length (snd found) < S (S (S (S (S (S (String.length rest1))))))).
      { intros [c0 r0]. destruct (lex_string rest1) as [[c1 r1]|] eqn:H1; [|discriminate].
        intros H. injection H as _ <-. apply IH in H1; cbn [snd]; lia. }
      destruct rest1 as [|b1 [|b2 [|a' [|b' [|c'' [|d' rest2]]]]]];
        try (intros H; apply (Hlone _ H)).
      destruct (hex4 a' b' c'' d') as [lo|]; [|intros H; apply (Hlone _ H)].
      destruct (Ascii.eqb b1 "\"%char && Ascii.eqb b2 "u"%char
                && is_high_surrogate hi && is_low_surrogate lo)%bool;
        [|intros H; apply (Hlone _ H)].
      destruct (lex_string rest2) as [[c2 r2]|] eqn:H2; [|discriminate].
      intros H. injection H as _ <-. apply IH in H2; cbn [String.length] in *; lia.
    + destruct (nat_of_ascii c <? 32)%nat; [discriminate|].
      destruct (lex_string rest) as [[c0 r0]|] eqn:H0; [|discriminate].
      intros H. injection H as _ <-. apply IH in H0; cbn [String.length]; lia.
Qed.

Lemma lex_string_length (s content r : string) :
  lex_string s = Some (content, r) -> String.length r < String.length s.
Proof. apply (lex_string_length_within (String.length s)). lia. Qed.

Lemma lex_int_length (s : string) (m : N) (r : string) :
  lex_int s = Some (m, r) -> String.length r < String.length s.
Proof.
  unfold lex_int. destruct (skip_char "0"%char s) as [rest|] eqn:Hzero.
  - apply skip_char_length in Hzero. intros H. injection H as _ <-. lia.
  - destruct (some_digits 0 s) as [[[m0 k0] rest]|] eqn:Hd; [|discriminate].
    apply some_digits_length in Hd. intros H. injection H as _ <-. lia.
Qed.

Lemma lex_fraction_length (m : N) (s : string) (m' : N) (k : nat) (r : string) :
  lex_fraction m s = Some (m', k, r) -> String.length r <= String.length s.
Proof.
  unfold lex_fraction. destruct (skip_char "."%char s) as [rest|] eqn:Hpoint.
  - apply skip_char_length in Hpoint. intros H. apply some_digits_length in H. lia.
  - intros H. injection H as _ _ <-. lia.
Qed.

Lemma exponent_digits_length (negative : bool) (s : string) (e : Z) (r : string) :
  exponent_digits negative s = Some (e, r) -> String.length r < String.length s.
Proof.
  unfold exponent_digits.
  destruct (some_digits 0 s) as [[[e1 k1] r1]|] eqn:Hd; [|discriminate].
  apply some_digits_length in Hd. intros H. injection H as _ <-. exact Hd.
Qed.

Lemma exponent_signed_length (s : string) (e : Z) (r : string) :
  exponent_signed s = Some (e, r) -> String.length r < String.length s.
Proof.
  unfold exponent_signed.
  destruct (skip_char "+"%char s) as [r1|] eqn:Hplus.
  - apply skip_char_length in Hplus. intros H. apply exponent_digits_length in H. lia.
  - destruct (skip_char "-"%char s) as [r1|] eqn:Hminus.
    + apply skip_char_length in Hminus. intros H. apply exponent_digits_length in H. lia.
    + apply exponent_digits_length.
Qed.

Lemma lex_exponent_length (s : string) (e : Z) (r : string) :
  lex_exponent s = Some (e, r) -> String.length r <= String.length s.
Proof.
  unfold lex_exponent.
  destruct (skip_char "e"%char s) as [r1|] eqn:He.
  - apply skip_char_length in He. intros H. apply exponent_signed_length in H. lia.
  - destruct (skip_char "E"%char s) as [r1|] eqn:HE.
    + apply skip_char_length in HE. intros H. apply exponent_signed_length in H. lia.
    + intros H. injection H as _ <-. lia.
Qed.

Lemma lex_number_length (s : string) (n : number) (r : string) :
  lex_number s = Some (n, r) -> String.length r < String.length s.
Proof.
  unfold lex_number.
  assert (Hrest : forall neg s1,
             match lex_int s1 with
             | None => None
             | Some (m, s2) =>
                 match lex_fraction m s2 with
                 | None => None
                 | Some (m', k, s3) =>
                     match lex_exponent s3 with
                     | None => None
                     | Some (e, s4) => Some (Number neg m' (e - Z.of_nat k), s4)
                     end
                 end
             end = Some (n, r) -> String.length r < String.length s1).
  { intros neg s1.
    destruct (lex_int s1) as [[m s2]|] eqn:Hint; [|discriminate].
    destruct (lex_fraction m s2) as [[[m' k] s3]|] eqn:Hfrac; [|discriminate].
    destruct (lex_exponent s3) as [[e s4]|] eqn:Hexp; [|discriminate].
    apply lex_int_length in Hint. apply lex_fraction_length in Hfrac.
    apply lex_exponent_length in Hexp. intros H. injection H as _ <-. lia. }
  destruct (skip_char "-"%char s) as [s1|] eqn:Hminus.
  - apply skip_char_length in Hminus. intros H. apply Hrest in H. lia.
  - apply Hrest.
Qed.

Lemma prefix_slice_length (w s : string) :
  String.prefix w s = true ->
  String.length (Str.slice (String.length w) s) + String.length w = String.length s.
Proof.
  revert s. induction w as [|c w IH]; intros s.
  - intros _. cbn. lia.
  - destruct s as [|d s]; [discriminate|].
    cbn [String.prefix]. destruct (ascii_dec c d); [|discriminate].
    intros H. apply IH in H. cbn [String.length Str.slice]. lia.
Qed.

Lemma expect_word_length (w : string) (v v' : value) (s r : string) :
  w <> ""%string ->
  expect_word w v s = Some (v', r) -> String.length r < String.length s.
Proof.
  intros Hw. unfold expect_word. destruct (String.prefix w s) eqn:Hp; [|discriminate].
  apply prefix_slice_length in Hp. intros H. injection H as _ <-.
  destruct w; [congruence|]. cbn [String.length] in *. lia.
Qed.


(** One step of each of the three mutually recursive functions. *)
Lemma parse_elements_step (f : nat) (acc : list value) (s : string) :
  parse_elements (S f) acc s =
  match parse_value f s with
  | Some (v, rest) =>
      match skip_char ","%char (skip_ws rest) with
      | Some rest' => parse_elements f (v :: acc)%list rest'
      | None =>
          match skip_char "]"%char (skip_ws rest) with
          | Some rest' => Some (VArray (List.rev (v :: acc)), rest')
          | None => None
          end
      end
  | None => None
  end.
Proof. reflexivity. Qed.

Lemma parse_members_step (f : nat) (acc : list (string * value)) (s : string) :
  parse_members (S f) acc s =
  match skip_char quote (skip_ws s) with
  | None => None
  | Some rest =>
      match lex_string rest with
      | None => None
      | Some (key, rest1) =>
          match skip_char ":"%char (skip_ws rest1) with
          | None => None
          | Some rest2 =>
              match parse_value f rest2 with
              | None => None
              | Some (v, rest3) =>
                  match skip_char ","%char (skip_ws rest3) with
                  | Some rest4 => parse_members f ((key, v) :: acc)%list rest4
                  | None =>
                      match skip_char "}"%char (skip_ws rest3) with
                      | Some rest4 =>
                          Some (VObject (members (List.rev ((key, v) :: acc))), rest4)
                      | None => None
                      end
                  end
              end
          end
      end
  end.
Proof. reflexivity. Qed.

Lemma parse_value_step (f : nat) (s : string) :
  parse_value (S f) s =
  match skip_ws s with
  | EmptyString => None
  | String c rest =>
      if Ascii.eqb c "{"%char then
        match skip_char "}"%char (skip_ws rest) with
        | Some rest' => Some (VObject [], rest')
        | None => parse_members f [] rest
        end
      else if Ascii.eqb c "["%char then
        match skip_char "]"%char (skip_ws rest) with
        | Some rest' => Some (VArray [], rest')
        | None => parse_elements f [] rest
        end
      else parse_scalar c rest
  end.
Proof. reflexivity. Qed.

Lemma parse_scalar_length (c : ascii) (rest : string) (v : value) (r : string) :
  parse_scalar c rest = Some (v, r) -> String.length r <= String.length rest.
Proof.
  unfold parse_scalar.
  destruct (Ascii.eqb c quote).
  { destruct (lex_string rest) as [[content rest']|] eqn:Hs; [|discriminate].
    apply lex_string_length in Hs. intros H. injection H as _ <-. lia. }
  destruct (Ascii.eqb c "t"%char).
  { intros H. apply expect_word_length in H; [|discriminate]. cbn [String.length] in H. lia. }
  destruct (Ascii.eqb c "f"%char).
  { intros H. apply expect_word_length in H; [|discriminate]. cbn [String.length] in H. lia. }
  destruct (Ascii.eqb c "n"%char).
  { intros H. apply expect_word_length in H; [|discriminate]. cbn [String.length] in H. lia. }
  destruct (lex_number (String c rest)) as [[n rest']|] eqn:Hn; [|discriminate].
  apply lex_number_length in Hn. intros H. injection H as _ <-.
  cbn [String.length] in Hn. lia.
Qed.

(** Whatever is read, something is consumed. *)
Lemma parse_consumes (f : nat) :
  (forall s v r, parse_value f s = Some (v, r) -> String.length r < String.length s) /\
  (forall acc s v r, parse_elements f acc s = Some (v, r) -> String.length r < String.length s) /\
  (forall acc s v r, parse_members f acc s = Some (v, r) -> String.length r < String.length s).
Proof.
  induction f as [|f (IHv & IHe & IHm)].
  { repeat split; intros; discriminate. }
  repeat split.
  - intros s v r. rewrite parse_value_step.
    pose proof (skip_ws_length s) as Hws.
    destruct (skip_ws s) as [|c rest]; [discriminate|]. cbn [String.length] in Hws.
    destruct (Ascii.eqb c "{"%char).
    { pose proof (skip_ws_length rest) as Hws'.
      destruct (skip_char "}"%char (skip_ws rest)) as [rest'|] eqn:Hclose.
      - apply skip_char_length in Hclose. intros H. injection H as _ <-. lia.
      - intros H. apply IHm in H. lia. }
    destruct (Ascii.eqb c "["%char).
    { pose proof (skip_ws_length rest) as Hws'.
      destruct (skip_char "]"%char (skip_ws rest)) as [rest'|] eqn:Hclose.
      - apply skip_char_length in Hclose. intros H. injection H as _ <-. lia.
      - intros H. apply IHe in H. lia. }
    intros H. apply parse_scalar_length in H. lia.
  - intros acc s v r. rewrite parse_elements_step.
    destruct (parse_value f s) as [[v1 rest]|] eqn:Hv; [|discriminate].
    apply IHv in Hv. pose proof (skip_ws_length rest) as Hws.
    destruct (skip_char ","%char (skip_ws rest)) as [rest'|] eqn:Hcomma.
    + apply skip_char_length in Hcomma. intros H. apply IHe in H. lia.
    + destruct (skip_char "]"%char (skip_ws rest)) as [rest'|] eqn:Hclose; [|discriminate].
      apply skip_char_length in Hclose. intros H. injection H as _ <-. lia.
  - intros acc s v r. rewrite parse_members_step.
    pose proof (skip_ws_length s) as Hws.
    destruct (skip_char quote (skip_ws s)) as [rest|] eqn:Hq; [|discriminate].
    apply skip_char_length in Hq.
    destruct (lex_string rest) as [[key rest1]|] eqn:Hk; [|discriminate].
    apply lex_string_length in Hk. pose proof (skip_ws_length rest1) as Hws1.
    destruct (skip_char ":"%char (skip_ws rest1)) as [rest2|] eqn:Hc; [|discriminate].
    apply skip_char_length in Hc.
    destruct (parse_value f rest2) as [[v1 rest3]|] eqn:Hv; [|discriminate].
    apply IHv in Hv. pose proof (skip_ws_length rest3) as Hws3.
    destruct (skip_char ","%char (skip_ws rest3)) as [rest4|] eqn:Hcomma.
    + apply skip_char_length in Hcomma. intros H. apply IHm in H. lia.
    + destruct (skip_char "}"%char (skip_ws rest3)) as [rest4|] eqn:Hclose; [|discriminate].
      apply skip_char_length in Hclose. intros H. injection H as _ <-. lia.
Qed.

(** More fuel than twice the length of the text changes nothing. *)
Lemma parse_stable (f : nat) :
  (forall s, 2 * String.length s + 1 <= f -> parse_value (S f) s = parse_value f s) /\
  (forall acc s, 2 * String.length s + 2 <= f ->
                 parse_elements (S f) acc s = parse_elements f acc s) /\
  (forall acc s, 2 * String.length s + 1 <= f ->
                 parse_members (S f) acc s = parse_members f acc s).
Proof.
  induction f as [|f (IHv & IHe & IHm)].
  { repeat split; intros; lia. }
  repeat split.
  - intros s Hf. rewrite (parse_value_step (S f)), (parse_value_step f).
    pose proof (skip_ws_length s) as Hws.
    destruct (skip_ws s) as [|c rest]; [reflexivity|]. cbn [String.length] in Hws.
    destruct (Ascii.eqb c "{"%char).
    { destruct (skip_char "}"%char (skip_ws rest)); [reflexivity|]. apply IHm. lia. }
    destruct (Ascii.eqb c "["%char).
    { destruct (skip_char "]"%char (skip_ws rest)); [reflexivity|]. apply IHe. lia. }
    reflexivity.
  - intros acc s Hf. rewrite (parse_elements_step (S f)), (parse_elements_step f).
    rewrite IHv by lia.
    destruct (parse_value f s) as [[v1 rest]|] eqn:Hv; [|reflexivity].
    apply (proj1 (parse_consumes f)) in Hv. pose proof (skip_ws_length rest) as Hws.
    destruct (skip_char ","%char (skip_ws rest)) as [rest'|] eqn:Hcomma; [|reflexivity].
    apply skip_char_length in Hcomma. apply IHe. lia.
  - intros acc s Hf. rewrite (parse_members_step (S f)), (parse_members_step f).
    pose proof (skip_ws_length s) as Hws.
    destruct (skip_char quote (skip_ws s)) as [rest|] eqn:Hq; [|reflexivity].
    apply skip_char_length in Hq.
    destruct (lex_string rest) as [[key rest1]|] eqn:Hk; [|reflexivity].
    apply lex_string_length in Hk. pose proof (skip_ws_length rest1) as Hws1.
    destruct (skip_char ":"%char (skip_ws rest1)) as [rest2|] eqn:Hc; [|reflexivity].
    apply skip_char_length in Hc.
    rewrite IHv by lia.
    destruct (parse_value f rest2) as [[v1 rest3]|] eqn:Hv; [|reflexivity].
    apply (proj1 (parse_consumes f)) in Hv. pose proof (skip_ws_length rest3) as Hws3.
    destruct (skip_char ","%char (skip_ws rest3)) as [rest4|] eqn:Hcomma; [|reflexivity].
    apply skip_char_length in Hcomma. apply IHm. lia.
Qed.

(** [JSON.parse] never fails for want of fuel: with any greater amount the
    parse of a text gives what it gives with [enough_fuel]. *)
Theorem enough_fuel_is_enough (text : string) (fuel : nat) :
  enough_fuel text <= fuel ->
  parse_value fuel text = parse_value (enough_fuel text) text.
Proof.
  intros Hfuel. induction Hfuel as [|f Hf IH]; [reflexivity|].
  rewrite <- IH. apply (proj1 (parse_stable f)). unfold enough_fuel in Hf. lia.
Qed.

End JSONFacts.

(** ** The decoder at a newline *)

Module DecoderFacts.
Import TextDecoder.

Lemma newline_out_of_bounds (b : bounds) : in_bounds b Str.newline = false.
Proof. destruct b; reflexivity. Qed.

(** A newline ends whatever was pending: what follows it is decoded from
    the idle state. *)
Lemma decode_from_newline (st : state) (a b : string) :
  decode_from st (a ++ String Str.newline b)
  = (decode_from st (a ++ String Str.newline "") ++ decode_from Idle b)%string.
Proof.
  revert st. induction a as [|c a IH]; intros st.
  - simpl. destruct st as [|seen needed bd].
    + reflexivity.
    + rewrite newline_out_of_bounds. reflexivity.
  - cbn [append decode_from].
    assert (Hfresh :
      match classify c with
      | Single => String c (decode_from Idle (a ++ String Str.newline b))
      | Lead needed b0 =>
          decode_from (Pending (String c "") needed b0) (a ++ String Str.newline b)
      | Invalid => (replacement ++ decode_from Idle (a ++ String Str.newline b))%string
      end
      = (match classify c with
         | Single => String c (decode_from Idle (a ++ String Str.newline ""))
         | Lead needed b0 =>
             decode_from (Pending (String c "") needed b0) (a ++ String Str.newline "")
         | Invalid => (replacement ++ decode_from Idle (a ++ String Str.newline ""))%string
         end ++ decode_from Idle b)%string).
    { destruct (classify c).
      - now rewrite IH.
      - apply IH.
      - now rewrite IH, StrFacts.append_assoc. }
    destruct st as [|seen needed bd]; [exact Hfresh|].
    destruct (in_bounds bd c).
    + destruct needed as [|[|n]].
      * rewrite IH. now rewrite StrFacts.append_assoc.
      * rewrite IH. now rewrite StrFacts.append_assoc.
      * apply IH.
    + rewrite Hfresh. now rewrite StrFacts.append_assoc.
Qed.

(** A text that ends in a newline does not begin with a byte order mark
    unless the mark is complete within it. *)
Lemma strip_bom_before_newline (a b : string) :
  strip_bom ((a ++ String Str.newline "") ++ b)
  = (strip_bom (a ++ String Str.newline "") ++ b)%string.
Proof.
  destruct a as [|x [|y [|z a]]]; cbn [append].
  - destruct b as [|p [|q b]]; reflexivity.
  - destruct b as [|p b]; [reflexivity|].
    unfold strip_bom. destruct (nat_of_ascii x =? 239)%nat; reflexivity.
  - unfold strip_bom.
    replace (nat_of_ascii Str.newline =? 191)%nat with false by reflexivity.
    now rewrite Bool.andb_false_r.
  - unfold strip_bom.
    now destruct ((nat_of_ascii x =? 239)%nat && (nat_of_ascii y =? 187)%nat
                  && (nat_of_ascii z =? 191)%nat)%bool.
Qed.

End DecoderFacts.

Module DecoderEnds.
Import TextDecoder.

(** The decoded form of a text that ends in a newline ends in a newline. *)
Lemma decode_from_ends_with_newline (st : state) (a : string) :
  exists d, decode_from st (a ++ String Str.newline "") = (d ++ String Str.newline "")%string.
Proof.
  revert st. induction a as [|c a IH]; intros st.
  - destruct st as [|seen needed bd].
    + now exists ""%string.
    + exists replacement. cbn [append decode_from].
      now rewrite DecoderFacts.newline_out_of_bounds.
  - cbn [append decode_from].
    assert (Hfresh : exists d,
      match classify c with
      | Single => String c (decode_from Idle (a ++ String Str.newline ""))
      | Lead needed b0 =>
          decode_from (Pending (String c "") needed b0) (a ++ String Str.newline "")
      | Invalid => (replacement ++ decode_from Idle (a ++ String Str.newline ""))%string
      end = (d ++ String Str.newline "")%string).
    { destruct (classify c) as [|needed b0|].
      - destruct (IH Idle) as [d Hd]. exists (String c d). now rewrite Hd.
      - apply IH.
      - destruct (IH Idle) as [d Hd]. exists (replacement ++ d)%string.
        now rewrite Hd, StrFacts.append_assoc. }
    destruct st as [|seen needed bd]; [exact Hfresh|].
    destruct (in_bounds bd c).
    + destruct needed as [|[|n]].
      * destruct (IH Idle) as [d Hd]. exists (seen ++ String c d)%string.
        rewrite Hd. now rewrite StrFacts.append_assoc.
      * destruct (IH Idle) as [d Hd]. exists (seen ++ String c d)%string.
        rewrite Hd. now rewrite StrFacts.append_assoc.
      * apply IH.
    + destruct Hfresh as [d Hd]. exists (replacement ++ d)%string.
      rewrite Hd. now rewrite StrFacts.append_assoc.
Qed.

Lemma strip_bom_ends_with_newline (a : string) :
  exists a', strip_bom (a ++ String Str.newline "") = (a' ++ String Str.newline "")%string.
Proof.
  destruct a as [|x [|y [|z a]]]; cbn [append].
  - now exists ""%string.
  - now exists (String x "").
  - exists (String x (String y "")). unfold strip_bom.
    replace (nat_of_ascii Str.newline =? 191)%nat with false by reflexivity.
    now rewrite Bool.andb_false_r.
  - unfold strip_bom.
    destruct ((nat_of_ascii x =? 239)%nat && (nat_of_ascii y =? 187)%nat
              && (nat_of_ascii z =? 191)%nat)%bool.
    + now exists a.
    + now exists (String x (String y (String z a))).
Qed.

(** Decoding two reads one after the other, or both at once, gives the
    same text when the first ends in a newline and the second does not
    begin with a byte order mark. *)
Lemma decode_after_newline (a b : string) :
  strip_bom b = b ->
  exists d,
    decode (a ++ String Str.newline "") = (d ++ String Str.newline "")%string /\
    decode ((a ++ String Str.newline "") ++ b) = (d ++ String Str.newline (decode b))%string.
Proof.
  intros Hb. unfold decode.
  rewrite DecoderFacts.strip_bom_before_newline.
  destruct (strip_bom_ends_with_newline a) as [a' Ha']. rewrite Ha'.
  destruct (decode_from_ends_with_newline Idle a') as [d Hd].
  exists d. split; [exact Hd|].
  rewrite StrFacts.append_assoc. cbn [append].
  rewrite DecoderFacts.decode_from_newline, Hd, Hb.
  rewrite StrFacts.append_assoc. reflexivity.
Qed.

(** A newline is decoded to itself, after whatever came before it. *)
Lemma decode_from_before_newline (st : state) (a : string) :
  decode_from st (a ++ String Str.newline "")
  = (decode_from st a ++ String Str.newline "")%string.
Proof.
  revert st. induction a as [|c a IH]; intros st.
  - destruct st as [|seen needed bd]; [reflexivity|].
    cbn [append decode_from]. rewrite DecoderFacts.newline_out_of_bounds.
    reflexivity.
  - cbn [append decode_from].
    assert (Hfresh :
      match classify c with
      | Single => String c (decode_from Idle (a ++ String Str.newline ""))
      | Lead needed b0 =>
          decode_from (Pending (String c "") needed b0) (a ++ String Str.newline "")
      | Invalid => (replacement ++ decode_from Idle (a ++ String Str.newline ""))%string
      end
      = (match classify c with
         | Single => String c (decode_from Idle a)
         | Lead needed b0 => decode_from (Pending (String c "") needed b0) a
         | Invalid => (replacement ++ decode_from Idle a)%string
         end ++ String Str.newline "")%string).
    { destruct (classify c).
      - now rewrite IH.
      - apply IH.
      - now rewrite IH, StrFacts.append_assoc. }
    destruct st as [|seen needed bd]; [exact Hfresh|].
    destruct (in_bounds bd c).
    + destruct needed as [|[|n]].
      * rewrite IH. now rewrite StrFacts.append_assoc.
      * rewrite IH. now rewrite StrFacts.append_assoc.
      * apply IH.
    + rewrite Hfresh. now rewrite StrFacts.append_assoc.
Qed.

Lemma strip_bom_newline_inside (a b : string) :
  strip_bom (a ++ String Str.newline b) = (strip_bom a ++ String Str.newline b)%string.
Proof.
  destruct a as [|x [|y [|z a]]]; cbn [append].
  - destruct b as [|p [|q b]]; reflexivity.
  - destruct b as [|p b]; [reflexivity|].
    unfold strip_bom. destruct (nat_of_ascii x =? 239)%nat; reflexivity.
  - unfold strip_bom.
    replace (nat_of_ascii Str.newline =? 191)%nat with false by reflexivity.
    now rewrite Bool.andb_false_r.
  - unfold strip_bom.
    now destruct ((nat_of_ascii x =? 239)%nat && (nat_of_ascii y =? 187)%nat
                  && (nat_of_ascii z =? 191)%nat)%bool.
Qed.

(** Decoding a read, and then a read that begins with a newline, gives
    the text of both decoded at once. *)
Lemma decode_before_newline (a b : string) :
  decode (a ++ String Str.newline b)
  = (decode a ++ String Str.newline (decode_from Idle b))%string
  /\ decode (String Str.newline b) = String Str.newline (decode_from Idle b).
Proof.
  split.
  - unfold decode. rewrite strip_bom_newline_inside.
    rewrite DecoderFacts.decode_from_newline, decode_from_before_newline.
    now rewrite StrFacts.append_assoc.
  - unfold decode.
    replace (strip_bom (String Str.newline b)) with (String Str.newline b)
      by (destruct b as [|p [|q b]]; reflexivity).
    reflexivity.
Qed.

End DecoderEnds.

(** ** The reader's loops *)

Module ReaderFacts.
Import JS Trace.

Section Loops.

Variable process_line : string -> list effect * control.

(** A line that does not carry the marker is passed over. *)
Hypothesis blank : process_line "" = ([]%list, Next).

Local Abbreviation process_lines := (Reader.process_lines process_line).
Local Abbreviation read_loop := (Reader.read_loop process_line).

Lemma process_lines_app (l1 l2 : list string) :
  process_lines (l1 ++ l2)%list
  = match process_lines l1 with
    | (effects, Next) =>
        let (effects', c) := process_lines l2 in ((effects ++ effects')%list, c)
    | stopped => stopped
    end.
Proof.
  induction l1 as [|line l1 IH]; cbn [app Reader.process_lines].
  - now destruct (process_lines l2).
  - destruct (process_line line) as [e [| |err]]; try reflexivity.
    rewrite IH. destruct (process_lines l1) as [e1 [| |err1]]; try reflexivity.
    destruct (process_lines l2) as [e2 c2]. now rewrite List.app_assoc.
Qed.

Lemma process_lines_blank_end (l : list string) :
  process_lines (l ++ [""%string])%list = process_lines l.
Proof.
  rewrite process_lines_app. cbn [Reader.process_lines]. rewrite blank.
  destruct (process_lines l) as [e [| |err]]; try reflexivity.
  cbn. now rewrite !List.app_nil_r.
Qed.

Lemma read_loop_blank (rest : list string) (failure : option error) :
  read_loop (""%string :: rest) failure = read_loop rest failure.
Proof.
  cbn [Reader.read_loop]. unfold Reader.process_chunk.
  change (TextDecoder.decode "") with ""%string. cbn [Str.split Reader.process_lines].
  rewrite blank. now destruct (read_loop rest failure).
Qed.

Lemma read_loop_tail (value : string) (rest rest' : list string) (failure : option error) :
  read_loop rest failure = read_loop rest' failure ->
  read_loop (value :: rest) failure = read_loop (value :: rest') failure.
Proof. intros H. cbn [Reader.read_loop]. now rewrite H. Qed.

(** Two reads, the first ending in a newline, are handled like their
    concatenation delivered in one read. *)
Lemma read_loop_merge (a b : string) (failure : option error) :
  TextDecoder.strip_bom b = b ->
  read_loop [(a ++ String Str.newline "")%string; b] failure
  = read_loop [((a ++ String Str.newline "") ++ b)%string] failure.
Proof.
  intros Hb. destruct (DecoderEnds.decode_after_newline a b Hb) as [d [H1 H2]].
  cbn [Reader.read_loop]. unfold Reader.process_chunk. rewrite H1, H2.
  rewrite StrFacts.split_ends_with_separator, StrFacts.split_at_separator.
  rewrite process_lines_blank_end, process_lines_app.
  destruct (process_lines (Str.split Str.newline d)) as [e [| |err]]; try reflexivity.
  destruct (process_lines (Str.split Str.newline (TextDecoder.decode b))) as [e' [| |err']].
  - destruct failure; now rewrite ?List.app_nil_r.
  - reflexivity.
  - reflexivity.
Qed.

Lemma read_loop_start (earlier rest rest' : list string) (failure : option error) :
  read_loop rest failure = read_loop rest' failure ->
  read_loop (earlier ++ rest)%list failure = read_loop (earlier ++ rest')%list failure.
Proof.
  intros H. induction earlier as [|value earlier IH]; cbn [app]; [exact H|].
  now apply read_loop_tail.
Qed.

(** Two reads whose lines are, one after the other, the lines of a third
    are handled like the third. *)
Lemma read_loop_joined (x y xy : string) (later : list string) (failure : option error) :
  Reader.process_chunk process_line xy
  = match Reader.process_chunk process_line x with
    | (e, Next) =>
        let (e', c) := Reader.process_chunk process_line y in ((e ++ e')%list, c)
    | stopped => stopped
    end ->
  read_loop (x :: y :: later) failure = read_loop (xy :: later) failure.
Proof.
  intros H. cbn [Reader.read_loop]. rewrite H.
  destruct (Reader.process_chunk process_line x) as [e [| |err]]; try reflexivity.
  destruct (Reader.process_chunk process_line y) as [e' [| |err']]; try reflexivity.
  destruct (read_loop later failure) as [e2 r]. now rewrite List.app_assoc.
Qed.

(** A cut after a newline: the first read ends with it. *)
Lemma cut_after_newline (a b : string) (earlier later : list string)
  (failure : option error) :
  TextDecoder.strip_bom b = b ->
  read_loop (earlier ++ (a ++ String Str.newline "")%string :: b :: later)%list failure
  = read_loop (earlier ++ ((a ++ String Str.newline "") ++ b)%string :: later)%list failure.
Proof.
  intros Hb. apply read_loop_start, read_loop_joined.
  destruct (DecoderEnds.decode_after_newline a b Hb) as [d [H1 H2]].
  unfold Reader.process_chunk. rewrite H1, H2.
  rewrite StrFacts.split_ends_with_separator, StrFacts.split_at_separator.
  now rewrite process_lines_blank_end, process_lines_app.
Qed.

(** A cut before a newline: the second read begins with it. *)
Lemma cut_before_newline (a b : string) (earlier later : list string)
  (failure : option error) :
  read_loop (earlier ++ a :: String Str.newline b :: later)%list failure
  = read_loop (earlier ++ (a ++ String Str.newline b)%string :: later)%list failure.
Proof.
  apply read_loop_start, read_loop_joined.
  destruct (DecoderEnds.decode_before_newline a b) as [H1 H2].
  unfold Reader.process_chunk. rewrite H1, H2.
  rewrite StrFacts.split_at_separator, process_lines_app.
  destruct (process_lines (Str.split Str.newline (TextDecoder.decode a)))
    as [e [| |err]]; try reflexivity.
  cbn [Str.split]. rewrite Ascii.eqb_refl. cbn [Reader.process_lines]. rewrite blank.
  now destruct (process_lines (Str.split Str.newline (TextDecoder.decode_from TextDecoder.Idle b))).
Qed.

End Loops.

End ReaderFacts.

(** ** A body that is served *)

Module Served.
Import JS Http Trace Sample Notions.

(** With a status of success, [sendMessageStream] is its reading loop
    over the reads of the body. *)
Lemma sendMessageStream_serving
  (API_BASE : string) (authToken conversationId content pdfData pdfFilename : value)
  (reads : list string) (failure : option error) :
  Api.sendMessageStream API_BASE authToken (serving reads failure)
    conversationId content pdfData pdfFilename
  = Api.read_loop reads failure.
Proof. reflexivity. Qed.

Lemma sendMessageStream_serving_earlier
  (API_BASE : string) (conversationId content pdfData pdfFilename : value)
  (reads : list string) (failure : option error) :
  Api0.sendMessageStream API_BASE (serving reads failure)
    conversationId content pdfData pdfFilename
  = Api0.read_loop reads failure.
Proof. reflexivity. Qed.

End Served.

(** ** C1. Where the stream may be cut *)

Module Chunking.
Import JS Http Trace Sample Notions.

Lemma concat_app (l1 l2 : list string) :
  Http.concat (l1 ++ l2)%list = (Http.concat l1 ++ Http.concat l2)%string.
Proof.
  induction l1 as [|c l1 IH]; cbn [app Http.concat]; [reflexivity|].
  now rewrite IH, StrFacts.append_assoc.
Qed.

Lemma encode_app (g1 g2 : list string) :
  encode (g1 ++ g2)%list = (encode g1 ++ encode g2)%string.
Proof. unfold encode. now rewrite List.map_app, concat_app. Qed.

Lemma encode_ends_with_newline (p : string) (ps : list string) :
  exists a, encode (p :: ps)%list = (a ++ nl)%string.
Proof.
  revert p. induction ps as [|q ps IH]; intros p.
  - exists ("data: " ++ p)%string. unfold encode, frame. cbn [List.map Http.concat].
    now rewrite StrFacts.append_nil_r, StrFacts.append_assoc.
  - destruct (IH q) as [a Ha]. exists (frame p ++ a)%string.
    change (encode (p :: q :: ps)%list) with (frame p ++ encode (q :: ps)%list)%string.
    now rewrite Ha, StrFacts.append_assoc.
Qed.

Lemma encode_has_no_bom (g : list string) : TextDecoder.strip_bom (encode g) = encode g.
Proof. destruct g as [|p ps]; reflexivity. Qed.

Section AnyClient.

Variable process_line : string -> list effect * control.
Hypothesis blank : process_line "" = ([]%list, Next).

Lemma whole_frames_per_read (groups : list (list string)) (failure : option error) :
  Reader.read_loop process_line (List.map encode groups) failure
  = Reader.read_loop process_line [encode (List.concat groups)] failure.
Proof.
  induction groups as [|g groups IH]; cbn [List.map List.concat].
  - change (encode []%list) with ""%string.
    now rewrite (ReaderFacts.read_loop_blank process_line blank).
  - destruct g as [|p ps].
    + change (encode []%list) with ""%string.
      rewrite (ReaderFacts.read_loop_blank process_line blank). exact IH.
    + rewrite (ReaderFacts.read_loop_tail process_line _ _ _ _ IH).
      destruct (encode_ends_with_newline p ps) as [a Ha].
      rewrite encode_app, Ha.
      apply (ReaderFacts.read_loop_merge process_line blank).
      apply encode_has_no_bom.
Qed.

End AnyClient.

(** C1, as the code has it. [api.sendMessageStream] keeps nothing from one
    read to the next: each read is decoded and split on its own. So a cut
    is harmless where it falls next to a newline, anywhere in the stream:
    two reads of which the first ends with a newline (and the second does
    not begin with a byte order mark), or of which the second begins with
    a newline, give the callbacks, the console lines and the outcome of
    their bytes delivered in one read. Hence reads that deliver whole
    frames each (any number of them, none included) give what the same
    frames give in a single read. This holds in the current client and in
    the earlier one. A cut elsewhere can lose the event: the stage-1 frame
    of [one_frame] cut after its twentieth byte calls nothing. *)
Theorem reads_cut_at_a_newline
  (API_BASE : string) (authToken conversationId content pdfData pdfFilename : value)
  (a b : string) (earlier later : list string) (groups : list (list string))
  (failure : option error) :
  (TextDecoder.strip_bom b = b ->
   Api.sendMessageStream API_BASE authToken
     (serving (earlier ++ (a ++ nl)%string :: b :: later)%list failure)
     conversationId content pdfData pdfFilename
   = Api.sendMessageStream API_BASE authToken
       (serving (earlier ++ ((a ++ nl) ++ b)%string :: later)%list failure)
       conversationId content pdfData pdfFilename
   /\ Api0.sendMessageStream API_BASE
        (serving (earlier ++ (a ++ nl)%string :: b :: later)%list failure)
        conversationId content pdfData pdfFilename
      = Api0.sendMessageStream API_BASE
          (serving (earlier ++ ((a ++ nl) ++ b)%string :: later)%list failure)
          conversationId content pdfData pdfFilename)
  /\ (Api.sendMessageStream API_BASE authToken
        (serving (earlier ++ a :: (nl ++ b)%string :: later)%list failure)
        conversationId content pdfData pdfFilename
      = Api.sendMessageStream API_BASE authToken
          (serving (earlier ++ (a ++ nl ++ b)%string :: later)%list failure)
          conversationId content pdfData pdfFilename
      /\ Api0.sendMessageStream API_BASE
           (serving (earlier ++ a :: (nl ++ b)%string :: later)%list failure)
           conversationId content pdfData pdfFilename
         = Api0.sendMessageStream API_BASE
             (serving (earlier ++ (a ++ nl ++ b)%string :: later)%list failure)
             conversationId content pdfData pdfFilename)
  /\ (Api.sendMessageStream API_BASE authToken (serving (List.map encode groups) failure)
        conversationId content pdfData pdfFilename
      = Api.sendMessageStream API_BASE authToken
          (serving [encode (List.concat groups)] failure)
          conversationId content pdfData pdfFilename
      /\ Api0.sendMessageStream API_BASE (serving (List.map encode groups) failure)
           conversationId content pdfData pdfFilename
         = Api0.sendMessageStream API_BASE (serving [encode (List.concat groups)] failure)
             conversationId content pdfData pdfFilename)
  /\ (Http.concat cut_frame = one_frame
      /\ Api.sendMessageStream API_BASE authToken (serving [one_frame] None)
           conversationId content pdfData pdfFilename
         = ([OnStage1 (VArray [])], Normal tt)
      /\ fst (Api.sendMessageStream API_BASE authToken (serving cut_frame None)
                conversationId content pdfData pdfFilename)
         = [ConsoleError "Failed to parse SSE data:" JSON.syntax_error]
      /\ Api0.sendMessageStream API_BASE (serving [one_frame] None)
           conversationId content pdfData pdfFilename
         = ([OnStage1 (VArray [])], Normal tt)
      /\ fst (Api0.sendMessageStream API_BASE (serving cut_frame None)
                conversationId content pdfData pdfFilename)
         = [ConsoleError "Failed to parse SSE data:" JSON.syntax_error]).
Proof.
  rewrite !Served.sendMessageStream_serving, !Served.sendMessageStream_serving_earlier.
  split; [|split; [|split; [|split; [|split; [|split; [|split]]]]]].
  - intros Hb. split.
    + now apply (ReaderFacts.cut_after_newline Api.process_line).
    + now apply (ReaderFacts.cut_after_newline Api0.process_line).
  - split.
    + now apply (ReaderFacts.cut_before_newline Api.process_line).
    + now apply (ReaderFacts.cut_before_newline Api0.process_line).
  - split.
    + apply (whole_frames_per_read Api.process_line). reflexivity.
    + apply (whole_frames_per_read Api0.process_line). reflexivity.
  - vm_compute. reflexivity.
  - vm_compute. reflexivity.
  - vm_compute. reflexivity.
  - vm_compute. reflexivity.
  - vm_compute. reflexivity.
Qed.

(** A stream of three frames delivered in three reads, the second frame
    cut before the newline that ends it: the run is that of the first two
    reads delivered as one. *)
Lemma reads_cut_at_a_newline_witness :
  Api.sendMessageStream localhost VNull
    (serving ([encode [first_answers]]
              ++ ("data: " ++ reviews)%string :: (nl ++ encode [synthesis])%string :: [])%list
       None)
    (VString "c1") (VString "hi") VNull VNull
  = Api.sendMessageStream localhost VNull
      (serving ([encode [first_answers]]
                ++ (("data: " ++ reviews) ++ nl ++ encode [synthesis])%string :: [])%list
         None)
      (VString "c1") (VString "hi") VNull VNull.
Proof.
  apply (reads_cut_at_a_newline localhost VNull (VString "c1") (VString "hi") VNull VNull
           ("data: " ++ reviews)%string (encode [synthesis]) [encode [first_answers]]
           []%list []%list None).
Defined.

(** C1 as the specification states it fails: the two reads of [cut_frame]
    carry exactly the bytes of [one_frame], yet the single read calls
    [onStage1] and the two reads call nothing, in the current client and
    in the earlier one. *)
Lemma cut_inside_a_frame_loses_it :
  Http.concat cut_frame = one_frame
  /\ callbacks (fst (Api.sendMessageStream "" VNull (serving [one_frame] None)
                       (VString "c1") (VString "hi") VNull VNull))
     = [OnStage1 (VArray [])]
  /\ callbacks (fst (Api.sendMessageStream "" VNull (serving cut_frame None)
                       (VString "c1") (VString "hi") VNull VNull))
     = []%list
  /\ callbacks (fst (Api0.sendMessageStream "" (serving [one_frame] None)
                       (VString "c1") (VString "hi") VNull VNull))
     = [OnStage1 (VArray [])]
  /\ callbacks (fst (Api0.sendMessageStream "" (serving cut_frame None)
                       (VString "c1") (VString "hi") VNull VNull))
     = []%list.
Proof. repeat split; vm_compute; reflexivity. Qed.

End Chunking.

(** ** Runs that look the same *)

Module Observed.
Import JS Trace Notions.

Lemma callbacks_app (t1 t2 : list effect) :
  callbacks (t1 ++ t2)%list = (callbacks t1 ++ callbacks t2)%list.
Proof. apply List.filter_app. Qed.

Section Loops.

Variable process_line : string -> list effect * control.

Local Abbreviation process_lines := (Reader.process_lines process_line).
Local Abbreviation process_chunk := (Reader.process_chunk process_line).
Local Abbreviation read_loop := (Reader.read_loop process_line).

Lemma process_lines_same_tail (l l' after : list string) :
  observed (process_lines l) = observed (process_lines l') ->
  observed (process_lines (l ++ after)%list) = observed (process_lines (l' ++ after)%list).
Proof.
  intros H. rewrite !ReaderFacts.process_lines_app.
  destruct (process_lines l) as [e c], (process_lines l') as [e' c'].
  unfold observed in H. cbn [fst snd] in H. injection H as He Hc. subst c'.
  destruct c as [| |err]; unfold observed; cbn [fst snd]; try now rewrite He.
  destruct (process_lines after) as [e2 c2]. cbn [fst snd].
  now rewrite !callbacks_app, He.
Qed.





(** Reads that are handled to their end are followed by the next read. *)
Lemma read_loop_through (earlier rest : list string) (failure : option error) :
  List.Forall (fun value => exists e, process_chunk value = (e, Next)) earlier ->
  exists e0,
    read_loop earlier None = (e0, Normal tt) /\
    read_loop (earlier ++ rest)%list failure
    = (let (e, r) := read_loop rest failure in ((e0 ++ e)%list, r)).
Proof.
  induction 1 as [|value earlier [e He] _ [e0 [IH1 IH2]]]; cbn [app Reader.read_loop].
  - exists []%list. split; [reflexivity|]. now destruct (read_loop rest failure).
  - rewrite He, IH1, IH2. exists (e ++ e0)%list. split; [reflexivity|].
    destruct (read_loop rest failure) as [e1 r1]. now rewrite List.app_assoc.
Qed.

(** A line that returns ends the run: the lines after it and the reads
    after its own do not count. *)
Lemma returning_line (line : string) (chunk : string) (before after later : list string)
  (failure : option error) (effects : list effect) :
  process_line line = ([]%list, Return) ->
  Str.split Str.newline (TextDecoder.decode chunk) = (before ++ line :: after)%list ->
  process_lines before = (effects, Next) ->
  read_loop (chunk :: later) failure = (effects, Normal tt).
Proof.
  intros Hline Hlines Hbefore. cbn [Reader.read_loop]. unfold Reader.process_chunk.
  rewrite Hlines, ReaderFacts.process_lines_app, Hbefore.
  cbn [Reader.process_lines]. rewrite Hline. cbn. now rewrite List.app_nil_r.
Qed.

(** A line that lets the loop go on, reached in a run: the run is what
    came before the line, what the line did, and the rest of the run. *)
Lemma passing_line (line : string) (chunk : string) (before after earlier later : list string)
  (failure : option error) (effects logged : list effect) :
  process_line line = (logged, Next) ->
  Str.split Str.newline (TextDecoder.decode chunk) = (before ++ line :: after)%list ->
  List.Forall (fun value => exists e, process_chunk value = (e, Next)) earlier ->
  process_lines before = (effects, Next) ->
  exists e0,
    read_loop earlier None = (e0, Normal tt) /\
    read_loop (earlier ++ chunk :: later)%list failure
    = ((e0 ++ effects ++ logged ++ fst (run_from process_line after later failure))%list,
       snd (run_from process_line after later failure)).
Proof.
  intros Hline Hlines Hearlier Hbefore.
  destruct (read_loop_through earlier (chunk :: later) failure Hearlier) as [e0 [H0 H1]].
  exists e0. split; [exact H0|]. rewrite H1.
  cbn [Reader.read_loop]. unfold Reader.process_chunk.
  rewrite Hlines, ReaderFacts.process_lines_app, Hbefore.
  cbn [Reader.process_lines]. rewrite Hline. unfold run_from.
  destruct (process_lines after) as [ea [| |x]];
    [destruct (read_loop later failure) as [el r]| |];
    cbn [fst snd]; repeat rewrite <- List.app_assoc; reflexivity.
Qed.


End Loops.

End Observed.

(** ** C4, C5, C6. One frame at a time *)

Module Frames.
Import JS Http Trace Sample Notions Observed.

Lemma parse_throws_syntax_error (data : string) (e : error) :
  JSON.parse data = Throw e -> e = JSON.syntax_error.
Proof.
  unfold JSON.parse. intros H.
  destruct (JSON.parse_value _ data) as [[v rest]|]; [|congruence].
  destruct (JSON.skip_ws rest); congruence.
Qed.

Lemma marked_line (data : string) :
  Str.startsWith ("data: " ++ data) "data: " = true
  /\ Str.slice 6 ("data: " ++ data) = data.
Proof. split; [|reflexivity]. unfold Str.startsWith. cbn. now destruct data. Qed.

Lemma process_line_marked (data : string) :
  Api.process_line ("data: " ++ data)
  = if String.eqb data "[DONE]" then ([]%list, Return)
    else
      match Api.try_frame data with
      | (effects, Raise e) =>
          let (logged, c) := Api.catch_frame e in ((effects ++ logged)%list, c)
      | done => done
      end.
Proof.
  unfold Api.process_line. destruct (marked_line data) as [H1 H2].
  now rewrite H1, H2.
Qed.

Lemma process_line_marked_earlier (data : string) :
  Api0.process_line ("data: " ++ data)
  = if String.eqb data "[DONE]" then ([]%list, Return)
    else
      match Api0.try_frame data with
      | (effects, Raise e) =>
          let (logged, c) := Api0.catch_frame e in ((effects ++ logged)%list, c)
      | done => done
      end.
Proof.
  unfold Api0.process_line. destruct (marked_line data) as [H1 H2].
  now rewrite H1, H2.
Qed.





Lemma terminator_returns (line : string) :
  terminator line -> Api.process_line line = ([]%list, Return).
Proof.
  intros [-> | (data & parsed & -> & Hparse & Htype)]; [reflexivity|].
  rewrite process_line_marked.
  destruct (String.eqb_spec data "[DONE]") as [-> | _].
  - vm_compute in Hparse. discriminate.
  - unfold Api.try_frame. rewrite Hparse. unfold Api.dispatch.
    destruct parsed; try (unfold prop in Htype; discriminate).
    cbn [get]. rewrite Htype.
    repeat match goal with
    | |- context [Api.type_is (VString ?t) ?n] =>
        let b := eval vm_compute in (Api.type_is (VString t) n) in
        change (Api.type_is (VString t) n) with b
    end.
    reflexivity.
Qed.

Lemma sentinel_returns_earlier : Api0.process_line "data: [DONE]" = ([]%list, Return).
Proof. reflexivity. Qed.

(** The earlier client has no [case] for a [complete] frame: the line
    calls nothing and the loop goes on. *)
Lemma complete_passed_over_earlier (data : string) (parsed : value) :
  JSON.parse data = Normal parsed ->
  prop parsed "type" = VString "complete" ->
  Api0.process_line ("data: " ++ data) = ([]%list, Next).
Proof.
  intros Hparse Htype. rewrite process_line_marked_earlier.
  destruct (String.eqb_spec data "[DONE]") as [-> | _].
  { vm_compute in Hparse. discriminate. }
  unfold Api0.try_frame. rewrite Hparse. unfold Api0.dispatch.
  destruct parsed; try (unfold prop in Htype; discriminate).
  cbn [get]. rewrite Htype. eval_types. reflexivity.
Qed.

(** C6, as the code has it. In the current client, once the reads before
    have been handled to their end, a read that holds the sentinel or a
    [complete] frame makes [sendMessageStream] return normally with the
    callbacks made so far: the lines after the terminator in that read,
    the reads after it and a failure of the body further on all go
    unseen. The earlier client does the same at the sentinel. It has no
    [case] for a [complete] frame: it passes such a frame over and goes
    on with the lines after it and with the later reads. *)
Theorem terminator_ends_the_stream
  (API_BASE : string) (authToken conversationId content pdfData pdfFilename : value)
  (line chunk : string) (before after earlier later : list string)
  (failure : option error) (effects : list effect)
  (Hchunk : lines chunk = (before ++ line :: after)%list) :
  (terminator line ->
   List.Forall (fun value => exists e, Api.process_chunk value = (e, Next)) earlier ->
   Api.process_lines before = (effects, Next) ->
   exists e0,
     Api.read_loop earlier None = (e0, Normal tt)
     /\ Api.sendMessageStream API_BASE authToken
          (serving (earlier ++ chunk :: later)%list failure)
          conversationId content pdfData pdfFilename
        = ((e0 ++ effects)%list, Normal tt))
  /\ (line = "data: [DONE]" ->
      List.Forall (fun value => exists e, Api0.process_chunk value = (e, Next)) earlier ->
      Api0.process_lines before = (effects, Next) ->
      exists e0,
        Api0.read_loop earlier None = (e0, Normal tt)
        /\ Api0.sendMessageStream API_BASE
             (serving (earlier ++ chunk :: later)%list failure)
             conversationId content pdfData pdfFilename
           = ((e0 ++ effects)%list, Normal tt))
  /\ (forall (data : string) (parsed : value),
        line = ("data: " ++ data)%string ->
        JSON.parse data = Normal parsed ->
        prop parsed "type" = VString "complete" ->
        List.Forall (fun value => exists e, Api0.process_chunk value = (e, Next)) earlier ->
        Api0.process_lines before = (effects, Next) ->
        exists e0,
          Api0.read_loop earlier None = (e0, Normal tt)
          /\ Api0.sendMessageStream API_BASE
               (serving (earlier ++ chunk :: later)%list failure)
               conversationId content pdfData pdfFilename
             = ((e0 ++ effects ++ fst (run_from Api0.process_line after later failure))%list,
                snd (run_from Api0.process_line after later failure))).
Proof.
  split; [|split].
  - intros Hline Hearlier Hbefore.
    destruct (read_loop_through Api.process_line earlier (chunk :: later) failure Hearlier)
      as [e0 [H0 H1]].
    exists e0. split; [exact H0|].
    rewrite Served.sendMessageStream_serving.
    unfold Api.read_loop. rewrite H1.
    now rewrite (returning_line Api.process_line line chunk before after later failure
                   effects (terminator_returns line Hline) Hchunk Hbefore).
  - intros -> Hearlier Hbefore.
    destruct (read_loop_through Api0.process_line earlier (chunk :: later) failure Hearlier)
      as [e0 [H0 H1]].
    exists e0. split; [exact H0|].
    rewrite Served.sendMessageStream_serving_earlier.
    unfold Api0.read_loop. rewrite H1.
    now rewrite (returning_line Api0.process_line _ chunk before after later failure
                   effects sentinel_returns_earlier Hchunk Hbefore).
  - intros data parsed -> Hparse Htype Hearlier Hbefore.
    rewrite Served.sendMessageStream_serving_earlier.
    exact (passing_line Api0.process_line _ chunk before after earlier later failure
             effects []%list (complete_passed_over_earlier data parsed Hparse Htype)
             Hchunk Hearlier Hbefore).
Qed.

(** A stage-1 frame in a first read; then a read with a stage-3 frame, a
    [complete] frame and one more stage-1 frame; then another read and a
    broken connection: [onStage1], [onStage3], and a normal return. *)
Lemma terminator_ends_the_stream_witness :
  exists e0,
    Api.read_loop [encode [stage1_payload]] None = (e0, Normal tt)
    /\ Api.sendMessageStream "" VNull
         (serving ([encode [stage1_payload]]
                   ++ encode [stage3_payload; complete_payload; stage1_payload]
                   :: [encode [stage1_payload]])%list
                  (Some (Err "TypeError" "network error")))
         (VString "c1") (VString "hi") VNull VNull
       = ((e0 ++ [OnStage3 (VObject [("model", VString "chair");
                                     ("response", VString "final")])])%list,
          Normal tt).
Proof.
  apply (terminator_ends_the_stream "" VNull (VString "c1") (VString "hi") VNull VNull
           ("data: " ++ complete_payload)%string
           (encode [stage3_payload; complete_payload; stage1_payload])
           ["data: " ++ stage3_payload]%string
           ["data: " ++ stage1_payload; ""]%string).
  - vm_compute. reflexivity.
  - right. exists complete_payload, (VObject [("type", VString "complete")]).
    repeat split; vm_compute; reflexivity.
  - constructor; [|constructor]. eexists. vm_compute. reflexivity.
  - vm_compute. reflexivity.
Defined.

(** C6 as the specification states it fails for the earlier client: a
    [complete] frame followed by a stage-1 frame in one read. The current
    client returns at the [complete] frame and calls nothing; the earlier
    client goes on and calls [onStage1]. *)
Lemma complete_frame_does_not_end_the_earlier_stream :
  Api.sendMessageStream "" VNull (serving [encode [complete_payload; stage1_payload]] None)
    (VString "c1") (VString "hi") VNull VNull
  = ([]%list, Normal tt)
  /\ Api0.sendMessageStream "" (serving [encode [complete_payload; stage1_payload]] None)
       (VString "c1") (VString "hi") VNull VNull
     = ([OnStage1 (VArray [])], Normal tt).
Proof. split; vm_compute; reflexivity. Qed.

(** An [error] frame whose message is a non-empty text without "JSON" in
    it: the error is thrown to the caller with that message. *)
Lemma error_frame_raises (data : string) (parsed : value) (message : string) :
  JSON.parse data = Normal parsed ->
  prop parsed "type" = VString "error" ->
  prop parsed "message" = VString message ->
  message <> ""%string ->
  Str.includes message "JSON" = false ->
  Api.process_line ("data: " ++ data) = ([]%list, Raise (Err "Error" message)).
Proof.
  intros Hparse Htype Hmsg Hne Hjson.
  rewrite process_line_marked.
  destruct (String.eqb_spec data "[DONE]") as [-> | _].
  { vm_compute in Hparse. discriminate. }
  unfold Api.try_frame. rewrite Hparse. unfold Api.dispatch.
  destruct parsed; try (unfold prop in Htype; discriminate).
  cbn [get]. rewrite Htype, Hmsg. eval_types. cbv iota.
  unfold or_else, new_Error, Api.catch_frame. cbn [truthy].
  destruct message as [|c m]; [congruence|].
  cbn [Str.is_empty negb andb ToString err_message app].
  now rewrite Hjson.
Qed.

(** An [error] frame whose message has "JSON" in it: the [catch] takes
    the error for a parse error, logs it, and the loop goes on. *)
Lemma error_frame_swallowed (data : string) (parsed : value) (message : string) :
  JSON.parse data = Normal parsed ->
  prop parsed "type" = VString "error" ->
  prop parsed "message" = VString message ->
  Str.includes message "JSON" = true ->
  Api.process_line ("data: " ++ data)
  = ([ConsoleError "Failed to parse SSE data:" (Err "Error" message)], Next).
Proof.
  intros Hparse Htype Hmsg Hjson.
  rewrite process_line_marked.
  destruct (String.eqb_spec data "[DONE]") as [-> | _].
  { vm_compute in Hparse. discriminate. }
  unfold Api.try_frame. rewrite Hparse. unfold Api.dispatch.
  destruct parsed; try (unfold prop in Htype; discriminate).
  cbn [get]. rewrite Htype, Hmsg. eval_types. cbv iota.
  unfold or_else, new_Error, Api.catch_frame. cbn [truthy].
  destruct message as [|c m]; [discriminate|].
  cbn [Str.is_empty negb andb ToString err_message app].
  now rewrite Hjson.
Qed.

(** C4, at the input where the code parts from it. The frame with the
    message "rate limited" makes [sendMessageStream] throw an error with
    that message, after [onStage1] and before anything else. The frame
    with the message "Invalid JSON body" does not: the error is logged as
    a parse failure, the stage-1 frame behind it is dispatched, and the
    call returns normally. *)
Theorem error_frame_with_JSON_in_its_message :
  Api.sendMessageStream "" VNull
    (serving [encode [stage1_payload; rate_limited_payload; stage3_payload]] None)
    (VString "c1") (VString "hi") VNull VNull
  = ([OnStage1 (VArray [])], Throw (Err "Error" "rate limited"))
  /\ Api.sendMessageStream "" VNull
       (serving [encode [invalid_json_payload; stage1_payload]] None)
       (VString "c1") (VString "hi") VNull VNull
     = ([ConsoleError "Failed to parse SSE data:" (Err "Error" "Invalid JSON body");
         OnStage1 (VArray [])],
        Normal tt).
Proof. split; vm_compute; reflexivity. Qed.

End Frames.

(** ** C2, C3. The stage state under the stream's events *)

Module Stages.
Import JS Http Trace Sample Notions.

Lemma loadConversations_keeps (listing : completion value) (s : App.state) :
  stage_state (App.loadConversations listing s) = stage_state s
  /\ attachment (App.loadConversations listing s) = attachment s
  /\ App.messages (App.loadConversations listing s) = App.messages s
  /\ App.loading (App.loadConversations listing s) = App.loading s
  /\ App.currentConversation (App.loadConversations listing s) = App.currentConversation s.
Proof. destruct listing; repeat split; fields s. Qed.

(** No event of a stream touches the history, the attachment or the
    [loading] flag. *)
Lemma apply_effect_keeps (r : App.state) (listing : completion value) (e : effect)
  (s : App.state) :
  App.messages (App.apply_effect r listing e s) = App.messages s
  /\ attachment (App.apply_effect r listing e s) = attachment s
  /\ App.loading (App.apply_effect r listing e s) = App.loading s.
Proof.
  destruct e; cbn [App.apply_effect]; try solve [repeat split; fields s].
  unfold App.onTitleUpdate.
  destruct (loadConversations_keeps listing
              (App.setCurrentConversation
                 (VObject (set_field "title" title (own_entries (App.currentConversation r)))) s))
    as (_ & Ha & Hm & Hl & _).
  rewrite Ha, Hm, Hl. repeat split; fields s.
Qed.

Lemma apply_effects_keeps (r : App.state) (listing : completion value) (t : list effect)
  (s : App.state) :
  App.messages (App.apply_effects r listing t s) = App.messages s
  /\ attachment (App.apply_effects r listing t s) = attachment s
  /\ App.loading (App.apply_effects r listing t s) = App.loading s.
Proof.
  revert s. induction t as [|e t IH]; intros s; [now repeat split|].
  unfold App.apply_effects. cbn [List.fold_left].
  destruct (IH (App.apply_effect r listing e s)) as (Hm & Ha & Hl).
  destruct (apply_effect_keeps r listing e s) as (Hm' & Ha' & Hl').
  unfold App.apply_effects in *. rewrite Hm, Ha, Hl, Hm', Ha', Hl'. now repeat split.
Qed.

(** What one event does to the stage fields, whatever they held. *)
Lemma apply_effect_stage (r : App.state) (listing : completion value) (e : effect)
  (s : App.state) :
  stage_state (App.apply_effect r listing e s)
  = (last_stage1 [e] (App.stage1Results s),
     fst (last_stage2 [e] (App.stage2Results s, App.metadata s)),
     snd (last_stage2 [e] (App.stage2Results s, App.metadata s)),
     last_stage3 [e] (App.stage3Result s),
     last_marker [e] (App.currentStage s)).
Proof.
  destruct e; cbn [App.apply_effect]; try solve [fields s].
  unfold App.onTitleUpdate.
  destruct (loadConversations_keeps listing
              (App.setCurrentConversation
                 (VObject (set_field "title" title (own_entries (App.currentConversation r)))) s))
    as (Hs & _). rewrite Hs. fields s.
Qed.

Lemma apply_effects_stage (r : App.state) (listing : completion value) (t : list effect)
  (s : App.state) :
  stage_state (App.apply_effects r listing t s)
  = (last_stage1 t (App.stage1Results s),
     fst (last_stage2 t (App.stage2Results s, App.metadata s)),
     snd (last_stage2 t (App.stage2Results s, App.metadata s)),
     last_stage3 t (App.stage3Result s),
     last_marker t (App.currentStage s)).
Proof.
  revert s. induction t as [|e t IH]; intros s; [reflexivity|].
  unfold App.apply_effects in *. cbn [List.fold_left]. rewrite IH.
  pose proof (apply_effect_stage r listing e s) as He.
  unfold stage_state in He. injection He as H1 H2 Hm H3 Hc.
  rewrite H1, H2, Hm, H3, Hc. destruct e; reflexivity.
Qed.

Lemma stage_state_fields (s : App.state) (a b m c : value) (k : option nat) :
  stage_state s = (a, b, m, c, k) ->
  App.stage1Results s = a /\ App.stage2Results s = b /\ App.metadata s = m
  /\ App.stage3Result s = c /\ App.currentStage s = k.
Proof. unfold stage_state. intros H. injection H as -> -> -> -> ->. now repeat split. Qed.

Lemma sendMessage_begin_stage (r s s1 : App.state) :
  App.sendMessage_begin r s = Normal s1 ->
  stage_state s1 = (VNull, VNull, VNull, VNull, Some 1).
Proof.
  unfold App.sendMessage_begin. destruct (iterate (App.messages r)); cbn [bind]; [|discriminate].
  intros H. injection H as <-.
  unfold App.clearPdfState. cbn [App.fileInput App.setPdfFilename App.setPdfData
    App.resetCouncilState App.setActiveTab App.setCurrentStage App.setMetadata
    App.setStage3Result App.setStage2Results App.setStage1Results App.setMessages
    App.setLoading App.setInput].
  destruct (App.fileInput s); reflexivity.
Qed.

Lemma sendMessage_end_keeps_stage (result : completion unit) (s : App.state) :
  stage_state (App.sendMessage_end result s) = stage_state s.
Proof. destruct result; fields s. Qed.

(** C2, as the code has it. The callbacks keep no record of where the
    turn stands: every stage event that is dispatched is applied. After
    any sequence of events, from any state, each stored result is the
    payload of the last event of its stage (or what was stored before, if
    there was none), and the stage marker is the one the last stage event
    leaves: 2 after stage 1, 3 after stage 2, none after stage 3. For a
    whole turn this starts from empty results and the marker 1, over the
    events of the turn's stream in the order of their frames. *)
Theorem stage_events_are_always_applied
  (API_BASE : string) (authToken : value) (fetch : request -> outcome)
  (r s s' from : App.state) (listing : completion value) (t : list effect)
  (Hsent : App.sendMessage_refused r = false)
  (Hturn : App.sendMessage API_BASE authToken fetch r s = Normal s') :
  (App.stage1Results (App.apply_effects r listing t from)
   = last_stage1 t (App.stage1Results from)
   /\ (App.stage2Results (App.apply_effects r listing t from),
       App.metadata (App.apply_effects r listing t from))
      = last_stage2 t (App.stage2Results from, App.metadata from)
   /\ App.stage3Result (App.apply_effects r listing t from)
      = last_stage3 t (App.stage3Result from)
   /\ App.currentStage (App.apply_effects r listing t from)
      = last_marker t (App.currentStage from))
  /\ (App.stage1Results s' = last_stage1 (fst (App.stream_of API_BASE authToken fetch r)) VNull
      /\ (App.stage2Results s', App.metadata s')
         = last_stage2 (fst (App.stream_of API_BASE authToken fetch r)) (VNull, VNull)
      /\ App.stage3Result s' = last_stage3 (fst (App.stream_of API_BASE authToken fetch r)) VNull
      /\ App.currentStage s'
         = last_marker (fst (App.stream_of API_BASE authToken fetch r)) (Some 1)).
Proof.
  split.
  - pose proof (apply_effects_stage r listing t from) as H.
    unfold stage_state in H. injection H as H1 H2 Hm H3 Hc.
    rewrite H1, H2, Hm, H3, Hc.
    now destruct (last_stage2 t (App.stage2Results from, App.metadata from)).
  - unfold App.sendMessage in Hturn. rewrite Hsent in Hturn.
    destruct (App.sendMessage_begin r s) as [s1|e] eqn:Hbegin; cbn [bind] in Hturn;
      [|discriminate].
    destruct (App.stream_of API_BASE authToken fetch r) as [effects outcome].
    injection Hturn as <-. cbn [fst].
    assert (Hend :
      stage_state
        (App.sendMessage_end outcome
           (App.apply_effects r (Api.listConversations API_BASE authToken fetch) effects s1))
      = (last_stage1 effects VNull,
         fst (last_stage2 effects (VNull, VNull)),
         snd (last_stage2 effects (VNull, VNull)),
         last_stage3 effects VNull,
         last_marker effects (Some 1))).
    { rewrite sendMessage_end_keeps_stage, apply_effects_stage.
      pose proof (sendMessage_begin_stage r s s1 Hbegin) as H1.
      unfold stage_state in H1. injection H1 as E1 E2 Em E3 Ec.
      now rewrite E1, E2, Em, E3, Ec. }
    destruct (stage_state_fields _ _ _ _ _ _ Hend) as (F1 & F2 & Fm & F3 & Fc).
    rewrite F1, F2, Fm, F3, Fc.
    now destruct (last_stage2 effects (VNull, VNull)).
Qed.

(** A turn whose stream carries stage 1, stage 2 and stage 1 again: the
    second stage-1 payload is the one stored. *)
Lemma stage_events_are_always_applied_witness :
  App.stage1Results repeated_turn_done
  = last_stage1 (fst (App.stream_of localhost VNull repeated_backend ready)) VNull
  /\ last_stage1 (fst (App.stream_of localhost VNull repeated_backend ready)) VNull
     = VArray [VString "second"]
  /\ App.currentStage repeated_turn_done = Some 2.
Proof.
  destruct (stage_events_are_always_applied localhost VNull repeated_backend
              ready ready repeated_turn_done ready (Normal (VArray [])) []%list)
    as (_ & H1 & _ & _ & Hc).
  - vm_compute. reflexivity.
  - vm_compute. reflexivity.
  - split; [exact H1|]. split; [vm_compute; reflexivity|].
    rewrite Hc. vm_compute. reflexivity.
Defined.

(** C2 as the specification states it fails. A turn whose stream carries
    stage 1, stage 2 and then stage 1 again ends with the second stage-1
    payload stored and the marker back at 2; and a stage-1 event applied
    to the idle component (no turn at all) is stored as well. *)
Lemma repeated_stage_event_is_applied :
  fst (App.stream_of localhost VNull repeated_backend ready)
  = [OnStage1 (VArray [VString "first"]);
     OnStage2 (VArray [VString "review"])
       (VObject [("n", VNumber (Number false 1 0))]);
     OnStage1 (VArray [VString "second"])]
  /\ App.sendMessage localhost VNull repeated_backend ready ready = Normal repeated_turn_done
  /\ App.stage1Results repeated_turn_done = VArray [VString "second"]
  /\ App.stage2Results repeated_turn_done = VArray [VString "review"]
  /\ App.currentStage repeated_turn_done = Some 2
  /\ App.currentStage App.initial = None
  /\ App.stage1Results (App.onStage1 (VArray [VString "first"]) App.initial)
     = VArray [VString "first"].
Proof. repeat split; vm_compute; reflexivity. Qed.

Lemma selectConversation_keeps_loading (fetched : completion value) (s : App.state) :
  App.loading (App.selectConversation_then fetched s) = App.loading s.
Proof.
  unfold App.selectConversation_then. destruct fetched as [fullConv|e]; [|fields s].
  destruct (get fullConv "messages"); [|fields s].
  unfold App.clearPdfState. cbn [App.fileInput App.setPdfFilename App.setPdfData
    App.resetCouncilState App.setActiveTab App.setCurrentStage App.setMetadata
    App.setStage3Result App.setStage2Results App.setStage1Results App.setMessages
    App.setCurrentConversation].
  destruct (App.fileInput s); reflexivity.
Qed.

Lemma createNewConversation_keeps_loading (created : completion value) (r s : App.state) :
  App.loading (App.createNewConversation_then created r s) = App.loading s.
Proof.
  unfold App.createNewConversation_then.
  destruct (bind created _) as [[conv rest]|e]; [|fields s].
  unfold App.clearPdfState. cbn [App.fileInput App.setPdfFilename App.setPdfData
    App.resetCouncilState App.setActiveTab App.setCurrentStage App.setMetadata
    App.setStage3Result App.setStage2Results App.setStage1Results App.setMessages
    App.setCurrentConversation App.setConversations].
  destruct (App.fileInput s); reflexivity.
Qed.

Lemma sendMessage_begin_sets_loading (r s : App.state) :
  match App.sendMessage_begin r s with
  | Normal s1 => App.loading s1 = true
  | Throw _ => True
  end.
Proof.
  unfold App.sendMessage_begin. destruct (iterate (App.messages r)); cbn [bind]; [|exact I].
  unfold App.clearPdfState. cbn [App.fileInput App.setPdfFilename App.setPdfData
    App.resetCouncilState App.setActiveTab App.setCurrentStage App.setMetadata
    App.setStage3Result App.setStage2Results App.setStage1Results App.setMessages
    App.setLoading App.setInput].
  destruct (App.fileInput s); reflexivity.
Qed.

Lemma selectConversation_resets (fields : list (string * value)) (s : App.state) :
  stage_state (App.selectConversation_then (Normal (VObject fields)) s)
  = (VNull, VNull, VNull, VNull, None)
  /\ App.currentConversation (App.selectConversation_then (Normal (VObject fields)) s)
     = VObject fields.
Proof.
  unfold App.selectConversation_then. cbn [get]. unfold App.clearPdfState.
  cbn [App.fileInput App.setPdfFilename App.setPdfData
    App.resetCouncilState App.setActiveTab App.setCurrentStage App.setMetadata
    App.setStage3Result App.setStage2Results App.setStage1Results App.setMessages
    App.setCurrentConversation].
  destruct (App.fileInput s); split; reflexivity.
Qed.

(** C3, as the code has it. There is no stream token. A send from a
    render in which [loading] is set returns at once and changes nothing;
    [loading] is set when a turn begins, and neither a switch, nor a new
    conversation, nor an event of a stream clears it. A switch resets the
    stage state when the conversation arrives; it does not detach the
    open stream: an event of the earlier turn that comes after a switch
    or after a new conversation is applied like any other (a stage-1
    event stores its payload and moves the marker to 2, whatever the
    component holds; a title event puts the earlier conversation back
    with the new title). No event of any stream changes the message
    history. *)
Theorem events_of_an_earlier_turn_are_applied
  (API_BASE : string) (authToken : value) (fetch : request -> outcome)
  (r s : App.state) (listing : completion value) (conv : value)
  (data title : value) (e : effect) :
  App.sendMessage API_BASE authToken fetch (App.setLoading true r) s = Normal s
  /\ match App.sendMessage_begin r s with
     | Normal s1 => App.loading s1 = true
     | Throw _ => True
     end
  /\ App.loading (App.selectConversation API_BASE authToken fetch conv s) = App.loading s
  /\ App.loading (App.createNewConversation API_BASE authToken fetch r s) = App.loading s
  /\ App.loading (App.apply_effect r listing e s) = App.loading s
  /\ (forall fields : list (string * value),
        bind (get conv "id") (Api.getConversation API_BASE authToken fetch)
        = Normal (VObject fields) ->
        stage_state (App.selectConversation API_BASE authToken fetch conv s)
        = (VNull, VNull, VNull, VNull, None)
        /\ App.currentConversation (App.selectConversation API_BASE authToken fetch conv s)
           = VObject fields
        /\ stage_state (App.apply_effect r listing (OnStage1 data)
                          (App.selectConversation API_BASE authToken fetch conv s))
           = (data, VNull, VNull, VNull, Some 2)
        /\ App.currentConversation
             (App.apply_effect r listing (OnStage1 data)
                (App.selectConversation API_BASE authToken fetch conv s))
           = VObject fields)
  /\ (App.stage1Results (App.apply_effect r listing (OnStage1 data) s),
      App.currentStage (App.apply_effect r listing (OnStage1 data) s))
     = (data, Some 2)
  /\ App.currentConversation (App.apply_effect r listing (OnTitleUpdate title) s)
     = VObject (set_field "title" title (own_entries (App.currentConversation r)))
  /\ App.messages (App.apply_effect r listing e s) = App.messages s.
Proof.
  split.
  { unfold App.sendMessage, App.sendMessage_refused.
    replace (App.loading (App.setLoading true r)) with true by (now destruct r).
    now rewrite !Bool.orb_true_r. }
  split; [apply sendMessage_begin_sets_loading|].
  split; [apply selectConversation_keeps_loading|].
  split; [apply createNewConversation_keeps_loading|].
  split; [apply apply_effect_keeps|].
  split.
  { intros fields Hopened. unfold App.selectConversation. rewrite Hopened.
    destruct (selectConversation_resets fields s) as [Hreset Hcurrent].
    split; [exact Hreset|]. split; [exact Hcurrent|].
    unfold App.selectConversation_then. cbn [get]. unfold App.clearPdfState.
    cbn [App.fileInput App.setPdfFilename App.setPdfData
      App.resetCouncilState App.setActiveTab App.setCurrentStage App.setMetadata
      App.setStage3Result App.setStage2Results App.setStage1Results App.setMessages
      App.setCurrentConversation].
    destruct (App.fileInput s); split; reflexivity. }
  split; [now destruct s|].
  split; [|apply apply_effect_keeps].
  cbn [App.apply_effect]. unfold App.onTitleUpdate.
  destruct (loadConversations_keeps listing
              (App.setCurrentConversation
                 (VObject (set_field "title" title (own_entries (App.currentConversation r))))
                 s))
    as (_ & _ & _ & _ & Hc).
  rewrite Hc. now destruct s.
Qed.

(** The turn of conversation A is open when conversation B is opened;
    then the stage-1 event of A arrives. *)
Lemma events_of_an_earlier_turn_are_applied_witness :
  bind (get conversation_b "id") (Api.getConversation localhost VNull backend)
  = Normal conversation_b
  /\ stage_state
       (App.apply_effect ready (Normal (VArray [])) (OnStage1 (VArray [VString "first"]))
          (App.selectConversation localhost VNull backend conversation_b turn_begun))
     = (VArray [VString "first"], VNull, VNull, VNull, Some 2).
Proof.
  split; [vm_compute; reflexivity|].
  destruct (events_of_an_earlier_turn_are_applied localhost VNull backend ready turn_begun
              (Normal (VArray [])) conversation_b
              (VArray [VString "first"]) VNull (Alert ""))
    as (_ & _ & _ & _ & _ & H & _).
  destruct (H [("id", VString "b"); ("title", VString "B"); ("messages", VArray [])])
    as (_ & _ & Hstage & _).
  - vm_compute. reflexivity.
  - exact Hstage.
Defined.

(** C3 as the specification states it fails. The turn of conversation A
    is under way when the user opens conversation B; the stage state is
    reset. Then the stage-1 event of A arrives: it is stored and the
    marker moves to 2, under conversation B. *)
Lemma stale_stage_event_is_applied :
  App.loading turn_begun = true
  /\ App.currentConversation
       (App.selectConversation localhost VNull backend conversation_b turn_begun)
     = conversation_b
  /\ stage_state (App.selectConversation localhost VNull backend conversation_b turn_begun)
     = (VNull, VNull, VNull, VNull, None)
  /\ stage_state
       (App.apply_effect ready (Normal (VArray [])) (OnStage1 (VArray [VString "first"]))
          (App.selectConversation localhost VNull backend conversation_b turn_begun))
     = (VArray [VString "first"], VNull, VNull, VNull, Some 2)
  /\ App.currentConversation
       (App.apply_effect ready (Normal (VArray [])) (OnStage1 (VArray [VString "first"]))
          (App.selectConversation localhost VNull backend conversation_b turn_begun))
     = conversation_b.
Proof. repeat split; vm_compute; reflexivity. Qed.

End Stages.

(** ** C9. The staged attachment *)

Module Attachments.
Import JS Http Trace Sample Notions Cases.



Lemma sendMessage_begin_clears (r s s1 : App.state) :
  App.sendMessage_begin r s = Normal s1 -> attachment s1 = (VNull, VNull).
Proof.
  unfold App.sendMessage_begin. destruct (iterate (App.messages r)); cbn [bind]; [|discriminate].
  intros H. injection H as <-.
  unfold App.clearPdfState. cbn [App.fileInput App.setPdfFilename App.setPdfData
    App.resetCouncilState App.setActiveTab App.setCurrentStage App.setMetadata
    App.setStage3Result App.setStage2Results App.setStage1Results App.setMessages
    App.setLoading App.setInput].
  destruct (App.fileInput s); reflexivity.
Qed.



End Attachments.

(** ** C10. The text of a stored assistant message *)

Module ResponseText.
Import JS Http Trace Sample Notions.

Lemma get_opt_truthy (v : value) (key : string) :
  truthy (get_opt v key) = true -> get v key = Normal (prop v key).
Proof. destruct v; cbn [get_opt get truthy]; intros H; try reflexivity; discriminate. Qed.

Lemma prop_truthy_is_object (v : value) (key : string) :
  truthy (prop v key) = true -> exists fields, v = VObject fields.
Proof.
  destruct v; cbn [prop truthy]; intros H; try discriminate. now exists fields.
Qed.

Lemma get_opt_truthy_is_object (v : value) (key : string) :
  truthy (get_opt v key) = true -> exists fields, v = VObject fields.
Proof.
  destruct v; cbn [get_opt prop truthy]; intros H; try discriminate. now exists fields.
Qed.

(** [getAssistantResponseText] never throws. *)
Lemma getAssistantResponseText_total (content : value) :
  exists v, App.getAssistantResponseText content = Normal v.
Proof.
  unfold App.getAssistantResponseText.
  destruct (truthy content) eqn:Htruthy; cbn [negb]; [|eauto].
  destruct content as [| |b|n|s|items|fields]; try discriminate; eauto.
  - cbn [get bind prop get_opt truthy]. eauto.
  - cbn [get bind prop get_opt]. change (truthy VUndefined) with false. cbv iota. eauto.
  - cbn [get bind prop get_opt]. change (truthy VUndefined) with false. cbv iota.
    destruct (truthy (get_opt (last_item items) "response")) eqn:Hlast; [|eauto].
    rewrite (get_opt_truthy _ _ Hlast). eauto.
  - cbn [get bind].
    destruct (truthy (get_opt (prop (VObject fields) "stage3") "response")) eqn:H3.
    + rewrite (get_opt_truthy _ _ H3). eauto.
    + destruct (truthy (prop (VObject fields) "response")); eauto.
Qed.

(** C10, as the code has it. [getAssistantResponseText] never throws.
    A falsy content (null, undefined, the empty string, false, zero) gives
    'No response'; a non-empty string is returned as it is; a content
    whose [stage3.response] is truthy gives that field; otherwise one
    whose [response] is truthy gives that field; otherwise an array whose
    last element has a truthy [response] gives that field; any other
    content gives 'Response format not recognized'. The field is returned
    as it is stored, so the result is a string whenever the field is. *)
Theorem response_text_cases
  (falsy fresh flat other : value) (c : ascii) (s : string) (items : list value)
  (Hfalsy : truthy falsy = false)
  (Hfresh : truthy (get_opt (prop fresh "stage3") "response") = true)
  (Hflat3 : truthy (get_opt (prop flat "stage3") "response") = false)
  (Hflat : truthy (prop flat "response") = true)
  (Hitems : truthy (get_opt (last_item items) "response") = true)
  (Hother : truthy other = true)
  (Hother_string : forall t, other <> VString t)
  (Hother3 : truthy (get_opt (prop other "stage3") "response") = false)
  (Hother_response : truthy (prop other "response") = false)
  (Hother_last : forall elements,
      other = VArray elements -> truthy (get_opt (last_item elements) "response") = false) :
  (forall content, exists v, App.getAssistantResponseText content = Normal v)
  /\ App.getAssistantResponseText falsy = Normal (VString "No response")
  /\ App.getAssistantResponseText (VString (String c s)) = Normal (VString (String c s))
  /\ App.getAssistantResponseText fresh = Normal (prop (prop fresh "stage3") "response")
  /\ App.getAssistantResponseText flat = Normal (prop flat "response")
  /\ App.getAssistantResponseText (VArray items) = Normal (prop (last_item items) "response")
  /\ App.getAssistantResponseText other = Normal (VString "Response format not recognized").
Proof.
  split; [exact getAssistantResponseText_total|].
  split.
  { unfold App.getAssistantResponseText. now rewrite Hfalsy. }
  split; [reflexivity|].
  split.
  { destruct (get_opt_truthy_is_object _ _ Hfresh) as [stage3 Hstage3].
    destruct (prop_truthy_is_object fresh "stage3") as [fields ->].
    { now rewrite Hstage3. }
    unfold App.getAssistantResponseText. cbn [truthy negb get bind].
    rewrite Hfresh. now rewrite (get_opt_truthy _ _ Hfresh). }
  split.
  { destruct (prop_truthy_is_object _ _ Hflat) as [fields ->].
    unfold App.getAssistantResponseText. cbn [truthy negb get bind].
    now rewrite Hflat3, Hflat. }
  split.
  { unfold App.getAssistantResponseText.
    cbn [truthy negb get bind prop get_opt]. rewrite Hitems.
    now rewrite (get_opt_truthy _ _ Hitems). }
  unfold App.getAssistantResponseText. rewrite Hother. cbn [negb].
  destruct other as [| |b|n|t|elements|fields]; try discriminate;
    try reflexivity; cbn [get bind].
  - now destruct (Hother_string t).
  - rewrite Hother3, Hother_response. now rewrite (Hother_last elements eq_refl).
  - now rewrite Hother3, Hother_response.
Qed.

(** The empty string and zero; a text; a message with stage data; a flat
    message; the old list format; an empty list. *)
Lemma response_text_cases_witness :
  App.getAssistantResponseText VNull = Normal (VString "No response")
  /\ App.getAssistantResponseText (VString "hello") = Normal (VString "hello")
  /\ App.getAssistantResponseText
       (VObject [("stage3", VObject [("response", VString "final")]);
                 ("response", VString "flat")])
     = Normal (VString "final")
  /\ App.getAssistantResponseText
       (VObject [("stage3", VNull); ("response", VString "flat")])
     = Normal (VString "flat")
  /\ App.getAssistantResponseText
       (VArray [VString "draft"; VObject [("response", VString "last")]])
     = Normal (VString "last")
  /\ App.getAssistantResponseText (VArray []) = Normal (VString "Response format not recognized").
Proof.
  apply (response_text_cases VNull
           (VObject [("stage3", VObject [("response", VString "final")]);
                     ("response", VString "flat")])
           (VObject [("stage3", VNull); ("response", VString "flat")])
           (VArray []) "h"%char "ello"
           [VString "draft"; VObject [("response", VString "last")]]).
  - reflexivity.
  - reflexivity.
  - reflexivity.
  - reflexivity.
  - reflexivity.
  - reflexivity.
  - discriminate.
  - reflexivity.
  - reflexivity.
  - intros elements H. injection H as <-. reflexivity.
Defined.

(** C10 as the specification states it fails: the empty string is not
    returned unchanged, zero and false are not answered with 'Response
    format not recognized', and a [response] that is a number is
    returned as a number. *)
Lemma empty_string_is_no_response :
  App.getAssistantResponseText (VString "") = Normal (VString "No response")
  /\ App.getAssistantResponseText (VBool false) = Normal (VString "No response")
  /\ App.getAssistantResponseText (VNumber (Number false 0 0)) = Normal (VString "No response")
  /\ App.getAssistantResponseText (VObject [("response", VNumber (Number false 5 0))])
     = Normal (VNumber (Number false 5 0)).
Proof. repeat split; vm_compute; reflexivity. Qed.

End ResponseText.

(** ** C7, C8. The session *)

Module Sessions.
Import JS Http Trace Sample Notions.

Lemma open_session_failure (answer : completion value) (s s' : Auth.session) (e : error) :
  Auth.open_session answer s = (s', Throw e) -> s' = s.
Proof.
  unfold Auth.open_session.
  destruct (bind answer _) as [[response access_token]|err]; intros H; now injection H.
Qed.

Lemma open_session_of_throw (x : error) (s : Auth.session) :
  Auth.open_session (Throw x) s = (s, Throw x).
Proof. reflexivity. Qed.

Lemma status_line_mentions_server_error (rest : string) :
  Str.includes ("Server error: " ++ rest) "Server error" = true.
Proof. reflexivity. Qed.

(** What the outer [catch] lets out: the error it caught, or the
    cannot-connect error. *)
Lemma credentials_catch_cases (API_BASE : string) (e : error) :
  (Api.credentials_catch API_BASE e = Throw e
   /\ Str.includes (err_message e) "Server error" = false)
  \/ Api.credentials_catch API_BASE e = Throw (Api.cannot_connect API_BASE).
Proof.
  unfold Api.credentials_catch.
  destruct (Str.is_empty (err_message e)); cbn [negb andb]; [now right|].
  destruct (Str.includes (err_message e) "Server error"); cbn [negb]; [now right | now left].
Qed.

(** The error of a call that the server answers with a status that is
    not a success. *)
Lemma rejected_credentials
  (API_BASE : string) (fetch : request -> outcome) (path : string) (body : value)
  (default : string) (response : Http.response) (e : error) :
  fetch (Request (API_BASE ++ path) "POST" Api.json_headers (Some body)) = Responded response ->
  ok response = false ->
  Api.credentials_call API_BASE fetch path body default = Throw e ->
  (exists answer detail,
      Http.json response = Normal answer
      /\ get answer "detail" = Normal detail
      /\ truthy detail = true
      /\ e = new_Error detail)
  \/ e = new_Error (VString default)
  \/ e = Api.cannot_connect API_BASE.
Proof.
  intros Hfetch Hok. unfold Api.credentials_call. rewrite Hfetch, Hok. cbn [negb].
  destruct (credentials_catch_cases API_BASE
              (new_Error (Api.rejection_message response default))) as [[-> Hserver] | ->];
    intros H; injection H as <-; [|now right; right].
  unfold Api.rejection_message in *.
  destruct (Http.json response) as [answer|err]; cbn [bind] in *.
  - destruct (get answer "detail") as [detail|err] eqn:Hdetail.
    + unfold or_else. destruct (truthy detail) eqn:Htruthy.
      * left. now exists answer, detail.
      * right. now left.
    + cbn [new_Error ToString err_message] in Hserver.
      now rewrite status_line_mentions_server_error in Hserver.
  - cbn [new_Error ToString err_message] in Hserver.
    now rewrite status_line_mentions_server_error in Hserver.
Qed.

Lemma failed_call_of_credentials
  (API_BASE : string) (fetch : request -> outcome) (path : string) (body : value)
  (default : string) (s s' : Auth.session) (e : error) :
  Auth.open_session (Api.credentials_call API_BASE fetch path body default) s
  = (s', Throw e) ->
  s' = s
  /\ forall response,
       fetch (Request (API_BASE ++ path) "POST" Api.json_headers (Some body))
       = Responded response ->
       ok response = false ->
       (exists answer detail,
           Http.json response = Normal answer
           /\ get answer "detail" = Normal detail
           /\ truthy detail = true
           /\ e = new_Error detail)
       \/ e = new_Error (VString default)
       \/ e = Api.cannot_connect API_BASE.
Proof.
  intros Hcall. split; [exact (open_session_failure _ _ _ _ Hcall)|].
  intros response Hfetch Hok.
  destruct (Api.credentials_call API_BASE fetch path body default) as [answer|err] eqn:Hcalled.
  - unfold Api.credentials_call in Hcalled. rewrite Hfetch, Hok in Hcalled.
    cbn [negb] in Hcalled.
    destruct (credentials_catch_cases API_BASE
                (new_Error (Api.rejection_message response default)))
      as [[H _] | H]; rewrite H in Hcalled; discriminate.
  - rewrite open_session_of_throw in Hcall. injection Hcall as _ <-.
    exact (rejected_credentials _ _ _ _ _ _ _ Hfetch Hok Hcalled).
Qed.

(** C7, as the code has it. A [login] that fails leaves the persisted
    token, the client's token and the user as they were, and so does a
    [register] that fails, each whatever the other would do. When the
    failure is an answer of the server with a status that is not a
    success and a JSON body that has a [detail], the error carries the
    text of the [detail] (stated here for a [detail] that is not an
    object); when the body has no [detail], or a falsy one, it carries
    the default message of the call; otherwise it carries the message
    that the server cannot be reached. *)
Theorem failed_credentials_keep_the_session
  (API_BASE : string) (fetch : request -> outcome) (username email password : value)
  (s : Auth.session) :
  (forall (s1 : Auth.session) (e1 : error),
     Auth.login API_BASE fetch username password s = (s1, Throw e1) ->
     s1 = s
     /\ forall response,
          fetch (Request (API_BASE ++ "/api/auth/login") "POST" Api.json_headers
                   (Some (VObject [("username", username); ("password", password)])))
          = Responded response ->
          ok response = false ->
          (exists answer detail,
              Http.json response = Normal answer
              /\ get answer "detail" = Normal detail
              /\ truthy detail = true
              /\ (is_object detail = false -> e1 = new_Error detail))
          \/ e1 = new_Error (VString "Failed to login")
          \/ e1 = Api.cannot_connect API_BASE)
  /\ (forall (s2 : Auth.session) (e2 : error),
        Auth.register API_BASE fetch username email password s = (s2, Throw e2) ->
        s2 = s
        /\ forall response,
             fetch (Request (API_BASE ++ "/api/auth/register") "POST" Api.json_headers
                      (Some (VObject [("username", username); ("email", email);
                                      ("password", password)])))
             = Responded response ->
             ok response = false ->
             (exists answer detail,
                 Http.json response = Normal answer
                 /\ get answer "detail" = Normal detail
                 /\ truthy detail = true
                 /\ (is_object detail = false -> e2 = new_Error detail))
             \/ e2 = new_Error (VString "Failed to register")
             \/ e2 = Api.cannot_connect API_BASE).
Proof.
  split.
  - intros s1 e1 Hlogin. unfold Auth.login, Api.login in Hlogin.
    destruct (failed_call_of_credentials _ _ _ _ _ _ _ _ Hlogin) as [Hsame Hmessage].
    split; [exact Hsame|]. intros response Hfetch Hok.
    destruct (Hmessage response Hfetch Hok)
      as [(answer & detail & Hjson & Hdetail & Htruthy & He) | [He | He]].
    + left. exists answer, detail. now repeat split.
    + right. now left.
    + right. now right.
  - intros s2 e2 Hregister. unfold Auth.register, Api.register in Hregister.
    destruct (failed_call_of_credentials _ _ _ _ _ _ _ _ Hregister) as [Hsame Hmessage].
    split; [exact Hsame|]. intros response Hfetch Hok.
    destruct (Hmessage response Hfetch Hok)
      as [(answer & detail & Hjson & Hdetail & Htruthy & He) | [He | He]].
    + left. exists answer, detail. now repeat split.
    + right. now left.
    + right. now right.
Qed.

(** A backend that turns a login down with a reason, and knows nothing of
    registration: the session of an earlier login stays, and the error
    carries the reason. *)
Lemma failed_credentials_keep_the_session_witness :
  Auth.login localhost (turning_down "Incorrect username or password")
    (VString "ann") (VString "pw") (Auth.Session (Some "t0") (VString "t0") (VString "bob") false)
  = (Auth.Session (Some "t0") (VString "t0") (VString "bob") false,
     Throw (Err "Error" "Incorrect username or password"))
  /\ ((exists answer detail,
         Http.json (Response 401 "Unauthorized"
                      [json "{'detail':'Incorrect username or password'}"] None)
         = Normal answer
         /\ get answer "detail" = Normal detail
         /\ truthy detail = true
         /\ (is_object detail = false ->
             Err "Error" "Incorrect username or password" = new_Error detail))
      \/ Err "Error" "Incorrect username or password" = new_Error (VString "Failed to login")
      \/ Err "Error" "Incorrect username or password" = Api.cannot_connect localhost).
Proof.
  split; [vm_compute; reflexivity|].
  destruct (failed_credentials_keep_the_session localhost
              (turning_down "Incorrect username or password")
              (VString "ann") (VString "ann@example.org") (VString "pw")
              (Auth.Session (Some "t0") (VString "t0") (VString "bob") false))
    as (Hlogin & _).
  destruct (Hlogin (Auth.Session (Some "t0") (VString "t0") (VString "bob") false)
              (Err "Error" "Incorrect username or password"))
    as (_ & Hmessage).
  - vm_compute. reflexivity.
  - apply Hmessage; reflexivity.
Defined.

(** C7 as the specification states it fails: the server turns the login
    down with a JSON body that has no [detail]; the error carries neither
    a detail of the server nor the cannot-connect message, but the default
    'Failed to login'. *)
Lemma rejection_without_detail :
  Auth.login localhost (answering 401 "Unauthorized" "{}")
    (VString "ann") (VString "pw") (Auth.mount None)
  = (Auth.mount None, Throw (Err "Error" "Failed to login"))
  /\ Http.json (Response 401 "Unauthorized" ["{}"%string] None) = Normal (VObject [])
  /\ Err "Error" "Failed to login" <> Api.cannot_connect localhost.
Proof. repeat split; try (vm_compute; reflexivity). discriminate. Qed.

(** When [fetch] itself rejects, the [catch] of [login] finds a message
    on the error and throws the same error again: the caller gets the
    browser's message, not the cannot-connect one. The session is left as
    it was. *)
Lemma unreachable_backend_error :
  Auth.login localhost unreachable (VString "ann") (VString "pw") (Auth.mount None)
  = (Auth.mount None, Throw (Err "TypeError" "Failed to fetch"))
  /\ Auth.register localhost unreachable (VString "ann") (VString "ann@example.org")
       (VString "pw") (Auth.mount None)
     = (Auth.mount None, Throw (Err "TypeError" "Failed to fetch")).
Proof. split; reflexivity. Qed.

(** A server that turns the token down. *)
Lemma getCurrentUser_turned_down
  (API_BASE : string) (authToken : value) (fetch : request -> outcome)
  (response : Http.response) :
  fetch (Request (API_BASE ++ "/api/auth/me") "GET" (Api.getAuthHeaders authToken) None)
  = Responded response ->
  ok response = false ->
  Api.getCurrentUser API_BASE authToken fetch
  = Throw (Err "Error" "Failed to fetch user info").
Proof. intros Hfetch Hok. unfold Api.getCurrentUser. now rewrite Hfetch, Hok. Qed.

(** C8, as the code has it. With a non-empty token in storage: if the
    check of the token fails (the server turns it down, or cannot be
    reached, or answers no JSON) the item is removed, the client's token
    is cleared, the user stays unset and loading is over; if the check
    succeeds the item stays, the client holds the token and the user is
    the one the server named. With no token in storage only loading
    changes. [restore] has no way to throw. *)
Theorem restore_outcomes
  (API_BASE : string) (failing passing : request -> outcome)
  (expired valid : string) (e : error) (userData : value)
  (Hexpired : expired <> ""%string)
  (Hvalid : valid <> ""%string)
  (Hfailing : Api.getCurrentUser API_BASE (VString expired) failing = Throw e)
  (Hpassing : Api.getCurrentUser API_BASE (VString valid) passing = Normal userData) :
  Auth.restore API_BASE failing (Auth.mount (Some expired))
  = Auth.Session None VNull VNull false
  /\ Auth.restore API_BASE passing (Auth.mount (Some valid))
     = Auth.Session (Some valid) (VString valid) userData false
  /\ Auth.restore API_BASE failing (Auth.mount None) = Auth.Session None VNull VNull false.
Proof.
  unfold Auth.restore, Auth.mount. cbn [Auth.stored_token].
  destruct expired as [|c1 t1]; [congruence|]. destruct valid as [|c2 t2]; [congruence|].
  cbn [Str.is_empty negb Auth.setToken Auth.api_token Auth.stored_token Auth.user Auth.loading].
  rewrite Hfailing, Hpassing. repeat split.
Qed.

(** An expired token that the server answers with 401, and a good one
    that it answers with the user. *)
Lemma restore_outcomes_witness :
  Auth.restore localhost (turning_down "Token expired") (Auth.mount (Some "old"))
  = Auth.Session None VNull VNull false
  /\ Auth.restore localhost (answering 200 "OK" (json "{'username':'ann'}"))
       (Auth.mount (Some "good"))
     = Auth.Session (Some "good") (VString "good") (VObject [("username", VString "ann")]) false
  /\ Auth.restore localhost (turning_down "Token expired") (Auth.mount None)
     = Auth.Session None VNull VNull false.
Proof.
  apply (restore_outcomes localhost (turning_down "Token expired")
           (answering 200 "OK" (json "{'username':'ann'}")) "old" "good"
           (Err "Error" "Failed to fetch user info")).
  - discriminate.
  - discriminate.
  - vm_compute. reflexivity.
  - vm_compute. reflexivity.
Defined.

(** C8 as the specification states it fails: an empty string in storage
    is read as no token. The server is not asked, the session is empty,
    and the item stays in storage. *)
Lemma empty_token_stays_in_storage :
  Auth.restore localhost (turning_down "Token expired") (Auth.mount (Some ""))
  = Auth.Session (Some "") VNull VNull false.
Proof. reflexivity. Qed.

End Sessions.

(** ** The history of a turn *)

Module Turns.
Import JS Http Trace Sample Notions.

Lemma sendMessage_end_keeps_messages (result : completion unit) (s : App.state) :
  App.messages (App.sendMessage_end result s) = App.messages s.
Proof. destruct result; fields s. Qed.

Lemma sendMessage_begin_messages (r s s1 : App.state) :
  App.sendMessage_begin r s = Normal s1 ->
  exists shown,
    iterate (App.messages r) = Normal shown
    /\ App.messages s1 = VArray (shown ++ [App.displayed_message r]).
Proof.
  unfold App.sendMessage_begin.
  destruct (iterate (App.messages r)) as [shown|e]; cbn [bind]; [|discriminate].
  intros H. injection H as <-. exists shown. split; [reflexivity|].
  unfold App.clearPdfState. cbn [App.fileInput App.setPdfFilename App.setPdfData
    App.resetCouncilState App.setActiveTab App.setCurrentStage App.setMetadata
    App.setStage3Result App.setStage2Results App.setStage1Results App.setMessages
    App.setLoading App.setInput].
  destruct (App.fileInput s); reflexivity.
Qed.

(** Whatever the stream of a turn delivers and however it ends, the
    history after the turn is the history before it and the user's own
    message: the component never appends an assistant message. *)
Lemma turn_appends_the_question_only
  (API_BASE : string) (authToken : value) (fetch : request -> outcome)
  (r s s' : App.state) :
  App.sendMessage_refused r = false ->
  App.sendMessage API_BASE authToken fetch r s = Normal s' ->
  exists shown,
    iterate (App.messages r) = Normal shown
    /\ App.messages s' = VArray (shown ++ [App.displayed_message r]).
Proof.
  intros Hsent Hturn. unfold App.sendMessage in Hturn. rewrite Hsent in Hturn.
  destruct (App.sendMessage_begin r s) as [s1|e] eqn:Hbegin; cbn [bind] in Hturn;
    [|discriminate].
  destruct (App.stream_of API_BASE authToken fetch r) as [effects outcome].
  injection Hturn as <-. rewrite sendMessage_end_keeps_messages.
  destruct (Stages.apply_effects_keeps r (Api.listConversations API_BASE authToken fetch)
              effects s1) as (Hm & _).
  rewrite Hm. exact (sendMessage_begin_messages r s s1 Hbegin).
Qed.

(** The two error frames of C4 in a whole turn. "rate limited" reaches
    the user as an alert and stage 3 is never stored; "Invalid JSON body"
    reaches only the console, no alert is shown, and the stages that
    follow are stored as if nothing had happened. *)
Lemma error_frames_in_a_turn :
  (exists s,
     App.sendMessage "" VNull
       (serving [encode [first_answers; rate_limited_payload; synthesis]] None) ready ready
     = Normal s
     /\ List.filter (fun e => match e with Alert _ => true | _ => false end) (App.journal s)
        = [Alert "Error: rate limited"]
     /\ App.stage3Result s = VNull)
  /\ (exists s,
        App.sendMessage "" VNull
          (serving [encode [first_answers; invalid_json_payload; synthesis]] None) ready ready
        = Normal s
        /\ List.filter (fun e => match e with Alert _ => true | _ => false end) (App.journal s)
           = []%list
        /\ App.stage3Result s = VObject [("response", VString "final")]).
Proof.
  split; eexists; (split; [vm_compute; reflexivity|]); split; reflexivity.
Qed.

End Turns.

(** ** Lines and frames that do nothing *)

Module Lines.
Import JS Http Trace Sample Notions Cases.

Section Loops.

Variable process_line : string -> list effect * control.

Local Abbreviation process_lines := (Reader.process_lines process_line).
Local Abbreviation process_chunk := (Reader.process_chunk process_line).
Local Abbreviation read_loop := (Reader.read_loop process_line).

(** A line that does nothing can be left out of its read. *)
Lemma idle_line (line : string) (before after : list string) :
  process_line line = ([]%list, Next) ->
  process_lines (before ++ line :: after)%list = process_lines (before ++ after)%list.
Proof.
  intros Hline. rewrite !ReaderFacts.process_lines_app.
  cbn [Reader.process_lines]. rewrite Hline.
  destruct (process_lines before) as [e [| |err]]; try reflexivity.
  destruct (process_lines after) as [e' c']. reflexivity.
Qed.

Lemma idle_line_in_a_read (line : string) (before after : list string)
  (chunk chunk' : string) (earlier later : list string) (failure : option error) :
  process_line line = ([]%list, Next) ->
  lines chunk = (before ++ line :: after)%list ->
  lines chunk' = (before ++ after)%list ->
  read_loop (earlier ++ chunk :: later)%list failure
  = read_loop (earlier ++ chunk' :: later)%list failure.
Proof.
  intros Hline Hchunk Hchunk'.
  assert (Hsame : process_chunk chunk = process_chunk chunk').
  { unfold Reader.process_chunk. fold (lines chunk). fold (lines chunk').
    rewrite Hchunk, Hchunk'. now apply idle_line. }
  induction earlier as [|value earlier IH]; cbn [app Reader.read_loop].
  - now rewrite Hsame.
  - now rewrite IH.
Qed.

End Loops.

Lemma unmarked_line (line : string) :
  Str.startsWith line "data: " = false ->
  Api.process_line line = ([]%list, Next) /\ Api0.process_line line = ([]%list, Next).
Proof. intros H. unfold Api.process_line, Api0.process_line. now rewrite H. Qed.

(** X1. A line that does not begin with the marker [data: ] (a blank line,
    a comment, an [event:] field, a [data:] field written without the
    space) is passed over in silence: the callbacks, the console lines and
    the outcome of [sendMessageStream] are those of the stream without the
    line, in the current client and in the earlier one. *)
Theorem unmarked_line_is_ignored
  (API_BASE : string) (authToken conversationId content pdfData pdfFilename : value)
  (line : string) (before after : list string)
  (chunk chunk' : string) (earlier later : list string) (failure : option error)
  (Hline : Str.startsWith line "data: " = false)
  (Hchunk : lines chunk = (before ++ line :: after)%list)
  (Hchunk' : lines chunk' = (before ++ after)%list) :
  Api.sendMessageStream API_BASE authToken
    (serving (earlier ++ chunk :: later)%list failure)
    conversationId content pdfData pdfFilename
  = Api.sendMessageStream API_BASE authToken
      (serving (earlier ++ chunk' :: later)%list failure)
      conversationId content pdfData pdfFilename
  /\ Api0.sendMessageStream API_BASE
       (serving (earlier ++ chunk :: later)%list failure)
       conversationId content pdfData pdfFilename
     = Api0.sendMessageStream API_BASE
         (serving (earlier ++ chunk' :: later)%list failure)
         conversationId content pdfData pdfFilename.
Proof.
  destruct (unmarked_line line Hline) as [Hnew Hold].
  rewrite !Served.sendMessageStream_serving, !Served.sendMessageStream_serving_earlier.
  split.
  - exact (idle_line_in_a_read Api.process_line line before after chunk chunk'
             earlier later failure Hnew Hchunk Hchunk').
  - exact (idle_line_in_a_read Api0.process_line line before after chunk chunk'
             earlier later failure Hold Hchunk Hchunk').
Qed.

(** A stage-1 frame written without the space after the colon, between two
    frames that are well marked: the run is that of the two frames. *)
Lemma unmarked_line_is_ignored_witness :
  Api.sendMessageStream localhost VNull
    (serving ([]%list ++ (frame stage1_payload ++ "data:" ++ first_answers ++ nl
                          ++ frame stage3_payload)%string :: []%list)%list None)
    (VString "c1") (VString "hi") VNull VNull
  = Api.sendMessageStream localhost VNull
      (serving ([]%list ++ encode [stage1_payload; stage3_payload] :: []%list)%list None)
      (VString "c1") (VString "hi") VNull VNull
  /\ Api0.sendMessageStream localhost
       (serving ([]%list ++ (frame stage1_payload ++ "data:" ++ first_answers ++ nl
                             ++ frame stage3_payload)%string :: []%list)%list None)
       (VString "c1") (VString "hi") VNull VNull
     = Api0.sendMessageStream localhost
         (serving ([]%list ++ encode [stage1_payload; stage3_payload] :: []%list)%list None)
         (VString "c1") (VString "hi") VNull VNull.
Proof.
  apply (unmarked_line_is_ignored localhost VNull (VString "c1") (VString "hi") VNull VNull
           ("data:" ++ first_answers)%string
           ["data: " ++ stage1_payload]%string
           ["data: " ++ stage3_payload; ""]%string).
  - vm_compute. reflexivity.
  - vm_compute. reflexivity.
  - vm_compute. reflexivity.
Defined.

(** A frame whose type has no [case]: nothing is called and the loop goes
    on. *)
Lemma untyped_line (data : string) (parsed t : value) :
  JSON.parse data = Normal parsed ->
  get parsed "type" = Normal t ->
  one_of known_types t = false ->
  Api.process_line ("data: " ++ data) = ([]%list, Next).
Proof.
  intros Hparse Htype Hunknown.
  rewrite Frames.process_line_marked.
  destruct (String.eqb_spec data "[DONE]") as [-> | _].
  { vm_compute in Hparse. discriminate. }
  unfold Api.try_frame. rewrite Hparse. unfold Api.dispatch. rewrite Htype.
  unfold one_of, known_types in Hunknown. cbn [List.existsb] in Hunknown.
  repeat (apply Bool.orb_false_elim in Hunknown; destruct Hunknown as [? Hunknown]).
  repeat match goal with H : Api.type_is t _ = false |- _ => rewrite H; clear H end.
  reflexivity.
Qed.

Lemma untyped_line_earlier (data : string) (parsed t : value) :
  JSON.parse data = Normal parsed ->
  get parsed "type" = Normal t ->
  one_of earlier_types t = false ->
  Api0.process_line ("data: " ++ data) = ([]%list, Next).
Proof.
  intros Hparse Htype Hunknown.
  rewrite Frames.process_line_marked_earlier.
  destruct (String.eqb_spec data "[DONE]") as [-> | _].
  { vm_compute in Hparse. discriminate. }
  unfold Api0.try_frame. rewrite Hparse. unfold Api0.dispatch. rewrite Htype.
  unfold one_of, earlier_types in Hunknown. cbn [List.existsb] in Hunknown.
  repeat (apply Bool.orb_false_elim in Hunknown; destruct Hunknown as [? Hunknown]).
  repeat match goal with H : Api.type_is t _ = false |- _ => rewrite H; clear H end.
  reflexivity.
Qed.

(** X2. A frame whose payload is JSON but whose [type] is none of those the
    [switch] knows (a missing [type] included) has no effect at all: no
    callback, no console line, no error, and the run is that of the stream
    without the frame. *)
Theorem unknown_event_is_ignored
  (API_BASE : string) (authToken conversationId content pdfData pdfFilename : value)
  (data : string) (parsed t : value) (before after : list string)
  (chunk chunk' : string) (earlier later : list string) (failure : option error)
  (Hparse : JSON.parse data = Normal parsed)
  (Htype : get parsed "type" = Normal t)
  (Hunknown : one_of known_types t = false)
  (Hchunk : lines chunk = (before ++ ("data: " ++ data)%string :: after)%list)
  (Hchunk' : lines chunk' = (before ++ after)%list) :
  Api.sendMessageStream API_BASE authToken
    (serving (earlier ++ chunk :: later)%list failure)
    conversationId content pdfData pdfFilename
  = Api.sendMessageStream API_BASE authToken
      (serving (earlier ++ chunk' :: later)%list failure)
      conversationId content pdfData pdfFilename.
Proof.
  rewrite !Served.sendMessageStream_serving.
  exact (idle_line_in_a_read Api.process_line _ before after chunk chunk' earlier later
           failure (untyped_line data parsed t Hparse Htype Hunknown) Hchunk Hchunk').
Qed.

Lemma unknown_event_is_ignored_witness :
  Api.sendMessageStream localhost VNull
    (serving ([]%list ++ encode [stage1_start; stage1_payload] :: []%list)%list None)
    (VString "c1") (VString "hi") VNull VNull
  = Api.sendMessageStream localhost VNull
      (serving ([]%list ++ encode [stage1_payload] :: []%list)%list None)
      (VString "c1") (VString "hi") VNull VNull.
Proof.
  apply (unknown_event_is_ignored localhost VNull (VString "c1") (VString "hi") VNull VNull
           stage1_start (VObject [("type", VString "stage1_start")]) (VString "stage1_start")
           []%list ["data: " ++ stage1_payload; ""]%string).
  - vm_compute. reflexivity.
  - reflexivity.
  - vm_compute. reflexivity.
  - vm_compute. reflexivity.
  - vm_compute. reflexivity.
Defined.

End Lines.

(** ** What the stream can throw *)

Module Escapes.
Import JS Http Trace Sample Notions Cases.

Lemma process_line_raises (line : string) (effects : list effect) (e : error) :
  Api.process_line line = (effects, Raise e) -> rethrown e.
Proof.
  unfold Api.process_line.
  destruct (Str.startsWith line "data: "); [|discriminate].
  destruct (String.eqb (Str.slice 6 line) "[DONE]"); [discriminate|].
  destruct (Api.try_frame (Str.slice 6 line)) as [eff [| |err]]; try discriminate.
  unfold Api.catch_frame, rethrown.
  destruct (Str.is_empty (err_message err)) eqn:Hempty;
    destruct (Str.includes (err_message err) "JSON") eqn:Hjson;
    cbn [negb andb]; try discriminate.
  intros H. injection H as _ <-. split; [|exact Hjson].
  intros Hmsg. rewrite Hmsg in Hempty. discriminate.
Qed.

Lemma process_lines_raises (l : list string) (effects : list effect) (e : error) :
  Api.process_lines l = (effects, Raise e) -> rethrown e.
Proof.
  revert effects. unfold Api.process_lines.
  induction l as [|line l IH]; intros effects; cbn [Reader.process_lines]; [discriminate|].
  destruct (Api.process_line line) as [eff [| |err]] eqn:Hline.
  - destruct (Reader.process_lines Api.process_line l) as [eff' c'].
    intros H. injection H as _ ->. now apply (IH eff').
  - discriminate.
  - intros H. injection H as _ <-. exact (process_line_raises line eff err Hline).
Qed.

Lemma read_loop_throws (reads : list string) (failure : option error)
  (effects : list effect) (e : error) :
  Api.read_loop reads failure = (effects, Throw e) -> failure = Some e \/ rethrown e.
Proof.
  revert effects. unfold Api.read_loop.
  induction reads as [|value reads IH]; intros effects; cbn [Reader.read_loop].
  - destruct failure as [f|]; [|discriminate]. intros H. injection H as _ <-. now left.
  - destruct (Reader.process_chunk Api.process_line value) as [eff [| |err]] eqn:Hchunk.
    + destruct (Reader.read_loop Api.process_line reads failure) as [eff' r'].
      intros H. injection H as _ ->. now apply (IH eff').
    + discriminate.
    + intros H. injection H as _ <-. right.
      exact (process_lines_raises _ eff err Hchunk).
Qed.

(** X3. What [sendMessageStream] can throw, by the answer to its one
    request: the rejection of [fetch]; the fixed message of a response that
    is not [ok]; a [TypeError] for a response that is [ok] and has no body
    ([response.body] is [null]); and for a response with a body the failure
    of a read, or an error of a frame that the [catch] throws again, whose
    message is not empty and does not contain "JSON". In the first three
    cases no callback has been made. A payload that is not JSON never ends
    a stream. This is for a conversation id and a token that are not
    objects, which the address and the header take as text. *)
Theorem errors_that_leave_the_stream
  (API_BASE : string) (authToken conversationId content pdfData pdfFilename : value)
  (fetch : request -> outcome) (effects : list effect) (e : error)
  (Hid : is_object conversationId = false)
  (Htoken : is_object authToken = false) :
  Api.sendMessageStream API_BASE authToken fetch conversationId content pdfData pdfFilename
  = (effects, Throw e) ->
  let req := stream_request API_BASE authToken conversationId content pdfData pdfFilename in
  (fetch req = Rejected e /\ effects = []%list)
  \/ exists response,
       fetch req = Responded response
       /\ ((ok response = false /\ e = Err "Error" "Failed to send message"
            /\ effects = []%list)
           \/ (ok response = true /\ null_body response = true
               /\ err_name e = "TypeError" /\ effects = []%list)
           \/ (ok response = true /\ null_body response = false
               /\ (read_failure response = Some e \/ rethrown e))).
Proof.
  intros Hthrown req. subst req.
  unfold Api.sendMessageStream in Hthrown. unfold stream_request.
  destruct (fetch _) as [err|response].
  - injection Hthrown as <- <-. now left.
  - right. exists response. split; [reflexivity|].
    destruct (ok response); cbn [negb] in Hthrown.
    + right. destruct (null_body response).
      * left. injection Hthrown as <- <-. now repeat split.
      * right. repeat split. exact (read_loop_throws _ _ _ _ Hthrown).
    + left. injection Hthrown as <- <-. now repeat split.
Qed.

Lemma errors_that_leave_the_stream_witness :
  let req := stream_request localhost VNull (VString "c1") (VString "hi") VNull VNull in
  (answering 204 "No Content" "" req = Rejected (cannot_read VNull "getReader")
   /\ @nil effect = []%list)
  \/ exists response,
       answering 204 "No Content" "" req = Responded response
       /\ ((ok response = false
            /\ cannot_read VNull "getReader" = Err "Error" "Failed to send message"
            /\ @nil effect = []%list)
           \/ (ok response = true /\ null_body response = true
               /\ err_name (cannot_read VNull "getReader") = "TypeError"
               /\ @nil effect = []%list)
           \/ (ok response = true /\ null_body response = false
               /\ (read_failure response = Some (cannot_read VNull "getReader")
                   \/ rethrown (cannot_read VNull "getReader")))).
Proof.
  apply (errors_that_leave_the_stream localhost VNull (VString "c1") (VString "hi")
           VNull VNull (answering 204 "No Content" "")).
  - reflexivity.
  - reflexivity.
  - reflexivity.
Defined.

End Escapes.

(** ** The two clients side by side *)

Module Versions.
Import JS Http Trace Sample Notions Cases.

Lemma process_lines_alike (f g : string -> list effect * control) (l : list string) :
  (forall line, shared_line line = true -> f line = g line) ->
  List.forallb shared_line l = true ->
  Reader.process_lines f l = Reader.process_lines g l.
Proof.
  intros Hfg. induction l as [|line l IH]; cbn [Reader.process_lines List.forallb];
    [reflexivity|].
  intros H. apply Bool.andb_true_iff in H. destruct H as [Hline Hl].
  now rewrite (Hfg line Hline), (IH Hl).
Qed.

Lemma read_loop_alike (f g : string -> list effect * control) (reads : list string)
  (failure : option error) :
  (forall line, shared_line line = true -> f line = g line) ->
  shared_body reads = true ->
  Reader.read_loop f reads failure = Reader.read_loop g reads failure.
Proof.
  intros Hfg. unfold shared_body.
  induction reads as [|value reads IH]; cbn [Reader.read_loop List.forallb];
    [reflexivity|].
  intros H. apply Bool.andb_true_iff in H. destruct H as [Hvalue Hreads].
  unfold Reader.process_chunk. fold (lines value).
  now rewrite (process_lines_alike f g _ Hfg Hvalue), (IH Hreads).
Qed.

Lemma shared_line_alike (line : string) :
  shared_line line = true -> Api.process_line line = Api0.process_line line.
Proof.
  unfold shared_line, Api.process_line, Api0.process_line.
  destruct (Str.startsWith line "data: "); [|reflexivity].
  destruct (String.eqb (Str.slice 6 line) "[DONE]"); [reflexivity|].
  cbn [orb]. unfold Api.try_frame, Api0.try_frame.
  destruct (JSON.parse (Str.slice 6 line)) as [parsed|e] eqn:Hparse.
  - unfold Api.dispatch, Api0.dispatch.
    destruct (get parsed "type") as [t|e]; [|discriminate].
    intros Hparting. apply Bool.negb_true_iff in Hparting.
    unfold one_of, parting_types in Hparting. cbn [List.existsb] in Hparting.
    repeat (apply Bool.orb_false_elim in Hparting; destruct Hparting as [? Hparting]).
    repeat match goal with H : Api.type_is t _ = false |- _ => rewrite H; clear H end.
    destruct (Api.type_is t "stage1_complete"); [reflexivity|].
    destruct (Api.type_is t "stage2_complete"); [reflexivity|].
    destruct (Api.type_is t "stage3_complete"); reflexivity.
  - intros _. rewrite (Frames.parse_throws_syntax_error _ _ Hparse). reflexivity.
Qed.

(** X4. The client with authentication, while no token is set, and the
    earlier client make the same request and, over a body that carries
    only lines of the kinds both know (stage events, events of other types
    that neither has a [case] for, payloads that are not JSON, the
    sentinel, lines without the marker), the same callbacks and console
    lines, and end the same way. *)
Theorem clients_agree_on_stage_events
  (API_BASE : string) (authToken conversationId content pdfData pdfFilename : value)
  (fetch : request -> outcome)
  (Htoken : truthy authToken = false)
  (Hshared : forall req response,
      fetch req = Responded response -> shared_body (chunks response) = true) :
  Api.sendMessageStream API_BASE authToken fetch conversationId content pdfData pdfFilename
  = Api0.sendMessageStream API_BASE fetch conversationId content pdfData pdfFilename.
Proof.
  unfold Api.sendMessageStream, Api0.sendMessageStream, Api.getAuthHeaders.
  rewrite Htoken. unfold Api.json_headers.
  destruct (fetch _) as [err|response] eqn:Hfetch; [reflexivity|].
  destruct (ok response); cbn [negb]; [|reflexivity].
  destruct (null_body response); [reflexivity|].
  exact (read_loop_alike _ _ _ _ shared_line_alike (Hshared _ _ Hfetch)).
Qed.

Lemma clients_agree_on_stage_events_witness :
  Api.sendMessageStream localhost VNull
    (serving [encode [stage1_start; first_answers; "{oops"; reviews]; encode [synthesis; "[DONE]"]]
       None)
    (VString "c1") (VString "hi") VNull VNull
  = Api0.sendMessageStream localhost
      (serving [encode [stage1_start; first_answers; "{oops"; reviews];
                encode [synthesis; "[DONE]"]] None)
      (VString "c1") (VString "hi") VNull VNull.
Proof.
  apply (clients_agree_on_stage_events localhost VNull (VString "c1") (VString "hi")
           VNull VNull).
  - reflexivity.
  - intros req response H. injection H as <-. vm_compute. reflexivity.
Defined.

End Versions.

(** ** A send from the guard to the end *)

Module Sends.
Import JS Http Trace Sample Notions Cases.

Lemma trimStart_of_spaces (fuel : nat) (s : string) :
  only_spaces s = true -> String.length s <= fuel -> Str.trimStart_fuel fuel s = "".
Proof.
  revert s. induction fuel as [|fuel IH]; intros [|c s] Hs Hfuel;
    cbn [String.length] in Hfuel; try reflexivity; try lia.
  cbn [only_spaces] in Hs. apply Bool.andb_true_iff in Hs. destruct Hs as [Hc Hs].
  cbn [Str.trimStart_fuel Str.white_space_width]. rewrite Hc.
  cbn [Str.slice]. apply IH; [exact Hs | lia].
Qed.

Lemma trim_of_spaces (s : string) : only_spaces s = true -> Str.trim s = "".
Proof.
  intros Hs. unfold Str.trim, Str.trimStart.
  rewrite (trimStart_of_spaces _ s Hs (le_n _)). reflexivity.
Qed.

(** X5. Input made of spaces, tabs and line breaks only is never sent:
    [sendMessage] returns at once, whatever the component holds and
    whatever the network would answer, and leaves the state as it is. *)
Theorem blank_input_is_not_sent
  (API_BASE : string) (authToken : value) (fetch : request -> outcome) (r s : App.state)
  (Hblank : only_spaces (App.input r) = true) :
  App.sendMessage_refused r = true
  /\ App.sendMessage API_BASE authToken fetch r s = Normal s.
Proof.
  assert (Hrefused : App.sendMessage_refused r = true).
  { unfold App.sendMessage_refused. now rewrite (trim_of_spaces _ Hblank). }
  split; [exact Hrefused|]. unfold App.sendMessage. now rewrite Hrefused.
Qed.

Lemma blank_input_is_not_sent_witness :
  App.sendMessage_refused (App.setInput (String " " (String Str.newline " ")) ready) = true
  /\ App.sendMessage localhost VNull backend
       (App.setInput (String " " (String Str.newline " ")) ready) ready
     = Normal ready.
Proof.
  apply (blank_input_is_not_sent localhost VNull backend
           (App.setInput (String " " (String Str.newline " ")) ready) ready).
  reflexivity.
Defined.

Lemma loadConversations_keeps_input (listing : completion value) (s : App.state) :
  App.input (App.loadConversations listing s) = App.input s.
Proof. destruct listing; reflexivity. Qed.

Lemma apply_effect_keeps_input (r : App.state) (listing : completion value) (e : effect)
  (s : App.state) :
  App.input (App.apply_effect r listing e s) = App.input s.
Proof.
  destruct e; cbn [App.apply_effect]; try reflexivity.
  unfold App.onTitleUpdate. now rewrite loadConversations_keeps_input.
Qed.

Lemma apply_effects_keeps_input (r : App.state) (listing : completion value)
  (t : list effect) (s : App.state) :
  App.input (App.apply_effects r listing t s) = App.input s.
Proof.
  revert s. unfold App.apply_effects.
  induction t as [|e t IH]; intros s; cbn [List.fold_left]; [reflexivity|].
  now rewrite IH, apply_effect_keeps_input.
Qed.

Lemma sendMessage_begin_input (r s s1 : App.state) :
  App.sendMessage_begin r s = Normal s1 -> App.input s1 = "".
Proof.
  unfold App.sendMessage_begin.
  destruct (iterate (App.messages r)) as [shown|e]; cbn [bind]; [|discriminate].
  intros H. injection H as <-. unfold App.clearPdfState.
  cbn [App.fileInput App.setPdfFilename App.setPdfData
    App.resetCouncilState App.setActiveTab App.setCurrentStage App.setMetadata
    App.setStage3Result App.setStage2Results App.setStage1Results App.setMessages
    App.setLoading App.setInput].
  destruct (App.fileInput s); reflexivity.
Qed.

Lemma sendMessage_end_keeps_input (result : completion unit) (s : App.state) :
  App.input (App.sendMessage_end result s) = App.input s.
Proof. destruct result; reflexivity. Qed.

(** X6. A send writes the history once, in its first step, before the
    request is made: the history becomes the one of the render with the
    user's message appended, the input is emptied and [loading] is set;
    if the history of the render cannot be spread, [sendMessage] throws
    there and nothing is changed. After that no callback of the stream
    and neither the [catch] nor the [finally] writes the history or the
    input, and only the [finally] writes [loading], switching it off. So
    a send never appends an answer of the council to the history,
    whatever else happens while its stream is open. *)
Theorem send_writes_the_history_once :
  (forall r s : App.state,
     match iterate (App.messages r) with
     | Normal shown =>
         exists s1,
           App.sendMessage_begin r s = Normal s1
           /\ App.messages s1 = VArray (shown ++ [App.displayed_message r])
           /\ App.input s1 = ""
           /\ App.loading s1 = true
     | Throw e => App.sendMessage_begin r s = Throw e
     end)
  /\ (forall (r : App.state) (listing : completion value) (e : effect) (s : App.state),
        App.messages (App.apply_effect r listing e s) = App.messages s
        /\ App.input (App.apply_effect r listing e s) = App.input s
        /\ App.loading (App.apply_effect r listing e s) = App.loading s)
  /\ (forall (result : completion unit) (s : App.state),
        App.messages (App.sendMessage_end result s) = App.messages s
        /\ App.input (App.sendMessage_end result s) = App.input s
        /\ App.loading (App.sendMessage_end result s) = false).
Proof.
  split; [|split].
  - intros r s. destruct (iterate (App.messages r)) as [shown|e] eqn:Hshown.
    + destruct (App.sendMessage_begin r s) as [s1|e] eqn:Hbegin.
      * exists s1. split; [reflexivity|].
        destruct (Turns.sendMessage_begin_messages r s s1 Hbegin) as (shown' & Hshown' & Hm).
        rewrite Hshown in Hshown'. injection Hshown' as <-.
        split; [exact Hm|]. split; [exact (sendMessage_begin_input r s s1 Hbegin)|].
        pose proof (Stages.sendMessage_begin_sets_loading r s) as Hl.
        now rewrite Hbegin in Hl.
      * unfold App.sendMessage_begin in Hbegin. rewrite Hshown in Hbegin. discriminate.
    + unfold App.sendMessage_begin. rewrite Hshown. reflexivity.
  - intros r listing e s.
    destruct (Stages.apply_effect_keeps r listing e s) as (Hm & _ & Hl).
    split; [exact Hm|]. split; [apply apply_effect_keeps_input | exact Hl].
  - intros result s. split; [apply Turns.sendMessage_end_keeps_messages|].
    split; [apply sendMessage_end_keeps_input|]. destruct result; reflexivity.
Qed.

Lemma last_marker_cases (t : list effect) (d : option nat) :
  d = None \/ d = Some 1 \/ d = Some 2 \/ d = Some 3 ->
  last_marker t d = None \/ last_marker t d = Some 1
  \/ last_marker t d = Some 2 \/ last_marker t d = Some 3.
Proof.
  revert d. induction t as [|e t IH]; intros d Hd; [exact Hd|].
  destruct e; cbn [last_marker]; apply IH; auto.
Qed.

Lemma last_marker_silent (t : list effect) (d : option nat) :
  callbacks t = []%list -> last_marker t d = d.
Proof.
  unfold callbacks. induction t as [|e t IH]; [reflexivity|].
  destruct e; cbn [List.filter is_callback last_marker]; try discriminate; exact IH.
Qed.

(** The text under the spinner when no file is staged. *)
Lemma loading_text (s : App.state) :
  App.pdfFilename s = VNull ->
  App.renderLoadingStage s
  = match App.currentStage s with
    | None | Some O => None
    | Some 1 => Some gathering
    | Some 2 => Some reviewing
    | Some 3 => Some synthesizing
    | Some _ => Some VUndefined
    end.
Proof. intros H. unfold App.renderLoadingStage. rewrite H. reflexivity. Qed.

Lemma turn_state (r s s1 : App.state) (listing : completion value) (t : list effect) :
  App.sendMessage_begin r s = Normal s1 ->
  App.currentStage (App.apply_effects r listing t s1) = last_marker t (Some 1)
  /\ App.pdfFilename (App.apply_effects r listing t s1) = VNull.
Proof.
  intros Hbegin.
  pose proof (Stages.apply_effects_stage r listing t s1) as Hstage.
  destruct (Stages.stage_state_fields _ _ _ _ _ _ Hstage) as (_ & _ & _ & _ & Hmarker).
  pose proof (Stages.sendMessage_begin_stage r s s1 Hbegin) as Hstart.
  destruct (Stages.stage_state_fields _ _ _ _ _ _ Hstart) as (_ & _ & _ & _ & Hone).
  rewrite Hone in Hmarker. split; [exact Hmarker|].
  destruct (Stages.apply_effects_keeps r listing t s1) as (_ & Hattachment & _).
  pose proof (Attachments.sendMessage_begin_clears r s s1 Hbegin) as Hcleared.
  rewrite Hcleared in Hattachment. unfold attachment in Hattachment.
  now injection Hattachment.
Qed.

Lemma sendMessage_end_keeps_file (result : completion unit) (s : App.state) :
  App.pdfFilename (App.sendMessage_end result s) = App.pdfFilename s.
Proof. destruct result; fields s. Qed.

Lemma apply_effect_keeps_file (r : App.state) (listing : completion value) (e : effect)
  (s : App.state) :
  App.pdfFilename (App.apply_effect r listing e s) = App.pdfFilename s.
Proof.
  destruct (Stages.apply_effect_keeps r listing e s) as (_ & Hattachment & _).
  unfold attachment in Hattachment. now injection Hattachment.
Qed.

(** X7. The turn that carries a file never starts under the text that
    names the file. [sendMessage] clears the staged file before it sets
    the stage marker to 1, so when the request goes out the text under the
    spinner is "Gathering individual opinions ...", whatever file the
    render had staged. The send itself stages nothing afterwards: no
    callback of the stream and neither its [catch] nor its [finally]
    writes the file name. While no file is staged the text follows the
    stage marker alone; "Analyzing PDF ..." can only name a file that was
    staged after the send began. *)
Theorem turn_starts_with_the_gathering_text :
  (forall r s s1 : App.state,
     App.sendMessage_begin r s = Normal s1 ->
     App.pdfFilename s1 = VNull
     /\ App.currentStage s1 = Some 1
     /\ App.renderLoadingStage s1 = Some gathering)
  /\ (forall (r : App.state) (listing : completion value) (e : effect) (s : App.state),
        App.pdfFilename (App.apply_effect r listing e s) = App.pdfFilename s)
  /\ (forall (result : completion unit) (s : App.state),
        App.pdfFilename (App.sendMessage_end result s) = App.pdfFilename s)
  /\ (forall s : App.state,
        truthy (App.pdfFilename s) = false ->
        App.renderLoadingStage s
        = match App.currentStage s with
          | None | Some O => None
          | Some 1 => Some gathering
          | Some 2 => Some reviewing
          | Some 3 => Some synthesizing
          | Some _ => Some VUndefined
          end).
Proof.
  split; [|split; [|split]].
  - intros r s s1 Hbegin.
    destruct (turn_state r s s1 (Normal VNull) []%list Hbegin) as [Hmarker Hfile].
    cbn [App.apply_effects List.fold_left last_marker] in Hmarker, Hfile.
    split; [exact Hfile|]. split; [exact Hmarker|].
    now rewrite (loading_text _ Hfile), Hmarker.
  - exact apply_effect_keeps_file.
  - exact sendMessage_end_keeps_file.
  - intros s Hfile. unfold App.renderLoadingStage. rewrite Hfile. reflexivity.
Qed.

Lemma sendMessage_end_keeps_shown (result : completion unit) (s : App.state) :
  App.renderLoadingStage (App.sendMessage_end result s) = App.renderLoadingStage s
  /\ App.council_shown (App.sendMessage_end result s) = App.council_shown s.
Proof. destruct result; split; fields s. Qed.

(** X8. When the stream of a send throws (the request fails, the response
    is not [ok] or has no body, a read fails, an [error] frame arrives),
    the [catch] writes the error to the console and shows one alert,
    "Error: " and the message, and the [finally] switches [loading] off.
    Neither resets the stage state: the marker, the stored results, the
    text under the spinner and the panel of the turn are what they were
    when the stream threw. A stream that throws while the component is
    still as the send left it (no event applied, nothing else done)
    leaves the panel on screen with the spinner of stage 1, although
    [loading] is off. *)
Theorem failed_send_keeps_the_stage (e : error) :
  (forall s : App.state,
     App.loading (App.sendMessage_end (Throw e) s) = false
     /\ stage_state (App.sendMessage_end (Throw e) s) = stage_state s
     /\ App.renderLoadingStage (App.sendMessage_end (Throw e) s) = App.renderLoadingStage s
     /\ App.council_shown (App.sendMessage_end (Throw e) s) = App.council_shown s
     /\ App.journal (App.sendMessage_end (Throw e) s)
        = (App.journal s ++ [ConsoleError "Failed to send message:" e;
                             Alert ("Error: " ++ err_message e)])%list)
  /\ (forall r s s1 : App.state,
        App.sendMessage_begin r s = Normal s1 ->
        App.loading (App.sendMessage_end (Throw e) s1) = false
        /\ App.renderLoadingStage (App.sendMessage_end (Throw e) s1) = Some gathering
        /\ App.council_shown (App.sendMessage_end (Throw e) s1) = true).
Proof.
  split.
  - intros s. destruct (sendMessage_end_keeps_shown (Throw e) s) as [Htext Hshown].
    split; [reflexivity|]. split; [apply Stages.sendMessage_end_keeps_stage|].
    split; [exact Htext|]. split; [exact Hshown|].
    cbn [App.sendMessage_end App.log App.setLoading App.setJournal App.journal].
    now rewrite <- List.app_assoc.
  - intros r s s1 Hbegin.
    destruct (sendMessage_end_keeps_shown (Throw e) s1) as [Htext Hshown].
    destruct (turn_state r s s1 (Normal VNull) []%list Hbegin) as [Hmarker Hfile].
    cbn [App.apply_effects List.fold_left last_marker] in Hmarker, Hfile.
    split; [reflexivity|]. rewrite Htext, Hshown. split.
    + now rewrite (loading_text _ Hfile), Hmarker.
    + unfold App.council_shown. rewrite Hmarker. now rewrite !Bool.orb_true_r.
Qed.

End Sends.

(** ** Deleting a conversation *)

Module Deleting.
Import JS Http Trace Sample Notions Cases.

Lemma without_id_filter (convId : value) (items : list value) :
  List.forallb defined items = true ->
  App.without_id convId items = Normal (List.filter (kept convId) items).
Proof.
  induction items as [|c items IH]; cbn [List.forallb App.without_id List.filter];
    [reflexivity|].
  intros H. apply Bool.andb_true_iff in H. destruct H as [Hc Hitems].
  rewrite (IH Hitems). unfold kept.
  destruct c; try discriminate; cbn [get bind];
    destruct (strict_equal _ convId); reflexivity.
Qed.

(** X9. A confirmed delete that the server accepts, for an id that is not
    an object and a list whose entries are all objects or other defined
    values: the list becomes the render's list without the conversations
    whose [id] is strictly equal to the deleted one, in their order; if the
    render's current conversation has that id, it is closed, the history
    emptied and the stage state reset, otherwise they stay. The staged
    file, the input and [loading] are not touched, and nothing is
    logged. *)
Theorem deletion_removes_the_conversation
  (API_BASE : string) (authToken : value) (fetch : request -> outcome)
  (convId answer : value) (items : list value) (r s : App.state)
  (Hid : is_object convId = false)
  (Hdeleted : Api.deleteConversation API_BASE authToken fetch convId = Normal answer)
  (Hlist : App.conversations r = VArray items)
  (Hitems : List.forallb defined items = true) :
  exists s',
    App.deleteConversation API_BASE authToken fetch true convId r s = Some s'
    /\ App.conversations s' = VArray (List.filter (kept convId) items)
    /\ (if strict_equal (get_opt (App.currentConversation r) "id") convId
        then App.currentConversation s' = VNull
             /\ App.messages s' = VArray []
             /\ stage_state s' = (VNull, VNull, VNull, VNull, None)
        else App.currentConversation s' = App.currentConversation s
             /\ App.messages s' = App.messages s
             /\ stage_state s' = stage_state s)
    /\ attachment s' = attachment s
    /\ App.input s' = App.input s
    /\ App.loading s' = App.loading s
    /\ App.journal s' = App.journal s.
Proof.
  unfold App.deleteConversation, App.deleteConversation_then. cbn [negb].
  rewrite Hid, Hdeleted. cbn [bind]. unfold App.filter_conversations.
  rewrite Hlist, (without_id_filter convId items Hitems).
  eexists. split; [reflexivity|].
  destruct (strict_equal (get_opt (App.currentConversation r) "id") convId);
    repeat split; reflexivity.
Qed.

Lemma deletion_removes_the_conversation_witness :
  exists s',
    App.deleteConversation localhost VNull backend true (VString "a") listed listed = Some s'
    /\ App.conversations s'
       = VArray (List.filter (kept (VString "a")) [conversation_a; conversation_b])
    /\ (if strict_equal (get_opt (App.currentConversation listed) "id") (VString "a")
        then App.currentConversation s' = VNull
             /\ App.messages s' = VArray []
             /\ stage_state s' = (VNull, VNull, VNull, VNull, None)
        else App.currentConversation s' = App.currentConversation listed
             /\ App.messages s' = App.messages listed
             /\ stage_state s' = stage_state listed)
    /\ attachment s' = attachment listed
    /\ App.input s' = App.input listed
    /\ App.loading s' = App.loading listed
    /\ App.journal s' = App.journal listed.
Proof.
  apply (deletion_removes_the_conversation localhost VNull backend (VString "a")
           conversation_b [conversation_a; conversation_b] listed listed).
  - reflexivity.
  - vm_compute. reflexivity.
  - reflexivity.
  - reflexivity.
Defined.

(** After such a delete no conversation of the list has the deleted id,
    and every conversation with another id is still there. *)
Lemma kept_conversations (convId c : value) (items : list value) :
  List.In c (List.filter (kept convId) items)
  <-> List.In c items /\ strict_equal (prop c "id") convId = false.
Proof.
  rewrite List.filter_In. unfold kept. now rewrite Bool.negb_true_iff.
Qed.

(** X10. A delete that is not confirmed does nothing, whatever is
    deleted and whatever the network would answer. A confirmed delete,
    of an id that is not an object, that fails (the server refuses, the
    network fails, or the list of the render is not an array whose
    entries can be read) changes nothing but the journal: the error goes
    to the console and one alert is shown. *)
Theorem failed_deletion_changes_nothing
  (API_BASE : string) (authToken : value) (fetch : request -> outcome)
  (convId : value) (r s : App.state) :
  App.deleteConversation API_BASE authToken fetch false convId r s = Some s
  /\ (forall e : error,
        is_object convId = false ->
        (Api.deleteConversation API_BASE authToken fetch convId = Throw e
         \/ exists answer,
              Api.deleteConversation API_BASE authToken fetch convId = Normal answer
              /\ App.filter_conversations convId (App.conversations r) = Throw e) ->
        exists s',
          App.deleteConversation API_BASE authToken fetch true convId r s = Some s'
          /\ App.journal s'
             = (App.journal s ++ [ConsoleError "Failed to delete conversation:" e;
                                  Alert "Failed to delete conversation"])%list
          /\ App.setJournal (App.journal s) s' = s).
Proof.
  split; [reflexivity|].
  intros e Hid Hfailed.
  unfold App.deleteConversation, App.deleteConversation_then. cbn [negb]. rewrite Hid.
  eexists. split; [reflexivity|].
  assert (Hthrow : bind (Api.deleteConversation API_BASE authToken fetch convId)
                     (fun _ => App.filter_conversations convId (App.conversations r))
                   = Throw e).
  { destruct Hfailed as [-> | (answer & -> & H)]; [reflexivity | exact H]. }
  rewrite Hthrow. split.
  - cbn [App.log App.setJournal App.journal]. now rewrite <- List.app_assoc.
  - destruct s; reflexivity.
Qed.

Lemma failed_deletion_changes_nothing_witness :
  exists s',
    App.deleteConversation localhost VNull (turning_down "Not found") true (VString "a")
      listed listed = Some s'
    /\ App.journal s'
       = (App.journal listed
          ++ [ConsoleError "Failed to delete conversation:"
                (Err "Error" "Failed to delete conversation");
              Alert "Failed to delete conversation"])%list
    /\ App.setJournal (App.journal listed) s' = listed.
Proof.
  apply (failed_deletion_changes_nothing localhost VNull (turning_down "Not found")
           (VString "a") listed listed).
  - reflexivity.
  - left. vm_compute. reflexivity.
Defined.

End Deleting.

(** ** Model names *)

Module DisplayNames.
Import JS Http Trace Sample Notions Cases.

Lemma split_without_separator (sep : ascii) (x : string) :
  mentions sep x = false -> Str.split sep x = [x].
Proof.
  induction x as [|c x IH]; cbn [mentions Str.split]; [reflexivity|].
  intros H. apply Bool.orb_false_elim in H. destruct H as [Hc Hx].
  now rewrite Hc, (IH Hx).
Qed.

Lemma last_part (sep : ascii) (p x : string) :
  mentions sep x = false ->
  List.last (Str.split sep (p ++ String sep x)) "" = x.
Proof.
  intros Hx. rewrite StrFacts.split_at_separator, (split_without_separator sep x Hx).
  apply List.last_last.
Qed.

(** X11. [getModelDisplayName] gives the part of a model id after its last
    slash: for an id [p/x] where [x] has no slash it gives [x] (which is
    empty when the id ends in a slash), and an id without a slash is given
    back as it is. The current version answers "Unknown" for every falsy
    id, the empty string included, and throws for a truthy id that is not
    a string; the earlier version throws for every id that is not a
    string, [null] and [undefined] included. *)
Theorem display_name_is_the_last_part (p x : string)
  (Hx : mentions "/"%char x = false) :
  App.getModelDisplayName (VString (p ++ "/" ++ x)) = Normal x
  /\ App0.getModelDisplayName (VString (p ++ "/" ++ x)) = Normal x
  /\ (x <> "" -> App.getModelDisplayName (VString x) = Normal x)
  /\ App0.getModelDisplayName (VString x) = Normal x
  /\ (forall v, truthy v = false -> App.getModelDisplayName v = Normal "Unknown")
  /\ (forall v, truthy v = true -> (forall id, v <> VString id) ->
       exists e, App.getModelDisplayName v = Throw e)
  /\ (forall v, (forall id, v <> VString id) ->
       exists e, App0.getModelDisplayName v = Throw e).
Proof.
  assert (Hlast : List.last (Str.split "/"%char (p ++ "/" ++ x)) "" = x)
    by exact (last_part "/"%char p x Hx).
  repeat split.
  - unfold App.getModelDisplayName. cbn [truthy].
    assert (Hsome : Str.is_empty (p ++ "/" ++ x) = false) by (destruct p; reflexivity).
    rewrite Hsome. cbn [negb]. now rewrite Hlast.
  - unfold App0.getModelDisplayName. now rewrite Hlast.
  - intros Hsome. unfold App.getModelDisplayName. cbn [truthy].
    destruct x as [|c x]; [contradiction|]. cbn [Str.is_empty negb].
    now rewrite (split_without_separator _ _ Hx).
  - unfold App0.getModelDisplayName. now rewrite (split_without_separator _ _ Hx).
  - intros v Hv. unfold App.getModelDisplayName. now rewrite Hv.
  - intros v Hv Hnot. unfold App.getModelDisplayName. rewrite Hv. cbn [negb].
    destruct v; try (eexists; reflexivity). now contradiction (Hnot s).
  - intros v Hnot. unfold App0.getModelDisplayName.
    destruct v; try (eexists; reflexivity). now contradiction (Hnot s).
Qed.

Lemma display_name_is_the_last_part_witness :
  App.getModelDisplayName (VString ("openai" ++ "/" ++ "gpt-4o")) = Normal "gpt-4o"
  /\ App0.getModelDisplayName (VString ("openai" ++ "/" ++ "gpt-4o")) = Normal "gpt-4o"
  /\ ("gpt-4o" <> "" -> App.getModelDisplayName (VString "gpt-4o") = Normal "gpt-4o")
  /\ App0.getModelDisplayName (VString "gpt-4o") = Normal "gpt-4o"
  /\ (forall v, truthy v = false -> App.getModelDisplayName v = Normal "Unknown")
  /\ (forall v, truthy v = true -> (forall id, v <> VString id) ->
       exists e, App.getModelDisplayName v = Throw e)
  /\ (forall v, (forall id, v <> VString id) ->
       exists e, App0.getModelDisplayName v = Throw e).
Proof.
  apply (display_name_is_the_last_part "openai" "gpt-4o"). reflexivity.
Defined.

End DisplayNames.

(** ** The open tab *)

Module Tabs.
Import JS Http Trace Sample Notions Cases.

Lemma item_in_range (i : nat) (items : list value) :
  i < List.length items -> List.In (item i items) items.
Proof. intros H. unfold item. now apply List.nth_In. Qed.

Lemma item_out_of_range (i : nat) (items : list value) :
  List.length items <= i -> item i items = VUndefined.
Proof. intros H. unfold item. now apply List.nth_overflow. Qed.

Lemma label_of (result : value) :
  if labelled result
  then exists label, bind (get result "model") App.getModelDisplayName = Normal label
  else exists e, bind (get result "model") App.getModelDisplayName = Throw e.
Proof.
  unfold labelled, App.getModelDisplayName.
  destruct result; cbn [defined andb get bind]; try (eexists; reflexivity);
    destruct (prop _ "model") as [| |flag|?|text|?|?]; cbn [truthy negb];
    try (eexists; reflexivity);
    try (destruct flag; eexists; reflexivity);
    try (destruct (negb _); eexists; reflexivity);
    try (destruct (Str.is_empty text); eexists; reflexivity).
Qed.

Lemma tabs_from_step (idx tab : nat) (result : value) (rest : list value) :
  App.tabs_from idx tab (result :: rest)
  = bind (bind (get result "model") App.getModelDisplayName) (fun label =>
    bind (App.tabs_from (S idx) tab rest) (fun row =>
    Normal ((label, Nat.eqb tab idx) :: row)%list)).
Proof. cbn [App.tabs_from]. now destruct (get result "model"). Qed.

(** The row of tabs exists when every answer can be labelled, and only
    then. *)
Lemma tabs_from_labelled (tab : nat) (answers : list value) (idx : nat) :
  if List.forallb labelled answers
  then exists row, App.tabs_from idx tab answers = Normal row
  else exists e, App.tabs_from idx tab answers = Throw e.
Proof.
  revert idx. induction answers as [|result rest IH]; intros idx.
  - cbn. now eexists.
  - rewrite tabs_from_step. cbn [List.forallb].
    pose proof (label_of result) as Hlabel.
    destruct (labelled result); cbn [andb].
    + destruct Hlabel as [label ->]. cbn [bind]. specialize (IH (S idx)).
      destruct (List.forallb labelled rest).
      * destruct IH as [row ->]. now eexists.
      * destruct IH as [e ->]. now eexists.
    + destruct Hlabel as [e ->]. now eexists.
Qed.

(** In a row of tabs the active one is the tab of that index. *)
Lemma tabs_from_active (tab : nat) (answers : list value) (idx : nat)
  (row : list (string * bool)) :
  App.tabs_from idx tab answers = Normal row ->
  List.map snd row = List.map (Nat.eqb tab) (List.seq idx (List.length answers)).
Proof.
  revert idx row. induction answers as [|result rest IH]; intros idx row.
  - cbn. intros H. now injection H as <-.
  - rewrite tabs_from_step.
    destruct (bind (get result "model") App.getModelDisplayName) as [label|e];
      cbn [bind]; [|discriminate].
    destruct (App.tabs_from (S idx) tab rest) as [row'|e] eqn:Hrest; cbn [bind];
      [|discriminate].
    intros H. injection H as <-. cbn [List.map List.length List.seq snd].
    now rewrite (IH (S idx) row' Hrest).
Qed.

Lemma no_tab_beyond (tab idx len : nat) :
  idx + len <= tab -> List.existsb (fun b : bool => b) (List.map (Nat.eqb tab) (List.seq idx len)) = false.
Proof.
  revert idx. induction len as [|len IH]; intros idx H; [reflexivity|].
  cbn [List.seq List.map List.existsb]. rewrite IH by lia.
  destruct (Nat.eqb_spec tab idx); [lia | reflexivity].
Qed.

(** X12. The tab of a loaded message is kept within its answers: for a
    message whose [stage1] is an array that is not empty,
    [safeActiveTab] is the active tab when the message has that many
    answers and the last answer otherwise. The stage-1 section of the
    message is then the row of tabs, with that tab marked active, over
    the [response] of that answer ("No response" when it has none); the
    row, and with it the render, throws when an answer is [null] or its
    [model] is neither a string nor falsy, and only then. The panel of
    the turn under way has no such guard: with an active tab beyond its
    answers it marks no tab and shows "No response". *)
Theorem loaded_tab_is_within_the_answers
  (activeTab : nat) (msg : value) (answers : list value)
  (Hstage1 : get msg "stage1" = Normal (VArray answers))
  (Hsome : answers <> []%list) :
  exists tab,
    App.safeActiveTab activeTab msg = Normal tab
    /\ tab < List.length answers
    /\ (activeTab < List.length answers -> tab = activeTab)
    /\ (List.length answers <= activeTab -> tab = List.length answers - 1)
    /\ List.In (item tab answers) answers
    /\ App.loaded_stage1 activeTab msg
       = bind (App.tabs_from 0 tab answers) (fun row =>
         Normal (Some (row, or_else (get_opt (item tab answers) "response")
                              (VString "No response"))))
    /\ (if List.forallb labelled answers
        then exists row,
               App.tabs_from 0 tab answers = Normal row
               /\ List.map snd row
                  = List.map (Nat.eqb tab) (List.seq 0 (List.length answers))
        else exists e, App.tabs_from 0 tab answers = Throw e)
    /\ (forall s,
          App.stage1Results s = VArray answers ->
          List.length answers <= App.activeTab s ->
          App.renderStage1 s
          = bind (App.tabs_from 0 (App.activeTab s) answers) (fun row =>
            Normal (Some (row, VString "No response")))
          /\ forall row,
               App.tabs_from 0 (App.activeTab s) answers = Normal row ->
               List.existsb (fun b : bool => b) (List.map snd row) = false).
Proof.
  destruct answers as [|a answers]; [contradiction|].
  exists (Nat.min activeTab (List.length (a :: answers) - 1)).
  assert (Hrange : Nat.min activeTab (List.length (a :: answers) - 1)
                   < List.length (a :: answers)).
  { cbn [List.length]. lia. }
  split; [|split; [exact Hrange|split; [|split; [|split; [|split; [|split]]]]]].
  - unfold App.safeActiveTab. rewrite Hstage1. reflexivity.
  - cbn [List.length]. lia.
  - cbn [List.length]. lia.
  - exact (item_in_range _ _ Hrange).
  - unfold App.loaded_stage1, App.safeActiveTab. rewrite Hstage1. reflexivity.
  - pose proof (tabs_from_labelled (Nat.min activeTab (List.length (a :: answers) - 1))
                  (a :: answers) 0) as Hrow.
    destruct (List.forallb labelled (a :: answers)); [|exact Hrow].
    destruct Hrow as [row Hrow]. exists row. split; [exact Hrow|].
    exact (tabs_from_active _ _ _ _ Hrow).
  - intros s Hlive Hbeyond. unfold App.renderStage1. rewrite Hlive.
    rewrite (item_out_of_range _ _ Hbeyond). split; [reflexivity|].
    intros row Hrow. rewrite (tabs_from_active _ _ _ _ Hrow).
    apply no_tab_beyond. cbn [Nat.add]. exact Hbeyond.
Qed.

Lemma loaded_tab_is_within_the_answers_witness :
  exists tab,
    App.safeActiveTab 3 two_answers = Normal tab
    /\ tab < List.length [first_answer; second_answer]
    /\ (3 < List.length [first_answer; second_answer] -> tab = 3)
    /\ (List.length [first_answer; second_answer] <= 3
        -> tab = List.length [first_answer; second_answer] - 1)
    /\ List.In (item tab [first_answer; second_answer]) [first_answer; second_answer]
    /\ App.loaded_stage1 3 two_answers
       = bind (App.tabs_from 0 tab [first_answer; second_answer]) (fun row =>
         Normal (Some (row, or_else (get_opt (item tab [first_answer; second_answer])
                                       "response")
                              (VString "No response"))))
    /\ (if List.forallb labelled [first_answer; second_answer]
        then exists row,
               App.tabs_from 0 tab [first_answer; second_answer] = Normal row
               /\ List.map snd row
                  = List.map (Nat.eqb tab)
                      (List.seq 0 (List.length [first_answer; second_answer]))
        else exists e, App.tabs_from 0 tab [first_answer; second_answer] = Throw e)
    /\ (forall s,
          App.stage1Results s = VArray [first_answer; second_answer] ->
          List.length [first_answer; second_answer] <= App.activeTab s ->
          App.renderStage1 s
          = bind (App.tabs_from 0 (App.activeTab s) [first_answer; second_answer])
              (fun row => Normal (Some (row, VString "No response")))
          /\ forall row,
               App.tabs_from 0 (App.activeTab s) [first_answer; second_answer] = Normal row ->
               List.existsb (fun b : bool => b) (List.map snd row) = false).
Proof.
  apply (loaded_tab_is_within_the_answers 3 two_answers [first_answer; second_answer]).
  - reflexivity.
  - discriminate.
Defined.

End Tabs.

(** ** The login form *)

Module Forms.
Import JS Http Trace Sample Notions Cases.

Lemma settle_loading (answer : completion value) (f : Login.form) :
  Login.loading (Login.settle answer f) = false.
Proof. destruct answer; reflexivity. Qed.

Lemma settle_error (e : error) (f : Login.form) :
  Login.error (Login.settle (Throw e) f) <> "".
Proof.
  cbn [Login.settle Login.setLoading Login.setError Login.error].
  destruct (err_message e); cbn [Str.is_empty]; discriminate.
Qed.

(** X13. Submitting the form always ends with [loading] off again. The
    error line is empty afterwards exactly when the session was opened:
    after a login or a registration that failed it holds the message of
    the error (never an empty text) and the session is what it was. In
    registration mode with an empty e-mail address the form says so and
    the network is not asked. *)
Theorem submit_outcomes
  (API_BASE : string) (fetch : request -> outcome) (r f : Login.form) (s : Auth.session) :
  let attempt :=
    if Login.isLogin r
    then Auth.login API_BASE fetch (VString (Login.username r)) (VString (Login.password r)) s
    else Auth.register API_BASE fetch (VString (Login.username r)) (VString (Login.email r))
           (VString (Login.password r)) s in
  let result := Login.handleSubmit API_BASE fetch r f s in
  Login.loading (fst result) = false
  /\ (Login.error (fst result) <> "" -> snd result = s)
  /\ (Login.error (fst result) = "" ->
      exists response, attempt = (snd result, Normal response))
  /\ (Login.isLogin r = false -> Login.email r = "" ->
      forall other : request -> outcome,
        Login.handleSubmit API_BASE other r f s
        = (Login.setLoading false (Login.setError "Email is required" f), s)).
Proof.
  cbn zeta. unfold Login.handleSubmit.
  destruct (Login.isLogin r).
  - destruct (Auth.login API_BASE fetch _ _ s) as [s' [response|e]] eqn:Hattempt;
      cbn [fst snd].
    + repeat split; try discriminate.
      * intros H. now contradiction H.
      * intros _. now exists response.
    + pose proof (Sessions.open_session_failure _ _ _ _ Hattempt) as ->.
      pose proof (settle_error e (Login.setLoading true (Login.setError "" f))) as Herror.
      repeat split; try discriminate; try reflexivity.
      intros H. now contradiction Herror.
  - destruct (Login.email r) as [|c rest] eqn:Hemail; cbn [Str.is_empty].
    + cbn [fst snd]. repeat split; try discriminate.
    + destruct (Auth.register API_BASE fetch _ _ _ s) as [s' [response|e]] eqn:Hattempt;
        cbn [fst snd].
      * repeat split; try discriminate.
        -- intros H. now contradiction H.
        -- intros _. now exists response.
      * pose proof (Sessions.open_session_failure _ _ _ _ Hattempt) as ->.
        pose proof (settle_error e (Login.setLoading true (Login.setError "" f))) as Herror.
        repeat split; try discriminate; try reflexivity.
        intros H. now contradiction Herror.
Qed.

End Forms.

(** ** The session across a reload *)

Module Reloads.
Import JS Http Trace Sample Notions Cases.

Lemma same_headers (t : value) :
  truthy t = true -> ToString t <> "" ->
  Api.getAuthHeaders (VString (ToString t)) = Api.getAuthHeaders t.
Proof.
  intros Htruthy Htext. unfold Api.getAuthHeaders. rewrite Htruthy. cbn [truthy ToString].
  destruct (ToString t); [contradiction | reflexivity].
Qed.

Lemma opened_session (answer : completion value) (s s' : Auth.session) (response : value) :
  Auth.open_session answer s = (s', Normal response) ->
  s' = Auth.Session (Some (ToString (prop response "access_token")))
         (prop response "access_token") (prop response "user") (Auth.loading s).
Proof.
  unfold Auth.open_session. destruct answer as [answered|e]; cbn [bind]; [|discriminate].
  destruct (get answered "access_token") as [token|e] eqn:Htoken; cbn [bind]; [|discriminate].
  intros H. injection H as <- <-.
  destruct answered; try discriminate; cbn [get] in Htoken; injection Htoken as <-;
    reflexivity.
Qed.

(** X14. What a login (or a registration) stores is what a reload
    presents. After a session has been opened with a token that is truthy
    and whose text is not empty, storage holds the text of the token, and
    the effect run on the next mount asks the server exactly what
    [getCurrentUser] would ask with the token of the login: if the server
    knows the user the session is restored with it, if not the stored
    token is removed and the session is empty. *)
Theorem reload_presents_the_token
  (API_BASE : string) (fetch later : request -> outcome)
  (username email password : value) (s s' : Auth.session) (response : value)
  (Hopened : Auth.login API_BASE fetch username password s = (s', Normal response)
             \/ Auth.register API_BASE fetch username email password s
                = (s', Normal response))
  (Htoken : truthy (Auth.api_token s') = true)
  (Htext : ToString (Auth.api_token s') <> "") :
  Auth.api_token s' = prop response "access_token"
  /\ Auth.user s' = prop response "user"
  /\ Auth.stored_token s' = Some (ToString (Auth.api_token s'))
  /\ Auth.restore API_BASE later (Auth.mount (Auth.stored_token s'))
     = match Api.getCurrentUser API_BASE (Auth.api_token s') later with
       | Normal userData =>
           Auth.Session (Auth.stored_token s') (VString (ToString (Auth.api_token s')))
             userData false
       | Throw _ => Auth.Session None VNull VNull false
       end.
Proof.
  assert (Hs' : s' = Auth.Session (Some (ToString (prop response "access_token")))
                       (prop response "access_token") (prop response "user")
                       (Auth.loading s)).
  { destruct Hopened as [H | H]; exact (opened_session _ _ _ _ H). }
  subst s'. cbn [Auth.api_token Auth.user Auth.stored_token] in *.
  repeat split.
  unfold Auth.restore, Auth.mount. cbn [Auth.stored_token].
  destruct (ToString (prop response "access_token")) as [|c text] eqn:Htok;
    [contradiction|]. cbn [Str.is_empty negb].
  cbn [Auth.setToken Auth.api_token Auth.stored_token Auth.user Auth.loading].
  assert (Hsame : Api.getCurrentUser API_BASE (VString (String c text)) later
                  = Api.getCurrentUser API_BASE (prop response "access_token") later).
  { unfold Api.getCurrentUser. rewrite <- Htok. rewrite same_headers; [reflexivity| |].
    - exact Htoken.
    - rewrite Htok. discriminate. }
  rewrite Hsame. destruct (Api.getCurrentUser _ _ later); reflexivity.
Qed.

Lemma reload_presents_the_token_witness :
  Auth.api_token signed_in
  = prop (VObject [("access_token", VString "t0k");
                   ("user", VObject [("username", VString "ada")])]) "access_token"
  /\ Auth.user signed_in
     = prop (VObject [("access_token", VString "t0k");
                      ("user", VObject [("username", VString "ada")])]) "user"
  /\ Auth.stored_token signed_in = Some (ToString (Auth.api_token signed_in))
  /\ Auth.restore localhost unreachable (Auth.mount (Auth.stored_token signed_in))
     = match Api.getCurrentUser localhost (Auth.api_token signed_in) unreachable with
       | Normal userData =>
           Auth.Session (Auth.stored_token signed_in)
             (VString (ToString (Auth.api_token signed_in))) userData false
       | Throw _ => Auth.Session None VNull VNull false
       end.
Proof.
  apply (reload_presents_the_token localhost welcoming unreachable
           (VString "ada") VNull (VString "secret") (Auth.mount None)).
  - left. vm_compute. reflexivity.
  - reflexivity.
  - vm_compute. discriminate.
Defined.

(** X15. [logout] ends the session for good: storage holds no token, the
    client holds none and sends no [Authorization] header, no user is
    set, and the effect run on the next mount finds nothing to restore
    and asks the server nothing. *)
Theorem logout_ends_the_session
  (API_BASE : string) (later : request -> outcome) (s : Auth.session) :
  Auth.logout s = Auth.Session None VNull VNull (Auth.loading s)
  /\ Api.getAuthHeaders (Auth.api_token (Auth.logout s))
     = [("Content-Type", "application/json")]
  /\ Auth.restore API_BASE later (Auth.mount (Auth.stored_token (Auth.logout s)))
     = Auth.Session None VNull VNull false.
Proof. repeat split. Qed.

End Reloads.

(** ** Uploads *)

Module Uploads.
Import JS Http Trace Sample Notions Cases.

Lemma refused_upload_throws (response : response) :
  exists e,
    bind (Http.json response) (fun error =>
    bind (get error "detail") (fun detail =>
    @Throw value (new_Error (or_else detail (VString "Failed to upload PDF"))))) = Throw e.
Proof.
  destruct (Http.json response) as [error|e]; cbn [bind]; [|now exists e].
  destruct (get error "detail") as [detail|e]; cbn [bind]; eexists; reflexivity.
Qed.

Lemma failed_upload (upload : value -> completion value) (name : string) (s : App.state)
  (e : error) :
  Str.endsWith (Str.toLowerCase name) ".pdf" = true ->
  upload (VString name) = Throw e ->
  App.handlePdfUpload_with upload (Some name) s
  = App.setUploadingPdf false
      (App.log (Alert ("Failed to upload PDF: " ++ err_message e))
         (App.setUploadingPdf true s)).
Proof.
  intros Hname Hupload. unfold App.handlePdfUpload_with. rewrite Hname, Hupload.
  reflexivity.
Qed.

(** X16. The staged file changes only through an upload that went well:
    if [handlePdfUpload] leaves another attachment than it found, then a
    file was chosen whose name ends in ".pdf" (in any case of the
    letters), the server answered the upload with success and a JSON body
    that is not [null], and the attachment is the [base64] and the
    [filename] of that body. A name with another ending, a network
    failure, a response that is not [ok] (whatever its body says) or a
    body that cannot be read leave the attachment as it was. *)
Theorem attachment_changes_only_on_upload
  (API_BASE : string) (authToken : value) (fetch : request -> outcome)
  (file : option string) (s : App.state)
  (Hchanged : attachment (App.handlePdfUpload API_BASE authToken fetch file s)
              <> attachment s) :
  exists name response result,
    file = Some name
    /\ Str.endsWith (Str.toLowerCase name) ".pdf" = true
    /\ fetch (upload_request API_BASE authToken name) = Responded response
    /\ ok response = true
    /\ Http.json response = Normal result
    /\ defined result = true
    /\ attachment (App.handlePdfUpload API_BASE authToken fetch file s)
       = (prop result "base64", prop result "filename")
    /\ App.uploadingPdf (App.handlePdfUpload API_BASE authToken fetch file s) = false.
Proof.
  unfold App.handlePdfUpload in *.
  destruct file as [name|]; [|now contradiction Hchanged].
  destruct (Str.endsWith (Str.toLowerCase name) ".pdf") eqn:Hname.
  2:{ unfold App.handlePdfUpload_with in Hchanged. rewrite Hname in Hchanged.
      now contradiction Hchanged. }
  destruct (Api.uploadPdf API_BASE authToken fetch (VString name)) as [result|e] eqn:Hupload.
  2:{ rewrite (failed_upload _ name s e Hname Hupload) in Hchanged.
      now contradiction Hchanged. }
  unfold Api.uploadPdf in Hupload. fold (upload_request API_BASE authToken name) in Hupload.
  destruct (fetch (upload_request API_BASE authToken name)) as [e|response] eqn:Hfetch;
    [discriminate|].
  destruct (ok response) eqn:Hok; cbn [negb] in Hupload.
  2:{ destruct (refused_upload_throws response) as [e He]. rewrite He in Hupload.
      discriminate. }
  unfold App.handlePdfUpload_with in *. rewrite Hname in *. cbn [negb] in *.
  unfold Api.uploadPdf in *. fold (upload_request API_BASE authToken name) in *.
  rewrite Hfetch, Hok in *. cbn [negb] in *. rewrite Hupload in *. cbn [bind] in *.
  destruct result; cbn [get bind] in *;
    try (now contradiction Hchanged);
    (exists name, response; eexists; repeat split; try eassumption; reflexivity).
Qed.

Lemma attachment_changes_only_on_upload_witness :
  exists name response result,
    Some "Notes.PDF" = Some name
    /\ Str.endsWith (Str.toLowerCase name) ".pdf" = true
    /\ backend (upload_request localhost VNull name) = Responded response
    /\ ok response = true
    /\ Http.json response = Normal result
    /\ defined result = true
    /\ attachment (App.handlePdfUpload localhost VNull backend (Some "Notes.PDF") ready)
       = (prop result "base64", prop result "filename")
    /\ App.uploadingPdf (App.handlePdfUpload localhost VNull backend (Some "Notes.PDF") ready)
       = false.
Proof.
  apply (attachment_changes_only_on_upload localhost VNull backend (Some "Notes.PDF") ready).
  vm_compute. discriminate.
Defined.

End Uploads.

(** ** Title events *)

Module Titles.
Import JS Http Trace Sample Notions Cases.

Lemma lookup_absent (key : string) (fields : list (string * value)) :
  ~ List.In key (List.map fst fields) -> lookup key fields = None.
Proof.
  induction fields as [|[k x] fields IH]; cbn [lookup List.map fst List.In]; [reflexivity|].
  intros H. rewrite IH by tauto.
  destruct (String.eqb_spec k key) as [-> | _]; [tauto | reflexivity].
Qed.

Lemma lookup_set_field (key : string) (v : value) (fields : list (string * value)) :
  List.NoDup (List.map fst fields) ->
  lookup key (set_field key v fields) = Some v.
Proof.
  induction fields as [|[k x] fields IH]; cbn [lookup set_field List.map fst]; intros Hkeys.
  - now rewrite String.eqb_refl.
  - inversion Hkeys as [|? ? Hk Hrest]; subst.
    destruct (String.eqb_spec k key) as [-> | Hother]; cbn [lookup].
    + now rewrite (lookup_absent key fields Hk), String.eqb_refl.
    + now rewrite (IH Hrest).
Qed.

Lemma lookup_set_field_other (key other : string) (v : value)
  (fields : list (string * value)) :
  other <> key -> lookup other (set_field key v fields) = lookup other fields.
Proof.
  intros Hother.
  induction fields as [|[k x] fields IH]; cbn [lookup set_field].
  - destruct (String.eqb_spec key other) as [-> | _]; [contradiction | reflexivity].
  - destruct (String.eqb_spec k key) as [-> | Hk]; cbn [lookup].
    + destruct (lookup other fields); [reflexivity|].
      destruct (String.eqb_spec key other) as [-> | _]; [contradiction | reflexivity].
    + now rewrite IH.
Qed.

Lemma set_field_keys (key : string) (v : value) (fields : list (string * value)) :
  List.NoDup (List.map fst fields) ->
  List.NoDup (List.map fst (set_field key v fields))
  /\ forall k, List.In k (List.map fst (set_field key v fields))
               -> k = key \/ List.In k (List.map fst fields).
Proof.
  induction fields as [|[k x] fields IH]; cbn [set_field List.map fst]; intros Hkeys.
  - split; [repeat constructor; intros []|]. intros k0 [<- | []]. now left.
  - inversion Hkeys as [|? ? Hk Hrest]; subst.
    destruct (String.eqb_spec k key) as [-> | Hother]; cbn [List.map fst].
    + split; [exact Hkeys|]. intros k0 H. now right.
    + destruct (IH Hrest) as [Hnodup Hin]. split.
      * constructor; [|exact Hnodup]. intros H. destruct (Hin _ H) as [-> | H']; tauto.
      * intros k0 [<- | H]; [right; now left|].
        destruct (Hin _ H) as [-> | H']; [now left | right; now right].
Qed.

(** The objects that [JSON.parse] builds have no key twice. *)
Lemma members_keys (l : list (string * value)) :
  List.NoDup (List.map fst (JSON.members l)).
Proof.
  unfold JSON.members.
  assert (H : forall acc, List.NoDup (List.map fst acc) ->
              List.NoDup (List.map fst
                (List.fold_left (fun fields kv => set_field (fst kv) (snd kv) fields) l acc))).
  { induction l as [|[k v] l IH]; intros acc Hacc; cbn [List.fold_left]; [exact Hacc|].
    apply IH. exact (proj1 (set_field_keys k v acc Hacc)). }
  apply H. constructor.
Qed.

(** X17. A title event renames the conversation and nothing else: the
    current conversation becomes the one of the render that sent the
    message with its [title] replaced, every other property ([id],
    [messages], ...) being the one of that conversation. *)
Theorem title_update_keeps_the_other_fields
  (r s : App.state) (listing : completion value) (title : value)
  (fields : list (string * value))
  (Hcurrent : App.currentConversation r = VObject fields)
  (Hkeys : List.NoDup (List.map fst fields)) :
  prop (App.currentConversation (App.onTitleUpdate r listing title s)) "title" = title
  /\ forall key,
       key <> "title" ->
       prop (App.currentConversation (App.onTitleUpdate r listing title s)) key
       = prop (App.currentConversation r) key.
Proof.
  unfold App.onTitleUpdate.
  destruct (Stages.loadConversations_keeps listing
              (App.setCurrentConversation
                 (VObject (set_field "title" title (own_entries (App.currentConversation r))))
                 s)) as (_ & _ & _ & _ & ->).
  cbn [App.setCurrentConversation App.currentConversation].
  rewrite Hcurrent. cbn [own_entries prop]. split.
  - now rewrite (lookup_set_field "title" title fields Hkeys).
  - intros key Hkey. now rewrite (lookup_set_field_other "title" key title fields Hkey).
Qed.

Lemma title_update_keeps_the_other_fields_witness :
  prop (App.currentConversation (App.onTitleUpdate ready (Normal (VArray [])) (VString "Renamed")
                                   ready)) "title" = VString "Renamed"
  /\ forall key,
       key <> "title" ->
       prop (App.currentConversation (App.onTitleUpdate ready (Normal (VArray []))
                                        (VString "Renamed") ready)) key
       = prop (App.currentConversation ready) key.
Proof.
  apply (title_update_keeps_the_other_fields ready ready (Normal (VArray [])) (VString "Renamed")
           [("id", VString "a"); ("title", VString "A"); ("messages", VArray [])]).
  - reflexivity.
  - repeat constructor; cbn; intuition discriminate.
Defined.

End Titles.

(** ** Calls that are refused *)

Module Refusals.
Import JS Http Trace Sample Notions Cases.

Lemma plain_call_refused (API_BASE : string) (authToken : value) (fetch : request -> outcome)
  (path method failure : string) (body : option value) :
  refusing fetch ->
  exists e, Api.plain_call API_BASE authToken fetch path method failure body = Throw e.
Proof.
  intros Hrefusing. unfold Api.plain_call.
  destruct (fetch _) as [e|response] eqn:Hfetch; [now exists e|].
  rewrite (Hrefusing _ _ Hfetch). eexists. reflexivity.
Qed.

Lemma credentials_call_refused (API_BASE : string) (fetch : request -> outcome)
  (path : string) (body : value) (default : string) :
  refusing fetch ->
  exists e, Api.credentials_call API_BASE fetch path body default = Throw e.
Proof.
  intros Hrefusing. unfold Api.credentials_call.
  destruct (fetch _) as [e|response] eqn:Hfetch.
  - destruct (Sessions.credentials_catch_cases API_BASE e) as [[-> _] | ->];
      eexists; reflexivity.
  - rewrite (Hrefusing _ _ Hfetch). cbn [negb].
    destruct (Sessions.credentials_catch_cases API_BASE
                (new_Error (Api.rejection_message response default))) as [[-> _] | ->];
      eexists; reflexivity.
Qed.

(** X18. No call of the API client gives a value when the network fails
    or the server answers with a status that is not a success: each of
    them throws, and [sendMessageStream] throws before any callback. *)
Theorem refused_calls_throw
  (API_BASE : string) (authToken : value) (fetch : request -> outcome)
  (a b c d : value)
  (Hrefusing : refusing fetch) :
  (exists e, Api.register API_BASE fetch a b c = Throw e)
  /\ (exists e, Api.login API_BASE fetch a b = Throw e)
  /\ (exists e, Api.getCurrentUser API_BASE authToken fetch = Throw e)
  /\ (exists e, Api.listConversations API_BASE authToken fetch = Throw e)
  /\ (exists e, Api.createConversation API_BASE authToken fetch = Throw e)
  /\ (exists e, Api.getConversation API_BASE authToken fetch a = Throw e)
  /\ (exists e, Api.deleteConversation API_BASE authToken fetch a = Throw e)
  /\ (exists e, Api.uploadPdf API_BASE authToken fetch a = Throw e)
  /\ (exists e, Api.sendMessage API_BASE authToken fetch a b c d = Throw e)
  /\ (exists e, Api.sendMessageStream API_BASE authToken fetch a b c d = ([]%list, Throw e)).
Proof.
  repeat split.
  - exact (credentials_call_refused _ _ _ _ _ Hrefusing).
  - exact (credentials_call_refused _ _ _ _ _ Hrefusing).
  - unfold Api.getCurrentUser.
    destruct (fetch _) as [e|response] eqn:Hfetch; [now exists e|].
    rewrite (Hrefusing _ _ Hfetch). eexists. reflexivity.
  - exact (plain_call_refused _ _ _ _ _ _ _ Hrefusing).
  - exact (plain_call_refused _ _ _ _ _ _ _ Hrefusing).
  - exact (plain_call_refused _ _ _ _ _ _ _ Hrefusing).
  - exact (plain_call_refused _ _ _ _ _ _ _ Hrefusing).
  - unfold Api.uploadPdf.
    destruct (fetch _) as [e|response] eqn:Hfetch; [now exists e|].
    rewrite (Hrefusing _ _ Hfetch). cbn [negb].
    exact (Uploads.refused_upload_throws response).
  - exact (plain_call_refused _ _ _ _ _ _ _ Hrefusing).
  - unfold Api.sendMessageStream.
    destruct (fetch _) as [e|response] eqn:Hfetch; [now exists e|].
    rewrite (Hrefusing _ _ Hfetch). eexists. reflexivity.
Qed.

Lemma refused_calls_throw_witness :
  (exists e, Api.register localhost (turning_down "No") (VString "ada") (VString "a@b.c")
               (VString "secret") = Throw e)
  /\ (exists e, Api.login localhost (turning_down "No") (VString "ada") (VString "a@b.c")
                  = Throw e)
  /\ (exists e, Api.getCurrentUser localhost VNull (turning_down "No") = Throw e)
  /\ (exists e, Api.listConversations localhost VNull (turning_down "No") = Throw e)
  /\ (exists e, Api.createConversation localhost VNull (turning_down "No") = Throw e)
  /\ (exists e, Api.getConversation localhost VNull (turning_down "No") (VString "ada")
                  = Throw e)
  /\ (exists e, Api.deleteConversation localhost VNull (turning_down "No") (VString "ada")
                  = Throw e)
  /\ (exists e, Api.uploadPdf localhost VNull (turning_down "No") (VString "ada") = Throw e)
  /\ (exists e, Api.sendMessage localhost VNull (turning_down "No")
                  (VString "ada") (VString "a@b.c") (VString "secret") VNull = Throw e)
  /\ (exists e, Api.sendMessageStream localhost VNull (turning_down "No")
                  (VString "ada") (VString "a@b.c") (VString "secret") VNull
                = ([]%list, Throw e)).
Proof.
  apply (refused_calls_throw localhost VNull (turning_down "No")
           (VString "ada") (VString "a@b.c") (VString "secret") VNull).
  intros req response H. injection H as <-. reflexivity.
Defined.

End Refusals.

(** ** A new conversation *)

Module Creating.
Import JS Http Trace Sample Notions Cases.

(** X19. [createNewConversation] builds the new list from the list of the
    render whose closure runs, not from the list the component holds: when
    the server has created the conversation, the list becomes that of the
    render with the new conversation put first, whatever was listed in
    between, so a second creation from the same render leaves only one
    new entry. The new conversation is opened with an empty history, a
    reset stage state and no staged file; the input and [loading] stay.
    When the server fails nothing changes but one console line. *)
Theorem new_conversation_heads_the_render_list
  (API_BASE : string) (authToken : value) (fetch : request -> outcome)
  (r : App.state) (rest : list value)
  (Hrest : iterate (App.conversations r) = Normal rest) :
  match Api.createConversation API_BASE authToken fetch with
  | Normal conv =>
      forall s,
        let s' := App.createNewConversation API_BASE authToken fetch r s in
        App.conversations s' = VArray (conv :: rest)
        /\ App.currentConversation s' = conv
        /\ App.messages s' = VArray []
        /\ stage_state s' = (VNull, VNull, VNull, VNull, None)
        /\ attachment s' = (VNull, VNull)
        /\ App.input s' = App.input s
        /\ App.loading s' = App.loading s
        /\ App.conversations (App.createNewConversation API_BASE authToken fetch r s')
           = VArray (conv :: rest)
  | Throw e =>
      forall s,
        App.createNewConversation API_BASE authToken fetch r s
        = App.log (ConsoleError "Failed to create conversation:" e) s
  end.
Proof.
  unfold App.createNewConversation, App.createNewConversation_then.
  destruct (Api.createConversation API_BASE authToken fetch) as [conv|e]; cbn [bind].
  - rewrite Hrest. cbn [bind]. intros s. cbn zeta.
    destruct s as [? ? ? ? ? ? ? ? ? ? ? ? ? ? [input|] ?]; repeat split.
  - reflexivity.
Qed.

Lemma new_conversation_heads_the_render_list_witness :
  match Api.createConversation localhost VNull backend with
  | Normal conv =>
      forall s,
        let s' := App.createNewConversation localhost VNull backend listed s in
        App.conversations s' = VArray (conv :: [conversation_a; conversation_b])
        /\ App.currentConversation s' = conv
        /\ App.messages s' = VArray []
        /\ stage_state s' = (VNull, VNull, VNull, VNull, None)
        /\ attachment s' = (VNull, VNull)
        /\ App.input s' = App.input s
        /\ App.loading s' = App.loading s
        /\ App.conversations (App.createNewConversation localhost VNull backend listed s')
           = VArray (conv :: [conversation_a; conversation_b])
  | Throw e =>
      forall s,
        App.createNewConversation localhost VNull backend listed s
        = App.log (ConsoleError "Failed to create conversation:" e) s
  end.
Proof.
  apply (new_conversation_heads_the_render_list localhost VNull backend listed
           [conversation_a; conversation_b]).
  reflexivity.
Defined.

End Creating.

(** ** An error frame in the stream *)

Module Errors.
Import JS Http Trace Sample Notions Cases.

(** A line that throws ends the run with its error: the lines after it
    and the reads after its own do not count. *)
Lemma raising_line (process_line : string -> list effect * control)
  (line chunk : string) (before after later : list string) (failure : option error)
  (effects : list effect) (e : error) :
  process_line line = ([]%list, Raise e) ->
  lines chunk = (before ++ line :: after)%list ->
  Reader.process_lines process_line before = (effects, Next) ->
  Reader.read_loop process_line (chunk :: later) failure = (effects, Throw e).
Proof.
  intros Hline Hlines Hbefore. cbn [Reader.read_loop]. unfold Reader.process_chunk.
  fold (lines chunk). rewrite Hlines, ReaderFacts.process_lines_app, Hbefore.
  cbn [Reader.process_lines]. rewrite Hline. cbn. now rewrite List.app_nil_r.
Qed.

Lemma error_line (data : string) (parsed : value) (text : string) :
  JSON.parse data = Normal parsed ->
  prop parsed "type" = VString "error" ->
  ToString (or_else (prop parsed "message") (VString "Unknown error")) = text ->
  rethrown (Err "Error" text) ->
  Api.process_line ("data: " ++ data) = ([]%list, Raise (Err "Error" text)).
Proof.
  intros Hparse Htype Htext [Hsome Hjson]. cbn [err_message] in Hsome, Hjson.
  rewrite Frames.process_line_marked.
  destruct (String.eqb_spec data "[DONE]") as [-> | _].
  { vm_compute in Hparse. discriminate. }
  unfold Api.try_frame. rewrite Hparse. unfold Api.dispatch.
  destruct parsed; try (unfold prop in Htype; discriminate).
  cbn [get]. rewrite Htype. eval_types. cbv iota.
  unfold new_Error, Api.catch_frame. rewrite Htext. cbn [err_message app].
  rewrite Hjson. destruct text; [contradiction | reflexivity].
Qed.

(** X20. An [error] frame ends the stream: once the reads before have
    been handled to their end, [sendMessageStream] throws an [Error]
    whose message is the text of the frame's [message] ("Unknown error"
    when the frame has none, or a falsy one), provided that text is not
    empty and does not contain "JSON". The callbacks made before the
    frame stay made; the lines after it in its read, the later reads and
    a failure of the body further on go unseen. This is for a [message]
    that is not an object: a string, a number, a boolean, [null], or
    none. *)
Theorem error_frame_ends_the_stream
  (API_BASE : string) (authToken conversationId content pdfData pdfFilename : value)
  (data : string) (parsed : value) (text chunk : string)
  (before after earlier later : list string)
  (failure : option error) (effects : list effect)
  (Hparse : JSON.parse data = Normal parsed)
  (Htype : prop parsed "type" = VString "error")
  (Hplain : is_object (prop parsed "message") = false)
  (Htext : ToString (or_else (prop parsed "message") (VString "Unknown error")) = text)
  (Hrethrown : rethrown (Err "Error" text))
  (Hearlier : List.Forall (fun value => exists e, Api.process_chunk value = (e, Next)) earlier)
  (Hchunk : lines chunk = (before ++ ("data: " ++ data)%string :: after)%list)
  (Hbefore : Api.process_lines before = (effects, Next)) :
  exists e0,
    Api.read_loop earlier None = (e0, Normal tt)
    /\ Api.sendMessageStream API_BASE authToken
         (serving (earlier ++ chunk :: later)%list failure)
         conversationId content pdfData pdfFilename
       = ((e0 ++ effects)%list, Throw (Err "Error" text)).
Proof.
  destruct (Observed.read_loop_through Api.process_line earlier (chunk :: later) failure
              Hearlier) as [e0 [H0 H1]].
  exists e0. split; [exact H0|].
  rewrite Served.sendMessageStream_serving.
  unfold Api.read_loop. rewrite H1.
  now rewrite (raising_line Api.process_line _ chunk before after later failure effects
                 (Err "Error" text)
                 (error_line data parsed text Hparse Htype Htext Hrethrown)
                 Hchunk Hbefore).
Qed.

(** A first read with the answers of stage 1; a second with an error
    frame that has no message, then the synthesis: the answers are
    delivered, the stream throws "Unknown error" and the synthesis is
    never seen. *)
Lemma error_frame_ends_the_stream_witness :
  exists e0,
    Api.read_loop [encode [first_answers]] None = (e0, Normal tt)
    /\ Api.sendMessageStream localhost VNull
         (serving ([encode [first_answers]]
                   ++ encode [reviews; bare_error; synthesis] :: [encode [complete_payload]])%list
            None)
         (VString "c1") (VString "hi") VNull VNull
       = ((e0 ++ [OnStage2 (VArray [VString "review"])
                    (VObject [("n", VNumber (Number false 1 0))])])%list,
          Throw (Err "Error" "Unknown error")).
Proof.
  apply (error_frame_ends_the_stream localhost VNull (VString "c1") (VString "hi") VNull VNull
           bare_error (VObject [("type", VString "error")]) "Unknown error"
           (encode [reviews; bare_error; synthesis])
           ["data: " ++ reviews]%string ["data: " ++ synthesis; ""]%string
           [encode [first_answers]] [encode [complete_payload]] None).
  - vm_compute. reflexivity.
  - reflexivity.
  - reflexivity.
  - reflexivity.
  - split; [discriminate | vm_compute; reflexivity].
  - repeat constructor. eexists. vm_compute. reflexivity.
  - vm_compute. reflexivity.
  - vm_compute. reflexivity.
Defined.

End Errors.

(** ** An upload that is refused *)

Module RefusedUploads.
Import JS Http Trace Sample Notions Cases.

(** X21. When the server refuses an upload with a JSON body, the user is
    told once, in an alert that reads "Failed to upload PDF: " followed
    by the text of the body's [detail], or by "Failed to upload PDF"
    again when the body has no [detail] (or a falsy one). Nothing is
    staged and [uploadingPdf] is off again. This is for a [detail] that
    is not an object: a string, a number, a boolean, [null], or none. *)
Theorem refused_upload_alert
  (API_BASE : string) (authToken : value) (fetch : request -> outcome)
  (name : string) (response : response) (answer detail : value) (s : App.state)
  (Hname : Str.endsWith (Str.toLowerCase name) ".pdf" = true)
  (Hfetch : fetch (upload_request API_BASE authToken name) = Responded response)
  (Hrefused : ok response = false)
  (Hanswer : Http.json response = Normal answer)
  (Hdetail : get answer "detail" = Normal detail)
  (Hplain : is_object detail = false) :
  App.handlePdfUpload API_BASE authToken fetch (Some name) s
  = App.setJournal
      (App.journal s
       ++ [Alert ("Failed to upload PDF: "
                  ++ ToString (or_else detail (VString "Failed to upload PDF")))])%list
      (App.setUploadingPdf false s).
Proof.
  unfold App.handlePdfUpload.
  rewrite (Uploads.failed_upload _ name s
             (new_Error (or_else detail (VString "Failed to upload PDF"))) Hname).
  - destruct s; reflexivity.
  - unfold Api.uploadPdf. fold (upload_request API_BASE authToken name).
    rewrite Hfetch, Hrefused. cbn [negb]. rewrite Hanswer. cbn [bind].
    rewrite Hdetail. reflexivity.
Qed.

Lemma refused_upload_alert_witness :
  App.handlePdfUpload localhost VNull (answering 413 "Payload Too Large" "{}")
    (Some "scan.pdf") ready
  = App.setJournal
      (App.journal ready
       ++ [Alert ("Failed to upload PDF: "
                  ++ ToString (or_else VUndefined (VString "Failed to upload PDF")))])%list
      (App.setUploadingPdf false ready).
Proof.
  apply (refused_upload_alert localhost VNull (answering 413 "Payload Too Large" "{}")
           "scan.pdf" (Response 413 "Payload Too Large" ["{}"] None) (VObject []) VUndefined
           ready).
  - vm_compute. reflexivity.
  - reflexivity.
  - reflexivity.
  - vm_compute. reflexivity.
  - reflexivity.
  - reflexivity.
Defined.

End RefusedUploads.

(** ** A payload that is [null] *)

Module NullFrames.
Import JS Http Trace Sample Notions Cases.

Lemma null_line (data : string) :
  JSON.parse data = Normal VNull ->
  Api.process_line ("data: " ++ data) = ([]%list, Raise (cannot_read VNull "type"))
  /\ Api0.process_line ("data: " ++ data)
     = ([ConsoleError "Failed to parse SSE data:" (cannot_read VNull "type")], Next).
Proof.
  intros Hparse.
  rewrite Frames.process_line_marked, Frames.process_line_marked_earlier.
  destruct (String.eqb_spec data "[DONE]") as [-> | _].
  { vm_compute in Hparse. discriminate. }
  unfold Api.try_frame, Api0.try_frame. rewrite Hparse. split; reflexivity.
Qed.

(** X22. A frame whose payload is the JSON value [null] parts the two
    clients. Reading its [type] throws a [TypeError]; the earlier client
    logs it like a payload that is not JSON and goes on, while the
    current client, whose [catch] throws again every error that does not
    mention "JSON", ends the stream with it: the callbacks made before
    stay made and nothing after the frame is handled. *)
Theorem null_payload_ends_the_stream
  (API_BASE : string) (authToken conversationId content pdfData pdfFilename : value)
  (data chunk : string) (before after earlier later : list string)
  (failure : option error) (effects : list effect)
  (Hparse : JSON.parse data = Normal VNull)
  (Hearlier : List.Forall (fun value => exists e, Api.process_chunk value = (e, Next)) earlier)
  (Hchunk : lines chunk = (before ++ ("data: " ++ data)%string :: after)%list)
  (Hbefore : Api.process_lines before = (effects, Next)) :
  exists e0 e,
    err_name e = "TypeError"
    /\ rethrown e
    /\ Api.read_loop earlier None = (e0, Normal tt)
    /\ Api.sendMessageStream API_BASE authToken
         (serving (earlier ++ chunk :: later)%list failure)
         conversationId content pdfData pdfFilename
       = ((e0 ++ effects)%list, Throw e)
    /\ Api0.process_line ("data: " ++ data)
       = ([ConsoleError "Failed to parse SSE data:" e], Next).
Proof.
  destruct (null_line data Hparse) as [Hnew Hold].
  destruct (Observed.read_loop_through Api.process_line earlier (chunk :: later) failure
              Hearlier) as [e0 [H0 H1]].
  exists e0, (cannot_read VNull "type").
  split; [reflexivity|]. split; [split; [discriminate | vm_compute; reflexivity]|].
  split; [exact H0|]. split; [|exact Hold].
  rewrite Served.sendMessageStream_serving.
  unfold Api.read_loop. rewrite H1.
  now rewrite (Errors.raising_line Api.process_line _ chunk before after later failure
                 effects _ Hnew Hchunk Hbefore).
Qed.

Lemma null_payload_ends_the_stream_witness :
  exists e0 e,
    err_name e = "TypeError"
    /\ rethrown e
    /\ Api.read_loop []%list None = (e0, Normal tt)
    /\ Api.sendMessageStream localhost VNull
         (serving ([]%list ++ encode [first_answers; " null "; synthesis] :: []%list)%list None)
         (VString "c1") (VString "hi") VNull VNull
       = ((e0 ++ [OnStage1 (VArray [VString "first"])])%list, Throw e)
    /\ Api0.process_line ("data: " ++ " null ")
       = ([ConsoleError "Failed to parse SSE data:" e], Next).
Proof.
  apply (null_payload_ends_the_stream localhost VNull (VString "c1") (VString "hi") VNull VNull
           " null " (encode [first_answers; " null "; synthesis])
           ["data: " ++ first_answers]%string ["data: " ++ synthesis; ""]%string
           []%list []%list None).
  - vm_compute. reflexivity.
  - constructor.
  - vm_compute. reflexivity.
  - vm_compute. reflexivity.
Defined.

End NullFrames.

(** ** Where a send goes *)

Module Endpoints.
Import JS Http Trace Sample Notions Cases.

(** X23. A send talks to two places only: the stream of the conversation
    that was open in the render whose closure runs (its [id], whatever
    conversation the component holds by then), and the list of
    conversations, which is fetched again after a title event. Two
    networks that answer alike at these two addresses give the same
    send. *)
Theorem a_send_goes_to_its_conversation
  (API_BASE : string) (authToken : value) (fetch other : request -> outcome)
  (r s : App.state)
  (Hstream : forall req,
      url req = API_BASE ++ "/api/conversations/"
                ++ ToString (prop (App.currentConversation r) "id") ++ "/message/stream" ->
      other req = fetch req)
  (Hlist : forall req, url req = API_BASE ++ "/api/conversations" -> other req = fetch req) :
  App.sendMessage API_BASE authToken other r s
  = App.sendMessage API_BASE authToken fetch r s.
Proof.
  unfold App.sendMessage, App.stream_of, Api.sendMessageStream, Api.listConversations,
    Api.plain_call.
  rewrite Hstream by reflexivity. rewrite Hlist by reflexivity. reflexivity.
Qed.

Lemma a_send_goes_to_its_conversation_witness :
  App.sendMessage localhost VNull narrow_backend staged turn_begun
  = App.sendMessage localhost VNull backend staged turn_begun.
Proof.
  apply (a_send_goes_to_its_conversation localhost VNull backend narrow_backend).
  - intros req Hurl. unfold narrow_backend. rewrite Hurl. reflexivity.
  - intros req Hurl. unfold narrow_backend. rewrite Hurl. reflexivity.
Defined.

End Endpoints.
